(** * Claude God Code: a shallow embedding of the engine's decision logic

    The development follows the Python sources under [apps/backend]:
    - [spec/complexity.py]  (module [Complexity])
    - [spec/impact.py]      (module [Impact])
    - [qa/criteria.py]      (module [Criteria])
    - [qa/reviewer.py]      (module [Reviewer])
    - [qa/loop.py]          (module [Loop])
    - [qa/fixer.py]         (module [Fixer])
    - [core/worktree.py]    (module [Worktree])
    - [agents/session.py]   (module [Session])

    Definitions come first, one module per source file; the theorems about
    them follow in the second half of the file. *)

From Stdlib Require Import ZArith Lia List Bool Ascii String DecimalString.
From Stdlib Require Import DecimalNat DecimalFacts Permutation.
From stdpp Require Import base option list gmap strings.

Local Open Scope list_scope.

(** ** Python values shared by all modules *)

Module Py.

(** Exceptions the modelled code can raise. *)
Inductive Exn : Type :=
| KeyError (key : string)
| ValueError (msg : string)
| TypeError
| AttributeError
| JSONDecodeError
| UnicodeDecodeError
| WorktreeError (msg : string).

(** The outcome of a call that may raise. *)
Inductive Result (A : Type) : Type :=
| Ok (a : A)
| Raise (e : Exn).
Arguments Ok {A} a.
Arguments Raise {A} e.

Definition bind {A B : Type} (r : Result A) (k : A -> Result B) : Result B :=
  match r with
  | Ok a => k a
  | Raise e => Raise e
  end.

(** [str(e)]: the message of a [ValueError] or [WorktreeError], the quoted
    key of a [KeyError]; for the other exceptions, whose messages the model
    does not carry, their name. *)
Definition exn_text (e : Exn) : string :=
  match e with
  | KeyError k => "'" +:+ k +:+ "'"
  | ValueError m => m
  | TypeError => "TypeError"
  | AttributeError => "AttributeError"
  | JSONDecodeError => "JSONDecodeError"
  | UnicodeDecodeError => "UnicodeDecodeError"
  | WorktreeError m => m
  end.

Notation "'let!' x ':=' r 'in' k" := (bind r (fun x => k))
  (at level 10, x pattern, r at level 100, k at level 200).

(** *** Characters *)

Definition between (lo hi : nat) (c : ascii) : bool :=
  (lo <=? nat_of_ascii c)%nat && (nat_of_ascii c <=? hi)%nat.

Definition is_upper (c : ascii) : bool := between 65 90 c.
Definition is_lower (c : ascii) : bool := between 97 122 c.
Definition is_digit (c : ascii) : bool := between 48 57 c.

(** [\w] of the [re] module on ASCII text. *)
Definition is_word (c : ascii) : bool :=
  is_upper c || is_lower c || is_digit c || Ascii.eqb c "_"%char.

(** [\s] of the [re] module on ASCII text (the characters [str.isspace]
    accepts below 128). *)
Definition is_space (c : ascii) : bool :=
  between 9 13 c || between 28 32 c.

Definition lower_char (c : ascii) : ascii :=
  if is_upper c then ascii_of_nat (nat_of_ascii c + 32) else c.

(** *** Strings *)

(** [str.lower] on ASCII text. *)
Fixpoint lower (s : string) : string :=
  match s with
  | EmptyString => EmptyString
  | String c s' => String (lower_char c) (lower s')
  end.

(** [kw in s]: substring test. *)
Fixpoint contains (kw s : string) : bool :=
  String.prefix kw s ||
  match s with
  | EmptyString => false
  | String _ s' => contains kw s'
  end.

(** [any(kw in s for kw in kws)]. *)
Definition any_in (kws : list string) (s : string) : bool :=
  existsb (fun kw => contains kw s) kws.

(** [sum(1 for kw in kws if kw in s)]. *)
Definition count_in (kws : list string) (s : string) : nat :=
  length (List.filter (fun kw => contains kw s) kws).

Fixpoint drop_chars (n : nat) (s : string) : string :=
  match n, s with
  | O, _ => s
  | S n', String _ s' => drop_chars n' s'
  | S _, EmptyString => EmptyString
  end.

Definition first_char (s : string) : option ascii :=
  match s with
  | EmptyString => None
  | String c _ => Some c
  end.

Fixpoint last_char (s : string) : option ascii :=
  match s with
  | EmptyString => None
  | String c EmptyString => Some c
  | String _ s' => last_char s'
  end.

Definition word_opt (c : option ascii) : bool :=
  match c with
  | Some c => is_word c
  | None => false
  end.

(** [\b] holds between two neighbouring positions when exactly one side is a
    word character; the outside of the string counts as a non-word. *)
Definition boundary (before after : option ascii) : bool :=
  xorb (word_opt before) (word_opt after).

(** Does the regular expression [\b<lit>\b] match at the start of [s], the
    character before [s] being [prev]? *)
Definition bounded_at (prev : option ascii) (lit s : string) : bool :=
  String.prefix lit s
  && boundary prev (first_char s)
  && boundary (last_char lit) (first_char (drop_chars (String.length lit) s)).

(** [re.search(r"\b<lit>\b", s)] for a literal [lit]. *)
Fixpoint bounded_search_from (prev : option ascii) (lit s : string) : bool :=
  bounded_at prev lit s ||
  match s with
  | EmptyString => false
  | String c s' => bounded_search_from (Some c) lit s'
  end.

Definition bounded_search (lit s : string) : bool :=
  bounded_search_from None lit s.

(** [re.search(r"\b(a|b|...)\b", s)]. *)
Definition bounded_search_any (lits : list string) (s : string) : bool :=
  existsb (fun lit => bounded_search lit s) lits.

(** Decimal rendering of a natural number, as [str(n)] or an f-string does. *)
Definition str_nat (n : nat) : string :=
  NilZero.string_of_uint (Nat.to_uint n).

Definition str_Z (z : Z) : string :=
  NilZero.string_of_int (Z.to_int z).

(** [sep.join(parts)]. *)
Fixpoint join (sep : string) (parts : list string) : string :=
  match parts with
  | [] => ""
  | [p] => p
  | p :: rest => p +:+ sep +:+ join sep rest
  end.

Definition upper_char (c : ascii) : ascii :=
  if is_lower c then ascii_of_nat (nat_of_ascii c - 32) else c.

(** [str.upper] on ASCII text. *)
Fixpoint upper (s : string) : string :=
  match s with
  | EmptyString => EmptyString
  | String c s' => String (upper_char c) (upper s')
  end.

Definition snoc (s : string) (c : ascii) : string := s +:+ String c EmptyString.

(** The ASCII line boundaries of [str.splitlines] other than CR. *)
Definition is_linebreak (c : ascii) : bool :=
  between 10 12 c || between 28 30 c.

Fixpoint splitlines_from (acc s : string) : list string :=
  match s with
  | EmptyString => if String.eqb acc "" then [] else [acc]
  | String c s' =>
      if Ascii.eqb c "013"%char then
        match s' with
        | String c' s'' =>
            if Ascii.eqb c' "010"%char then acc :: splitlines_from "" s''
            else acc :: splitlines_from "" s'
        | EmptyString => acc :: splitlines_from "" s'
        end
      else if is_linebreak c then acc :: splitlines_from "" s'
      else splitlines_from (snoc acc c) s'
  end.

(** [str.splitlines]. *)
Definition splitlines (s : string) : list string := splitlines_from "" s.

(** [str.lstrip]. *)
Fixpoint lstrip (s : string) : string :=
  match s with
  | EmptyString => EmptyString
  | String c s' => if is_space c then lstrip s' else s
  end.

Fixpoint repeat_space (n : nat) : string :=
  match n with
  | O => ""
  | S n' => String " "%char (repeat_space n')
  end.

Fixpoint endswith_char (s : string) (c : ascii) : bool :=
  match s with
  | EmptyString => false
  | String c' EmptyString => Ascii.eqb c' c
  | String _ s' => endswith_char s' c
  end.

(** [str.replace(old, new)] for a non-empty [old]: [skip] counts the
    characters of a replaced occurrence still to be passed over. *)
Fixpoint replace_from (skip : nat) (old new s : string) : string :=
  match s with
  | EmptyString => EmptyString
  | String c s' =>
      match skip with
      | S k => replace_from k old new s'
      | O =>
          if String.prefix old s
          then new +:+ replace_from (String.length old - 1) old new s'
          else String c (replace_from 0 old new s')
      end
  end.

Definition replace (old new s : string) : string := replace_from 0 old new s.

(** Every character is one of the ten decimal digits. *)
Fixpoint all_digits (s : string) : bool :=
  match s with
  | EmptyString => true
  | String c s' => is_digit c && all_digits s'
  end.

(** The superscripts two, three and one (U+00B2, U+00B3, U+00B9): the
    characters below U+0100 that [str.isdigit] accepts and [int] refuses. *)
Definition is_superscript (c : ascii) : bool :=
  existsb (Ascii.eqb c) ["178"%char; "179"%char; "185"%char].

Fixpoint all_isdigit (s : string) : bool :=
  match s with
  | EmptyString => true
  | String c s' => (is_digit c || is_superscript c) && all_isdigit s'
  end.

(** [str.isdigit] on characters below U+0100. *)
Definition isdigit (s : string) : bool :=
  negb (String.eqb s "") && all_isdigit s.

Fixpoint int_from (acc : nat) (s : string) : nat :=
  match s with
  | EmptyString => acc
  | String c s' => int_from (10 * acc + (nat_of_ascii c - 48)) s'
  end.

(** The number a text of decimal digits denotes. *)
Definition int_of_digits (s : string) : nat := int_from 0 s.

(** The longest prefix of decimal digits, and what follows it. *)
Fixpoint digit_run (s : string) : string * string :=
  match s with
  | EmptyString => ("", "")
  | String c s' =>
      if is_digit c then let '(d, rest) := digit_run s' in (String c d, rest)
      else ("", s)
  end.

(** The most digits [int] converts (the default of
    [sys.set_int_max_str_digits]). *)
Definition INT_MAX_STR_DIGITS : nat := 4300.

(** [int(s)] for a text that [isdigit] accepts or that holds decimal digits
    only: its number, or the [ValueError] that too long a run of digits or
    a superscript among the characters brings. *)
Definition int_of_text (s : string) : Result nat :=
  let '(digits, rest) := digit_run s in
  if (INT_MAX_STR_DIGITS <? String.length digits)%nat then
    Raise (ValueError
             ("Exceeds the limit (4300 digits) for integer string conversion: "
              +:+ "value has " +:+ str_nat (String.length digits)
              +:+ " digits; use sys.set_int_max_str_digits() to increase the limit"))
  else if String.eqb rest "" && negb (String.eqb digits "") then
    Ok (int_of_digits digits)
  else
    Raise (ValueError ("invalid literal for int() with base 10: '" +:+ s +:+ "'")).

(** [s.rsplit(sep, 1)] for a one-character separator: [None] when [sep] does
    not occur, else the text before and after its last occurrence. *)
Fixpoint rsplit1 (sep : ascii) (s : string) : option (string * string) :=
  match s with
  | EmptyString => None
  | String c s' =>
      match rsplit1 sep s' with
      | Some (a, b) => Some (String c a, b)
      | None => if Ascii.eqb c sep then Some ("", s') else None
      end
  end.

(** The longest prefix of word characters, and what follows it. *)
Fixpoint word_run (s : string) : string * string :=
  match s with
  | EmptyString => ("", "")
  | String c s' =>
      if is_word c then let '(w, rest) := word_run s' in (String c w, rest)
      else ("", s)
  end.

Fixpoint skip_spaces (s : string) : string :=
  match s with
  | EmptyString => EmptyString
  | String c s' => if is_space c then skip_spaces s' else s
  end.

(** The double quote, which a string literal cannot hold. *)
Definition dquote : string := String "034"%char EmptyString.

(** The line feed. *)
Definition LF : string := String "010"%char EmptyString.

(** *** JSON-like values

    What [json.load] yields and what a field without a checked type may
    hold. A float is kept as its text; a dictionary lists each key once. *)
#[local] Unset Elimination Schemes.
Inductive value : Type :=
| VNone
| VBool (b : bool)
| VInt (z : Z)
| VFloat (text : string)
| VStr (s : string)
| VList (items : list value)
| VDict (entries : list (string * value)).
#[local] Set Elimination Schemes.

(** Truth value of a Python object. *)
Definition truthy_value (v : value) : bool :=
  match v with
  | VNone => false
  | VBool b => b
  | VInt z => negb (z =? 0)%Z
  | VFloat t => negb (String.eqb t "0.0" || String.eqb t "-0.0")
  | VStr s => negb (String.eqb s "")
  | VList l => match l with [] => false | _ => true end
  | VDict l => match l with [] => false | _ => true end
  end.

Definition lookup_key (entries : list (string * value)) (key : string) : option value :=
  option_map snd (find (fun kv => String.eqb (fst kv) key) entries).

(** [d.get(key, fallback)] on a dictionary. *)
Definition dict_get (entries : list (string * value)) (key : string) (fallback : value) : value :=
  default fallback (lookup_key entries key).

(** [d[key]] on a dictionary. *)
Definition dict_item (entries : list (string * value)) (key : string) : Result value :=
  match lookup_key entries key with
  | Some v => Ok v
  | None => Raise (KeyError key)
  end.

Fixpoint chars (s : string) : list value :=
  match s with
  | EmptyString => []
  | String c s' => VStr (String c EmptyString) :: chars s'
  end.

(** [for x in v]: a list yields its items, a dictionary its keys, a string
    its characters; nothing else can be iterated. *)
Definition iterate (v : value) : Result (list value) :=
  match v with
  | VList l => Ok l
  | VDict l => Ok (map (fun kv => VStr (fst kv)) l)
  | VStr s => Ok (chars s)
  | _ => Raise TypeError
  end.

(** [str(v)] as an f-string renders it: exact on strings and on scalars;
    the [repr] of a list or dictionary is not modelled and shows as its
    brackets. *)
Definition format_value (v : value) : string :=
  match v with
  | VNone => "None"
  | VBool b => if b then "True" else "False"
  | VInt z => str_Z z
  | VFloat t => t
  | VStr s => s
  | VList _ => "[...]"
  | VDict _ => "{...}"
  end.

(** *** Timestamps

    A [datetime] is carried as the ISO-8601 text [isoformat] gives for it. *)
Record datetime : Type := { isoformat : string }.

(** What [datetime.fromisoformat] answers on a text: the datetime the text
    denotes, or the message of the [ValueError] it raises. *)
Inductive IsoAnswer : Type :=
| Parsed (d : datetime)
| Refused (message : string).

(** The parser belongs to Python's standard library, not to the repository:
    which texts it accepts depends on the Python version. The development
    is parametric in it. *)
Class IsoParser : Type := parse_iso : string -> IsoAnswer.

(** [datetime.fromisoformat(v)]: anything but a string is a [TypeError]. *)
Definition fromisoformat `{IsoParser} (v : value) : Result datetime :=
  match v with
  | VStr s =>
      match parse_iso s with
      | Parsed d => Ok d
      | Refused message => Raise (ValueError message)
      end
  | _ => Raise TypeError
  end.

(** A timestamp that is read back from its own text, as Python promises for
    [fromisoformat(d.isoformat())]. *)
Definition read_back `{IsoParser} (t : datetime) : Prop :=
  parse_iso (isoformat t) = Parsed t.

(** *** The parser of the examples

    The examples of this development use four timestamps. On them the
    parser below answers what [datetime.fromisoformat] answers; every other
    text it refuses, the way Python refuses the text [yesterday]. It stands
    in for the library in the examples only: the theorems are proved for
    every parser. *)
Definition example_stamps : list string :=
  ["2024-05-01T10:00:00"; "2024-05-01T10:05:00"; "2024-05-01T11:00:00";
   "2024-05-01T12:00:00"].

Definition example_parser : IsoParser :=
  fun s =>
    if existsb (String.eqb s) example_stamps then Parsed {| isoformat := s |}
    else Refused ("Invalid isoformat string: '" +:+ s +:+ "'").

(** [str.title] on ASCII text: the first letter of every run of letters in
    upper case, the others in lower case. [previous_is_cased] says whether
    the character before was a letter. *)
Fixpoint title_from (previous_is_cased : bool) (s : string) : string :=
  match s with
  | EmptyString => EmptyString
  | String c s' =>
      if is_lower c then
        String (if previous_is_cased then c else upper_char c) (title_from true s')
      else if is_upper c then
        String (if previous_is_cased then lower_char c else c) (title_from true s')
      else String c (title_from false s')
  end.

Definition title_case (s : string) : string := title_from false s.

(** [s.count(LF)]. *)
Fixpoint count_LF (s : string) : nat :=
  match s with
  | EmptyString => 0
  | String c s' => ((if Ascii.eqb c "010"%char then 1 else 0) + count_LF s')%nat
  end.

End Py.

Import Py.

(** ** spec/complexity.py *)

Module Complexity.

Inductive ComplexityLevel : Type := SIMPLE | STANDARD | COMPLEX | CRITICAL.

Definition level_value (c : ComplexityLevel) : string :=
  match c with
  | SIMPLE => "simple"
  | STANDARD => "standard"
  | COMPLEX => "complex"
  | CRITICAL => "critical"
  end.

Definition SIMPLE_KEYWORDS : list string :=
  ["fix"; "typo"; "update"; "change"; "rename"; "remove"; "delete";
   "adjust"; "tweak"; "correct"; "modify"; "style"; "color"; "text";
   "label"; "button"; "margin"; "padding"; "font"; "size"; "hide"; "show";
   "comment"; "readme"; "docs"; "documentation"].

Definition STANDARD_KEYWORDS : list string :=
  ["add"; "create"; "implement"; "feature"; "component"; "page"; "form";
   "validation"; "handler"; "endpoint"; "route"; "service"; "helper";
   "utility"; "hook"; "context"; "state"; "store"].

Definition COMPLEX_KEYWORDS : list string :=
  ["integrate"; "integration"; "api"; "sdk"; "library"; "package";
   "database"; "migrate"; "migration"; "docker"; "kubernetes"; "deploy";
   "authentication"; "oauth"; "graphql"; "websocket"; "queue"; "cache";
   "redis"; "postgres"; "mongo"; "elasticsearch"; "kafka"; "rabbitmq";
   "microservice"; "refactor"; "architecture"; "infrastructure";
   "performance"; "optimization"; "security"; "encryption"].

Definition CRITICAL_KEYWORDS : list string :=
  ["breaking"; "major"; "migration"; "schema"; "rollback"; "downtime";
   "production"; "critical"; "urgent"; "emergency"; "security"; "vulnerability";
   "data loss"; "corruption"; "recovery"].

Definition MULTI_SERVICE_KEYWORDS : list string :=
  ["backend"; "frontend"; "worker"; "service"; "api"; "client"; "server";
   "database"; "queue"; "cache"; "proxy"; "gateway"; "microservice"].

(** The part of [Requirements] that [analyze] reads. *)
Record Requirements : Type := {
  services_involved : list string;
  acceptance_criteria : list string;
}.

(** The part of [ProjectIndex] that [_estimate_services] reads; [services]
    holds the keys of the services dictionary. *)
Record ProjectIndex : Type := {
  project_type : string;
  services : list string;
}.

(** A signal is an integer count or a flag. *)
Inductive Signal : Type :=
| SigInt (n : nat)
| SigBool (b : bool).

(** Floats that the analyzer only ever writes as literals are kept as
    hundredths: 0.85 is [85]. *)
Record ComplexityAssessment : Type := {
  complexity : ComplexityLevel;
  confidence : nat;
  signals : list (string * Signal);
  reasoning : string;
  estimated_files : nat;
  estimated_services : nat;
  external_integrations : list string;
  infrastructure_changes : bool;
  needs_research : bool;
  needs_self_critique : bool;
  needs_impact_analysis : bool;
}.

Definition integration_patterns : list (list string * string) :=
  [ (["graphiti"; "graphql"; "apollo"], "graphql");
    (["stripe"; "paypal"; "payment"], "payment");
    (["auth0"; "okta"; "oauth"; "jwt"], "auth");
    (["aws"; "gcp"; "azure"; "s3"; "lambda"], "cloud");
    (["redis"; "memcached"], "cache");
    (["postgres"; "mysql"; "mongodb"; "database"], "database");
    (["elasticsearch"; "algolia"], "search");
    (["kafka"; "rabbitmq"; "sqs"], "queue");
    (["docker"; "kubernetes"; "k8s"], "container");
    (["openai"; "anthropic"; "claude"; "llm"; "ai"], "ai");
    (["sendgrid"; "twilio"], "messaging");
    (["github"; "gitlab"; "bitbucket"], "vcs") ].

(** [_detect_integrations]. The source collects the categories in a set and
    returns [list(found)]; every category belongs to one pattern, so the set
    has no duplicates to drop, and the model lists it in pattern order. *)
Definition _detect_integrations (task_lower : string) : list string :=
  map snd
    (List.filter (fun pc => bounded_search_any (fst pc) task_lower)
       integration_patterns).

Definition infra_patterns : list string :=
  ["docker"; "kubernetes"; "k8s"; "deploy"; "infrastructure"; "ci/cd";
   "environment"; "config"; ".env"; "database migration"; "schema";
   "terraform"; "ansible"; "helm"].

Definition _detect_infrastructure_changes (task_lower : string) : bool :=
  existsb (fun lit => bounded_search lit task_lower) infra_patterns.

(** The alternatives of [\.(tsx?|jsx?|py|go|rs|java|rb|php|vue|svelte)\b],
    the greedy optional letter first. *)
Definition file_extensions : list string :=
  ["tsx"; "ts"; "jsx"; "js"; "py"; "go"; "rs"; "java"; "rb"; "php"; "vue";
   "svelte"].

Definition extension_at (rest : string) : bool :=
  existsb
    (fun e => String.prefix e rest
              && negb (word_opt (first_char (drop_chars (String.length e) rest))))
    file_extensions.

(** [len(re.findall(...))]: a match starts at a dot and holds no other dot,
    so matches never overlap and every matching dot counts. *)
Fixpoint file_mentions (s : string) : nat :=
  match s with
  | EmptyString => 0
  | String c rest =>
      ((if Ascii.eqb c "."%char && extension_at rest then 1 else 0)
       + file_mentions rest)%nat
  end.

Definition _estimate_files (task_lower : string) (requirements : option Requirements) : nat :=
  if any_in ["single"; "one file"; "one component"; "this file"] task_lower then 1
  else
    let mentions := file_mentions task_lower in
    if (0 <? mentions)%nat then Nat.max 1 mentions
    else if any_in SIMPLE_KEYWORDS task_lower then 2
    else if any_in STANDARD_KEYWORDS task_lower then 5
    else if any_in COMPLEX_KEYWORDS task_lower then 15
    else if any_in CRITICAL_KEYWORDS task_lower then 25
    else 5.

Definition _estimate_services (project_index : option ProjectIndex)
    (task_lower : string) (requirements : option Requirements) : nat :=
  let service_count := count_in MULTI_SERVICE_KEYWORDS task_lower in
  let fallback := Nat.max 1 (Nat.min service_count 5) in
  match project_index with
  | Some idx =>
      if String.eqb (project_type idx) "monorepo" then
        match services idx with
        | [] => fallback
        | svcs =>
            let mentioned :=
              length (List.filter (fun svc => contains (lower svc) task_lower) svcs) in
            if (0 <? mentioned)%nat then mentioned else fallback
        end
      else fallback
  | None => fallback
  end.

Definition research_triggers : list string :=
  ["investigate"; "research"; "explore"; "analyze"; "understand";
   "figure out"; "find out"; "determine"; "evaluate"; "compare";
   "best practice"; "how to"; "should we"; "recommendation"].

Definition _needs_research (task_lower : string) (integrations : list string) : bool :=
  if any_in research_triggers task_lower then true
  else if (0 <? length integrations)%nat then true
  else false.

Definition signal_int (sigs : list (string * Signal)) (key : string) : nat :=
  match find (fun kv => String.eqb (fst kv) key) sigs with
  | Some (_, SigInt n) => n
  | Some (_, SigBool b) => if b then 1 else 0
  | None => 0
  end.

Definition _calculate_complexity (sigs : list (string * Signal))
    (integrations : list string) (infra_changes : bool)
    (estimated_files estimated_services critical_matches : nat)
  : ComplexityLevel * nat * string :=
  if (2 <=? critical_matches)%nat
     || (infra_changes && (3 <=? estimated_services)%nat)
     || ((3 <=? length integrations)%nat && (15 <=? estimated_files)%nat)
  then
    let reasons :=
      ["Critical change detected"]
      ++ (if (0 <? critical_matches)%nat
          then [str_nat critical_matches +:+ " critical keyword(s)"] else [])
      ++ (if infra_changes then ["infrastructure changes"] else []) in
    (CRITICAL, 85, join "; " reasons)
  else if (2 <=? length integrations)%nat
          || infra_changes
          || (3 <=? estimated_services)%nat
          || (10 <=? estimated_files)%nat
          || (3 <=? signal_int sigs "complex_keywords")%nat
  then
    let reasons :=
      [str_nat (length integrations) +:+ " integrations, "
       +:+ str_nat estimated_services +:+ " services, "
       +:+ str_nat estimated_files +:+ " files"]
      ++ (if infra_changes then ["infrastructure changes detected"] else []) in
    (COMPLEX, 85, join "; " reasons)
  else if (estimated_files <=? 2)%nat
          && (estimated_services =? 1)%nat
          && (length integrations =? 0)%nat
          && negb infra_changes
          && (0 <? signal_int sigs "simple_keywords")%nat
          && (signal_int sigs "complex_keywords" =? 0)%nat
  then
    (SIMPLE, 90,
     join "; " ["Single service, " +:+ str_nat estimated_files
                +:+ " file(s), no integrations"])
  else
    let reasons :=
      [str_nat estimated_files +:+ " files, " +:+ str_nat estimated_services
       +:+ " service(s)"]
      ++ (if (0 <? length integrations)%nat
          then [str_nat (length integrations) +:+ " integration(s)"] else []) in
    (STANDARD, 75, join "; " reasons).

(** [ComplexityAnalyzer.analyze]; [project_index] is the analyzer's field. *)
Definition analyze (project_index : option ProjectIndex)
    (task_description : string) (requirements : option Requirements)
  : ComplexityAssessment :=
  let task_lower := lower task_description in
  let simple_matches := count_in SIMPLE_KEYWORDS task_lower in
  let standard_matches := count_in STANDARD_KEYWORDS task_lower in
  let complex_matches := count_in COMPLEX_KEYWORDS task_lower in
  let critical_matches := count_in CRITICAL_KEYWORDS task_lower in
  let multi_service_matches := count_in MULTI_SERVICE_KEYWORDS task_lower in
  let integrations := _detect_integrations task_lower in
  let infra_changes := _detect_infrastructure_changes task_lower in
  let estimated_files := _estimate_files task_lower requirements in
  let estimated_services0 := _estimate_services project_index task_lower requirements in
  let sigs0 :=
    [ ("simple_keywords", SigInt simple_matches);
      ("standard_keywords", SigInt standard_matches);
      ("complex_keywords", SigInt complex_matches);
      ("critical_keywords", SigInt critical_matches);
      ("multi_service_keywords", SigInt multi_service_matches);
      ("external_integrations", SigInt (length integrations));
      ("infrastructure_changes", SigBool infra_changes);
      ("estimated_files", SigInt estimated_files);
      ("estimated_services", SigInt estimated_services0) ] in
  (* step 5: the local [complex_matches] is bumped after the signal was
     stored, so the bump never reaches [_calculate_complexity] *)
  let '(sigs, estimated_services) :=
    match requirements with
    | Some req =>
        let n := length (services_involved req) in
        (sigs0 ++ [("explicit_services", SigInt n)]
         ++ (if (5 <? length (acceptance_criteria req))%nat
             then [("acceptance_criteria_count",
                    SigInt (length (acceptance_criteria req)))]
             else []),
         Nat.max estimated_services0 n)
    | None => (sigs0, estimated_services0)
    end in
  let '(level, conf, why) :=
    _calculate_complexity sigs integrations infra_changes estimated_files
      estimated_services critical_matches in
  {| complexity := level;
     confidence := conf;
     signals := sigs;
     reasoning := why;
     estimated_files := estimated_files;
     estimated_services := estimated_services;
     external_integrations := integrations;
     infrastructure_changes := infra_changes;
     needs_research := _needs_research task_lower integrations;
     needs_self_critique :=
       match level with COMPLEX | CRITICAL => true | _ => false end;
     needs_impact_analysis :=
       (5 <? estimated_files)%nat
       || (1 <? estimated_services)%nat
       || (0 <? length integrations)%nat
       || infra_changes |}.

Definition scenario_task : string :=
  "Migrate the Postgres schema and deploy a new Kubernetes service for authentication".

(** The assessment of the scenario task, without requirements and without
    a project index. *)
Definition scenario_assessment : ComplexityAssessment :=
  analyze None scenario_task None.

End Complexity.

(** ** spec/impact.py *)

Module Impact.

Inductive ImpactSeverity : Type := NONE | LOW | MEDIUM | HIGH | CRITICAL.

Record BreakingChange : Type := {
  change_type : string;
  location : string;
  description : string;
  affected_consumers : list string;
  migration_required : bool;
  suggested_fix : option string;
}.

(** [any(bc.migration_required for bc in breaking_changes)]. *)
Definition any_migration (breaking_changes : list BreakingChange) : bool :=
  existsb migration_required breaking_changes.

Definition _assess_rollback_complexity (affected_files : list string)
    (breaking_changes : list BreakingChange) : string :=
  if any_migration breaking_changes then "high"
  else if (20 <? length affected_files)%nat then "high"
  else if (10 <? length affected_files)%nat then "medium"
  else if (3 <? length breaking_changes)%nat then "medium"
  else "low".

Definition files_score (affected_files : list string) : nat :=
  if (30 <? length affected_files)%nat then 4
  else if (15 <? length affected_files)%nat then 3
  else if (5 <? length affected_files)%nat then 2
  else if (0 <? length affected_files)%nat then 1
  else 0.

Definition services_score (affected_services : list string) : nat :=
  if (3 <? length affected_services)%nat then 3
  else if (1 <? length affected_services)%nat then 2
  else if (length affected_services =? 1)%nat then 1
  else 0.

Definition breaking_score (breaking_changes : list BreakingChange) : nat :=
  if any_migration breaking_changes then 4
  else if (5 <? length breaking_changes)%nat then 3
  else if (2 <? length breaking_changes)%nat then 2
  else if (0 <? length breaking_changes)%nat then 1
  else 0.

Definition gaps_score (test_gaps : list string) : nat :=
  if (5 <? length test_gaps)%nat then 2
  else if (2 <? length test_gaps)%nat then 1
  else 0.

Definition rollback_score (rollback_complexity : string) : nat :=
  if String.eqb rollback_complexity "high" then 2
  else if String.eqb rollback_complexity "medium" then 1
  else 0.

(** The local variable [score] of [_calculate_severity] when the mapping to
    a level starts. *)
Definition severity_score (affected_files affected_services : list string)
    (breaking_changes : list BreakingChange) (test_gaps : list string)
    (rollback_complexity : string) : nat :=
  files_score affected_files
  + services_score affected_services
  + breaking_score breaking_changes
  + gaps_score test_gaps
  + rollback_score rollback_complexity.

Definition severity_of_score (score : nat) : ImpactSeverity :=
  if (10 <=? score)%nat then CRITICAL
  else if (7 <=? score)%nat then HIGH
  else if (4 <=? score)%nat then MEDIUM
  else if (1 <=? score)%nat then LOW
  else NONE.

(** [_calculate_severity]; the confidence 0.7 is kept as [70]. *)
Definition _calculate_severity (affected_files affected_services : list string)
    (breaking_changes : list BreakingChange) (test_gaps : list string)
    (rollback_complexity : string) : ImpactSeverity * nat :=
  (severity_of_score
     (severity_score affected_files affected_services breaking_changes
        test_gaps rollback_complexity),
   70).

(** Steps 6 and 7 of [ImpactAnalyzer.analyze]: the rollback complexity is
    computed from the same lists and passed on. *)
Definition analyze_severity (affected_files affected_services : list string)
    (breaking_changes : list BreakingChange) (test_gaps : list string)
  : ImpactSeverity * nat :=
  _calculate_severity affected_files affected_services breaking_changes
    test_gaps (_assess_rollback_complexity affected_files breaking_changes).

(** The order none < low < medium < high < critical. *)
Definition rank (s : ImpactSeverity) : nat :=
  match s with
  | NONE => 0
  | LOW => 1
  | MEDIUM => 2
  | HIGH => 3
  | CRITICAL => 4
  end.

End Impact.

(** ** qa/criteria.py *)

Module Criteria.

Inductive QAStatus : Type := PENDING | APPROVED | REJECTED | FIXES_APPLIED | ERROR.

Definition status_value (s : QAStatus) : string :=
  match s with
  | PENDING => "pending"
  | APPROVED => "approved"
  | REJECTED => "rejected"
  | FIXES_APPLIED => "fixes_applied"
  | ERROR => "error"
  end.

(** [QAStatus(text)], [None] standing for the [ValueError]. *)
Definition status_of_value (text : string) : option QAStatus :=
  find (fun s => String.eqb (status_value s) text)
    [PENDING; APPROVED; REJECTED; FIXES_APPLIED; ERROR].

Inductive IssueSeverity : Type := CRITICAL | HIGH | MEDIUM | LOW | INFO.

Definition severity_value (s : IssueSeverity) : string :=
  match s with
  | CRITICAL => "critical"
  | HIGH => "high"
  | MEDIUM => "medium"
  | LOW => "low"
  | INFO => "info"
  end.

Definition severity_of_value (text : string) : option IssueSeverity :=
  find (fun s => String.eqb (severity_value s) text)
    [CRITICAL; HIGH; MEDIUM; LOW; INFO].

Definition severity_eqb (a b : IssueSeverity) : bool :=
  String.eqb (severity_value a) (severity_value b).

Record QAIssue : Type := {
  title : string;
  severity : IssueSeverity;
  description : string;
  location : option string;
  fix_required : option string;
  category : string;
}.

Record TestResults : Type := {
  unit_passed : Z;
  unit_total : Z;
  integration_passed : Z;
  integration_total : Z;
  e2e_passed : Z;
  e2e_total : Z;
}.

Definition no_tests : TestResults :=
  {| unit_passed := 0; unit_total := 0;
     integration_passed := 0; integration_total := 0;
     e2e_passed := 0; e2e_total := 0 |}.

Definition all_passed (t : TestResults) : bool :=
  let unit_ok := (unit_passed t =? unit_total t)%Z in
  let integration_ok := (integration_passed t =? integration_total t)%Z in
  let e2e_ok := (e2e_passed t =? e2e_total t)%Z in
  unit_ok && integration_ok && e2e_ok.

Record QASignoff : Type := {
  status : QAStatus;
  timestamp : datetime;
  qa_session : Z;
  issues_found : list QAIssue;
  test_results : option TestResults;
  verified_by : string;
  ready_for_revalidation : bool;
}.

(** *** The stored form

    [implementation_plan.json] holds the sign-off as a dictionary under the
    key [qa_signoff]. The model keeps the dictionaries that a conforming
    writer produces: every key is optional, and a present key has a value of
    the type [to_dict] writes. *)

Record IssueDict : Type := {
  d_title : option string;
  d_severity : option string;
  d_description : option string;
  d_location : option string;
  d_fix_required : option string;
  d_category : option string;
}.

(** The three [passed/total] entries of [tests_passed]. *)
Record TestsDict : Type := {
  d_unit : option (Z * Z);
  d_integration : option (Z * Z);
  d_e2e : option (Z * Z);
}.

Record SignoffDict : Type := {
  d_status : option string;
  d_timestamp : option string;
  d_qa_session : option Z;
  d_verified_by : option string;
  d_issues_found : option (list IssueDict);
  d_tests_passed : option TestsDict;
  d_ready_for_qa_revalidation : option bool;
}.

Definition issue_to_dict (i : QAIssue) : IssueDict :=
  {| d_title := Some (title i);
     d_severity := Some (severity_value (severity i));
     d_description := Some (description i);
     d_location := location i;
     d_fix_required := fix_required i;
     d_category := Some (category i) |}.

Definition issue_from_dict (d : IssueDict) : QAIssue :=
  {| title := default "Unknown issue" (d_title d);
     severity :=
       default MEDIUM (severity_of_value (default "medium" (d_severity d)));
     description := default "" (d_description d);
     location := d_location d;
     fix_required := d_fix_required d;
     category := default "general" (d_category d) |}.

Definition tests_to_dict (t : TestResults) : TestsDict :=
  {| d_unit := Some (unit_passed t, unit_total t);
     d_integration := Some (integration_passed t, integration_total t);
     d_e2e := Some (e2e_passed t, e2e_total t) |}.

Definition to_dict (s : QASignoff) : SignoffDict :=
  {| d_status := Some (status_value (status s));
     d_timestamp := Some (isoformat (timestamp s));
     d_qa_session := Some (qa_session s);
     d_verified_by := Some (verified_by s);
     d_issues_found :=
       match issues_found s with
       | [] => None
       | l => Some (map issue_to_dict l)
       end;
     d_tests_passed := option_map tests_to_dict (test_results s);
     d_ready_for_qa_revalidation :=
       if ready_for_revalidation s then Some true else None |}.

(** An empty dictionary is falsy. *)
Definition tests_dict_empty (t : TestsDict) : bool :=
  match d_unit t, d_integration t, d_e2e t with
  | None, None, None => true
  | _, _, _ => false
  end.

Definition tests_from_dict (t : TestsDict) : TestResults :=
  let pick (o : option (Z * Z)) : Z * Z := default (0, 0)%Z o in
  {| unit_passed := fst (pick (d_unit t));
     unit_total := snd (pick (d_unit t));
     integration_passed := fst (pick (d_integration t));
     integration_total := snd (pick (d_integration t));
     e2e_passed := fst (pick (d_e2e t));
     e2e_total := snd (pick (d_e2e t)) |}.

(** [QASignoff.from_dict]; [now] is the clock reading, used when the stored
    timestamp is missing, empty or unparseable. *)
Definition from_dict `{IsoParser} (now : datetime) (d : SignoffDict) : QASignoff :=
  {| status :=
       default PENDING (status_of_value (default "pending" (d_status d)));
     timestamp :=
       match d_timestamp d with
       | Some t =>
           if String.eqb t "" then now
           else
             match fromisoformat (VStr t) with
             | Ok parsed => parsed
             | Raise _ => now
             end
       | None => now
       end;
     qa_session := default 1%Z (d_qa_session d);
     issues_found := map issue_from_dict (default [] (d_issues_found d));
     test_results :=
       match d_tests_passed d with
       | Some t => if tests_dict_empty t then None else Some (tests_from_dict t)
       | None => None
       end;
     verified_by := default "qa_agent" (d_verified_by d);
     ready_for_revalidation := default false (d_ready_for_qa_revalidation d) |}.

Definition signoff_dict_empty (d : SignoffDict) : bool :=
  match d_status d, d_timestamp d, d_qa_session d, d_verified_by d,
        d_issues_found d, d_tests_passed d, d_ready_for_qa_revalidation d with
  | None, None, None, None, None, None, None => true
  | _, _, _, _, _, _, _ => false
  end.

(** The implementation plan: the sign-off and the plan's other keys, which
    the QA code carries along untouched. *)
Record Plan : Type := {
  other_keys : list (string * string);
  qa_signoff : option SignoffDict;
}.

(** The spec directory as the QA code sees it. [plan_file = None] stands for
    a missing or unparseable [implementation_plan.json] (the loader answers
    [None] to both); [fix_request] is [QA_FIX_REQUEST.md]. Writes are taken
    to succeed. *)
Record SpecDir : Type := {
  plan_file : option Plan;
  fix_request : option string;
}.

Definition load_implementation_plan (spec_dir : SpecDir) : option Plan :=
  plan_file spec_dir.

Definition save_implementation_plan (spec_dir : SpecDir) (plan : Plan) : SpecDir :=
  {| plan_file := Some plan; fix_request := fix_request spec_dir |}.

Definition plan_empty (p : Plan) : bool :=
  match other_keys p, qa_signoff p with
  | [], None => true
  | _, _ => false
  end.

Definition get_qa_signoff_status `{IsoParser} (now : datetime) (spec_dir : SpecDir)
  : option QASignoff :=
  match load_implementation_plan spec_dir with
  | None => None
  | Some plan =>
      if plan_empty plan then None
      else
        match qa_signoff plan with
        | None => None
        | Some d =>
            if signoff_dict_empty d then None
            else Some (from_dict now d)
        end
  end.

Definition save_qa_signoff_status (spec_dir : SpecDir) (signoff : QASignoff) : SpecDir :=
  let plan :=
    match load_implementation_plan spec_dir with
    | Some p => p
    | None => {| other_keys := []; qa_signoff := None |}
    end in
  save_implementation_plan spec_dir
    {| other_keys := other_keys plan; qa_signoff := Some (to_dict signoff) |}.

Definition status_eqb (a b : QAStatus) : bool :=
  String.eqb (status_value a) (status_value b).

Definition is_qa_approved `{IsoParser} (now : datetime) (spec_dir : SpecDir) : bool :=
  match get_qa_signoff_status now spec_dir with
  | None => false
  | Some signoff => status_eqb (status signoff) APPROVED
  end.

Definition is_qa_rejected `{IsoParser} (now : datetime) (spec_dir : SpecDir) : bool :=
  match get_qa_signoff_status now spec_dir with
  | None => false
  | Some signoff => status_eqb (status signoff) REJECTED
  end.

Definition is_fixes_applied `{IsoParser} (now : datetime) (spec_dir : SpecDir) : bool :=
  match get_qa_signoff_status now spec_dir with
  | None => false
  | Some signoff =>
      status_eqb (status signoff) FIXES_APPLIED && ready_for_revalidation signoff
  end.

Definition get_qa_iteration_count `{IsoParser} (now : datetime) (spec_dir : SpecDir)
  : Z :=
  match get_qa_signoff_status now spec_dir with
  | None => 0%Z
  | Some signoff => qa_session signoff
  end.

(** [should_run_qa]; the flag [check_build_complete] is not read. *)
Definition should_run_qa `{IsoParser} (now : datetime) (spec_dir : SpecDir)
    (check_build_complete : bool) : bool :=
  if is_qa_approved now spec_dir then false else true.

Definition should_run_fixes `{IsoParser} (now : datetime) (spec_dir : SpecDir)
    (max_iterations : Z) : bool :=
  if negb (is_qa_rejected now spec_dir) then false
  else
    let iterations := get_qa_iteration_count now spec_dir in
    if (max_iterations <=? iterations)%Z then false else true.

Definition get_critical_issues (signoff : QASignoff) : list QAIssue :=
  List.filter (fun i => severity_eqb (severity i) CRITICAL) (issues_found signoff).

Definition has_blocking_issues (signoff : QASignoff) : bool :=
  let blocking :=
    List.filter
      (fun i => severity_eqb (severity i) CRITICAL || severity_eqb (severity i) HIGH)
      (issues_found signoff) in
  (0 <? length blocking)%nat.

End Criteria.

(** ** qa/reviewer.py *)

Module Reviewer.

Import Criteria.

Record ReviewResult : Type := {
  passed : bool;
  issues : list QAIssue;
  warnings : list string;
  breaking_changes_detected : list string;
}.

Definition breaking_issue (bc : string) : QAIssue :=
  {| title := "Breaking Change Detected";
     severity := HIGH;
     description := bc;
     location := None;
     fix_required := None;
     category := "breaking_change" |}.

Definition truthy_list {A : Type} (l : option (list A)) : bool :=
  match l with
  | Some (_ :: _) => true
  | _ => false
  end.

Definition truthy_str (s : option string) : bool :=
  match s with
  | Some s => negb (String.eqb s "")
  | None => false
  end.

(** [CodeReviewer.review]. What the collaborators hand back is an input: the
    issues of the per-file checks ([file_issues]), of [check_spec_alignment]
    ([alignment_issues]) and the descriptions from [check_breaking_changes]
    ([breaking_changes]). *)
Definition review (file_issues alignment_issues : list QAIssue)
    (breaking_changes : list string)
    (changed_files : option (list string)) (spec_content : option string)
    (task_description : string) : ReviewResult :=
  let issues1 := file_issues in
  let issues2 :=
    if truthy_str spec_content && truthy_list changed_files
    then issues1 ++ alignment_issues else issues1 in
  let godmode := truthy_list changed_files && negb (String.eqb task_description "") in
  let issues3 :=
    if godmode then issues2 ++ map breaking_issue breaking_changes else issues2 in
  let critical_issues :=
    List.filter (fun i => severity_eqb (severity i) CRITICAL) issues3 in
  let high_issues :=
    List.filter (fun i => severity_eqb (severity i) HIGH) issues3 in
  let passed :=
    match critical_issues with
    | _ :: _ => false
    | [] => if (3 <=? length high_issues)%nat then false else true
    end in
  {| passed := passed;
     issues := issues3;
     warnings := [];
     breaking_changes_detected := if godmode then breaking_changes else [] |}.

(** The part of a [ReviewCheck] that goes into an issue; [check_category]
    is the value of the category. *)
Record ReviewCheck : Type := {
  check_name : string;
  check_category : string;
  check_description : string;
  check_severity : IssueSeverity;
}.

(** The names, categories, descriptions and severities of [DEFAULT_CHECKS]. *)
Definition DEFAULT_CHECKS : list ReviewCheck :=
  [ {| check_name := "hardcoded_secrets"; check_category := "security";
       check_description := "Check for hardcoded secrets or API keys";
       check_severity := CRITICAL |};
    {| check_name := "sql_injection"; check_category := "security";
       check_description := "Check for potential SQL injection";
       check_severity := CRITICAL |};
    {| check_name := "eval_usage"; check_category := "security";
       check_description := "Check for dangerous eval() usage";
       check_severity := HIGH |};
    {| check_name := "todo_comments"; check_category := "style";
       check_description := "Check for TODO comments that should be resolved";
       check_severity := LOW |};
    {| check_name := "debug_statements"; check_category := "style";
       check_description := "Check for debug statements left in code";
       check_severity := LOW |};
    {| check_name := "empty_except"; check_category := "correctness";
       check_description := "Check for empty except blocks";
       check_severity := MEDIUM |};
    {| check_name := "unused_imports"; check_category := "style";
       check_description := "Check for potentially unused imports";
       check_severity := LOW |};
    {| check_name := "any_type"; check_category := "correctness";
       check_description := "Check for excessive 'any' type usage";
       check_severity := MEDIUM |};
    {| check_name := "console_error"; check_category := "correctness";
       check_description := "Check for console.error without proper handling";
       check_severity := LOW |} ].

(** [content[:start].count(LF) + 1], the line number [_run_check] gives a
    match that starts at offset [start]. *)
Definition line_of (content : string) (start : nat) : nat :=
  count_LF (String.substring 0 start content) + 1.

(** The issue [_run_check] appends for a match of the check's pattern:
    [line_num] is the line of the match and [matched] its text. *)
Definition match_issue (check : ReviewCheck) (file_path : string) (line_num : nat)
    (matched : string) : QAIssue :=
  {| title := title_case (replace "_" " " (check_name check));
     severity := check_severity check;
     description := check_description check;
     location := Some (file_path +:+ ":" +:+ str_nat line_num);
     fix_required :=
       Some ("Review and fix: " +:+ String.substring 0 50 matched +:+ "...");
     category := check_category check |}.

(** *** TestRunner *)

(** What [path.read_text()] gives for a file that exists. *)
Inductive FileRead : Type :=
| Holds (content : string)
| Unreadable (e : Exn).

(** How a [subprocess.run] call with a timeout ends: the process ran to its
    end and left its two streams, the timeout expired, or the call raised
    another exception (the executable is missing, say). *)
Inductive Subprocess : Type :=
| Completed (stdout stderr : string)
| TimeoutExpired
| Crashed.

(** The repository as [TestRunner] meets it: whether [pytest.ini] exists,
    [pyproject.toml] and [package.json] ([None] when the file does not
    exist), whether the glob for Go test files finds any, and what running
    a command in the repository root comes to. *)
Record TestEnvironment : Type := {
  pytest_ini : bool;
  pyproject_toml : option FileRead;
  package_json : option FileRead;
  go_test_files : bool;
  run : list string -> Subprocess;
}.

(** [TestRunner._detect_test_framework]. The two [read_text] calls are not
    guarded, so what they raise comes out of the method. *)
Definition _detect_test_framework (env : TestEnvironment) : Result (option string) :=
  if pytest_ini env then Ok (Some "pytest")
  else
    let! in_pyproject :=
      match pyproject_toml env with
      | Some (Holds content) => Ok (contains "pytest" content)
      | Some (Unreadable e) => Raise e
      | None => Ok false
      end in
    if in_pyproject then Ok (Some "pytest")
    else
      let! in_package :=
        match package_json env with
        | Some (Holds content) =>
            Ok (if contains "jest" content then Some "jest"
                else if contains "vitest" content then Some "vitest"
                else if contains "mocha" content then Some "mocha"
                else None)
        | Some (Unreadable e) => Raise e
        | None => Ok None
        end in
      match in_package with
      | Some framework => Ok (Some framework)
      | None => if go_test_files env then Ok (Some "go") else Ok None
      end.

(** [\s] of the [re] module on characters below U+0100. *)
Definition is_whitespace (c : ascii) : bool :=
  is_space c || existsb (Ascii.eqb c) ["133"%char; "160"%char].

Fixpoint skip_whitespace (s : string) : string :=
  match s with
  | EmptyString => EmptyString
  | String c s' => if is_whitespace c then skip_whitespace s' else s
  end.

(** A match of the literal [lit] at the head of [s]: what follows it. *)
Definition after_text (lit s : string) : option string :=
  if String.prefix lit s then Some (drop_chars (String.length lit) s) else None.

(** A match of [\s+] at the head of [s]: what follows it. No shorter run of
    whitespace can be the match where a character that is no whitespace has
    to follow, as it does in the patterns below. *)
Definition after_whitespace (s : string) : option string :=
  match s with
  | String c s' => if is_whitespace c then Some (skip_whitespace s') else None
  | EmptyString => None
  end.

(** A match of [(\d+)] followed by [tail] at the head of [s]: the text of
    the group. The group is the whole run of digits, since [tail] begins
    with a character that is no digit. *)
Definition counted_at (tail s : string) : option string :=
  let '(digits, rest) := digit_run s in
  if negb (String.eqb digits "") && String.prefix tail rest
  then Some digits else None.

(** [re.search] for [(\d+)] followed by [tail]: the leftmost match. *)
Fixpoint search_counted (tail s : string) : option string :=
  match counted_at tail s with
  | Some n => Some n
  | None =>
      match s with
      | EmptyString => None
      | String _ s' => search_counted tail s'
      end
  end.

(** A match of [(\d+)\s+] followed by the literal [word] at the head of
    [s]: the text of the group and what follows the match. *)
Definition number_then (word s : string) : option (string * string) :=
  let '(digits, rest) := digit_run s in
  if String.eqb digits "" then None
  else
    match after_whitespace rest with
    | Some rest' =>
        option_map (fun r => (digits, r)) (after_text word rest')
    | None => None
    end.

(** A match of [.*?(\d+)\s+total] at the head of [s]: the text of the
    group. The gap is the shortest there is, and holds no line feed. *)
Fixpoint total_after_gap (s : string) : option string :=
  match number_then "total" s with
  | Some (n, _) => Some n
  | None =>
      match s with
      | EmptyString => None
      | String c s' =>
          if Ascii.eqb c "010"%char then None else total_after_gap s'
      end
  end.

(** A match of [Tests:\s+(\d+)\s+passed.*?(\d+)\s+total] at the head of
    [s]: the texts of the two groups. *)
Definition tests_line_at (s : string) : option (string * string) :=
  match after_text "Tests:" s with
  | Some r1 =>
      match after_whitespace r1 with
      | Some r2 =>
          match number_then "passed" r2 with
          | Some (passed, r3) =>
              option_map (fun total => (passed, total)) (total_after_gap r3)
          | None => None
          end
      | None => None
      end
  | None => None
  end.

(** [re.search] for the pattern of the Jest summary: the leftmost match. *)
Fixpoint search_tests_line (s : string) : option (string * string) :=
  match tests_line_at s with
  | Some groups => Some groups
  | None =>
      match s with
      | EmptyString => None
      | String _ s' => search_tests_line s'
      end
  end.

(** [s.count(lit)] for a non-empty [lit]: the occurrences that do not
    overlap, from the left; [skip] counts the characters of a counted
    occurrence still to be passed over. *)
Fixpoint count_from (skip : nat) (lit s : string) : nat :=
  match s with
  | EmptyString => 0
  | String _ s' =>
      match skip with
      | S k => count_from k lit s'
      | O =>
          if String.prefix lit s
          then S (count_from (String.length lit - 1) lit s')
          else count_from 0 lit s'
      end
  end.

Definition count_text (lit s : string) : nat := count_from 0 lit s.

(** The results with the unit counts set and the other counts at their
    default. *)
Definition unit_results (passed total : nat) : TestResults :=
  {| unit_passed := Z.of_nat passed; unit_total := Z.of_nat total;
     integration_passed := 0; integration_total := 0;
     e2e_passed := 0; e2e_total := 0 |}.

Definition PYTEST_COMMAND : list string :=
  ["python"; "-m"; "pytest"; "--tb=short"; "-q"].
Definition NPM_COMMAND : list string := ["npm"; "test"; "--"; "--passWithNoTests"].
Definition GO_COMMAND : list string := ["go"; "test"; "./..."; "-v"].

(** [int(match.group(1)) if match else 0]. *)
Definition group_or_zero (found : option string) : Result nat :=
  match found with
  | Some digits => int_of_text digits
  | None => Ok 0
  end.

(** [TestRunner.run_tests]. The detection runs before the [try]. A timeout
    and every other exception of the [try] block are logged, and the
    results are returned as they stand by then: the defaults, but for the
    Jest branch, which sets the passed count before it converts the
    total. *)
Definition run_tests (env : TestEnvironment) : Result TestResults :=
  let! framework := _detect_test_framework env in
  match framework with
  | None => Ok no_tests
  | Some framework =>
      if String.eqb framework "pytest" then
        match run env PYTEST_COMMAND with
        | Completed stdout stderr =>
            let output := stdout +:+ stderr in
            let counts :=
              let! passed := group_or_zero (search_counted " passed" output) in
              let! failed := group_or_zero (search_counted " failed" output) in
              Ok (unit_results passed (passed + failed)) in
            match counts with
            | Ok results => Ok results
            | Raise _ => Ok no_tests
            end
        | TimeoutExpired | Crashed => Ok no_tests
        end
      else if String.eqb framework "jest" || String.eqb framework "vitest" then
        match run env NPM_COMMAND with
        | Completed stdout stderr =>
            let output := stdout +:+ stderr in
            match search_tests_line output with
            | Some (passed_text, total_text) =>
                match int_of_text passed_text with
                | Ok passed =>
                    match int_of_text total_text with
                    | Ok total => Ok (unit_results passed total)
                    | Raise _ => Ok (unit_results passed 0)
                    end
                | Raise _ => Ok no_tests
                end
            | None => Ok no_tests
            end
        | TimeoutExpired | Crashed => Ok no_tests
        end
      else if String.eqb framework "go" then
        match run env GO_COMMAND with
        | Completed stdout _ =>
            let passed := count_text "--- PASS:" stdout in
            let failed := count_text "--- FAIL:" stdout in
            Ok (unit_results passed (passed + failed))
        | TimeoutExpired | Crashed => Ok no_tests
        end
      else Ok no_tests
  end.

(** [run_qa_review]. [file_issues] is what the loop of [review] over the
    files comes to: the issues of the per-file checks, or the exception
    that ends the review. [review] and [run_tests] are called inside the
    [try], whose handler answers "error" for every exception. *)
Definition run_qa_review (spec_dir : SpecDir) (now : datetime) (qa_session : Z)
    (file_issues : Result (list QAIssue)) (alignment_issues : list QAIssue)
    (breaking_changes : list string)
    (changed_files : option (list string)) (spec_content : option string)
    (task_description : string) (env : TestEnvironment)
  : string * ReviewResult * SpecDir :=
  let failed (e : Exn) :=
    ("error",
     {| passed := false; issues := []; warnings := [exn_text e];
        breaking_changes_detected := [] |},
     spec_dir) in
  match file_issues with
  | Raise e => failed e
  | Ok scanned =>
      let result :=
        review scanned alignment_issues breaking_changes changed_files
          spec_content task_description in
      match run_tests env with
      | Raise e => failed e
      | Ok test_results =>
          if passed result && all_passed test_results then
            let signoff :=
              {| status := APPROVED; timestamp := now; qa_session := qa_session;
                 issues_found := []; test_results := Some test_results;
                 verified_by := "qa_agent"; ready_for_revalidation := false |} in
            ("approved", result, save_qa_signoff_status spec_dir signoff)
          else
            let signoff :=
              {| status := REJECTED; timestamp := now; qa_session := qa_session;
                 issues_found := issues result; test_results := Some test_results;
                 verified_by := "qa_agent"; ready_for_revalidation := false |} in
            ("rejected", result, save_qa_signoff_status spec_dir signoff)
      end
  end.

(** *** Notions and sample data of the statements *)

(** The status [run_qa_review] hands back. *)
Definition verdict (dir : SpecDir) (now : datetime) (session : Z)
    (file_issues : Result (list QAIssue)) (alignment_issues : list QAIssue)
    (breaking_changes : list string)
    (changed_files : option (list string)) (spec_content : option string)
    (task_description : string) (env : TestEnvironment) : string :=
  fst (fst (run_qa_review dir now session file_issues alignment_issues
              breaking_changes changed_files spec_content task_description env)).

(** The issues a review collects from what its collaborators hand back. *)
Definition found_issues (file_issues alignment_issues : list QAIssue)
    (breaking_changes : list string)
    (changed_files : option (list string)) (spec_content : option string)
    (task_description : string) : list QAIssue :=
  file_issues
  ++ (if truthy_str spec_content && truthy_list changed_files
      then alignment_issues else [])
  ++ (if truthy_list changed_files && negb (String.eqb task_description "")
      then map breaking_issue breaking_changes else []).

(** A spec directory without a plan. *)
Definition new_spec_dir : SpecDir := {| plan_file := None; fix_request := None |}.

(** The issue of the check for hardcoded secrets. *)
Definition leaked_key : QAIssue :=
  {| title := "Hardcoded Secrets";
     severity := CRITICAL;
     description := "Check for hardcoded secrets or API keys";
     location := Some "src/config.py:4";
     fix_required := None;
     category := "security" |}.

(** A JavaScript project tested with Jest, one of whose three tests fails:
    [package.json] names jest, and [npm test] ends with Jest's summary of
    such a run. *)
Definition jest_summary : string :=
  "Tests:       1 failed, 2 passed, 3 total" +:+ LF.

Definition jest_project : TestEnvironment :=
  {| pytest_ini := false;
     pyproject_toml := None;
     package_json :=
       Some (Holds ("{" +:+ dquote +:+ "devDependencies" +:+ dquote +:+ ": {"
                    +:+ dquote +:+ "jest" +:+ dquote +:+ ": "
                    +:+ dquote +:+ "^29.0.0" +:+ dquote +:+ "}}"));
     go_test_files := false;
     run := fun _ => Completed "" jest_summary |}.

(** A Python project whose test run does not end within the timeout. *)
Definition slow_project : TestEnvironment :=
  {| pytest_ini := true;
     pyproject_toml := None;
     package_json := None;
     go_test_files := false;
     run := fun _ => TimeoutExpired |}.

(** A Python project tested with pytest: [passed] tests pass and [failed]
    fail, and pytest's last line says so. *)
Definition pytest_project (passed failed : nat) : TestEnvironment :=
  {| pytest_ini := true;
     pyproject_toml := None;
     package_json := None;
     go_test_files := false;
     run := fun _ =>
       Completed (str_nat failed +:+ " failed, " +:+ str_nat passed
                  +:+ " passed in 0.12s" +:+ LF) "" |}.

Definition count_severity (sev : IssueSeverity) (l : list QAIssue) : nat :=
  length (List.filter (fun i => severity_eqb (severity i) sev) l).

End Reviewer.

(** ** qa/loop.py *)

Module Loop.

Definition MAX_QA_ITERATIONS : nat := 50.
Definition MAX_CONSECUTIVE_ERRORS : nat := 3.
Definition RECURRING_ISSUE_THRESHOLD : nat := 3.

Inductive QAPhase : Type := REVIEW | TEST | FIX | COMPLETE | FAILED.

(** An issue as the history keeps it: a dictionary with text entries. *)
Definition IssueEntry : Type := list (string * string).

(** [issue.get(key, fallback)]. *)
Definition entry_get (issue : IssueEntry) (key fallback : string) : string :=
  match find (fun kv => String.eqb (fst kv) key) issue with
  | Some (_, v) => v
  | None => fallback
  end.

(** The two timing fields of the dataclass are not read by the functions
    modelled here and are left out. *)
Record IterationRecord : Type := {
  iteration : nat;
  phase : QAPhase;
  status : string;
  issues_found : list IssueEntry;
}.

Record QALoopState : Type := {
  current_iteration : nat;
  current_phase : QAPhase;
  consecutive_errors : nat;
  history : list IterationRecord;
  is_approved : bool;
  total_issues_found : nat;
  total_fixes_applied : nat;
  escalated_to_human : bool;
}.

Definition add_iteration (st : QALoopState) (record : IterationRecord) : QALoopState :=
  {| current_iteration := current_iteration st;
     current_phase := current_phase st;
     consecutive_errors := consecutive_errors st;
     history := history st ++ [record];
     is_approved := is_approved st;
     total_issues_found := total_issues_found st + length (issues_found record);
     total_fixes_applied := total_fixes_applied st;
     escalated_to_human := escalated_to_human st |}.

(** [issue_counts[title] = issue_counts.get(title, 0) + 1] on a dictionary
    that keeps insertion order. *)
Fixpoint bump (title : string) (counts : list (string * nat)) : list (string * nat) :=
  match counts with
  | [] => [(title, 1)]
  | (t, c) :: rest =>
      if String.eqb t title then (t, c + 1) :: rest
      else (t, c) :: bump title rest
  end.

(** [issue.get("title", "Unknown")] for the issues of one record. *)
Definition record_titles (record : IterationRecord) : list string :=
  map (fun issue => entry_get issue "title" "Unknown") (issues_found record).

(** The titles in the order the two nested loops visit them. *)
Definition visited_titles (hist : list IterationRecord) : list string :=
  flat_map record_titles hist.

Definition issue_counts (hist : list IterationRecord) : list (string * nat) :=
  fold_left (fun counts title => bump title counts) (visited_titles hist) [].

(** [sorted(..., key=occurrences, reverse=True)]: descending and stable. *)
Fixpoint insert_desc (x : string * nat) (l : list (string * nat)) : list (string * nat) :=
  match l with
  | [] => [x]
  | y :: rest =>
      if (snd x <? snd y)%nat then y :: insert_desc x rest
      else x :: y :: rest
  end.

Definition sort_desc (l : list (string * nat)) : list (string * nat) :=
  fold_right insert_desc [] l.

(** [QALoopState.get_recurring_issues]: pairs (title, occurrences). *)
Definition get_recurring_issues (st : QALoopState) : list (string * nat) :=
  sort_desc
    (List.filter (fun tc => (RECURRING_ISSUE_THRESHOLD <=? snd tc)%nat)
       (issue_counts (history st))).

(** [QALoop._should_escalate]. *)
Definition _should_escalate (st : QALoopState) (max_consecutive_errors : nat) : bool :=
  match get_recurring_issues st with
  | _ :: _ => true
  | [] => (max_consecutive_errors <=? consecutive_errors st)%nat
  end.

(** *** Notions and sample data of the statements *)

(** How often a title was visited over the whole history, repeats inside a
    record included. *)
Definition occurrences (title : string) (hist : list IterationRecord) : nat :=
  count_occ string_dec (visited_titles hist) title.

(** In how many iteration records a title appears. *)
Definition records_with (title : string) (hist : list IterationRecord) : nat :=
  length (List.filter (fun r => existsb (String.eqb title) (record_titles r)) hist).

Fixpoint distinct (l : list string) : bool :=
  match l with
  | [] => true
  | x :: rest => negb (existsb (String.eqb x) rest) && distinct rest
  end.

(** No record lists a title twice. *)
Definition no_repeats (hist : list IterationRecord) : bool :=
  forallb (fun r => distinct (record_titles r)) hist.

(** The count the dictionary holds for a title. *)
Definition count_of (title : string) (counts : list (string * nat)) : nat :=
  match find (fun tc => String.eqb (fst tc) title) counts with
  | Some (_, c) => c
  | None => 0
  end.

(** [QALoopState()], the state a loop starts from. *)
Definition initial_state : QALoopState :=
  {| current_iteration := 0;
     current_phase := REVIEW;
     consecutive_errors := 0;
     history := [];
     is_approved := false;
     total_issues_found := 0;
     total_fixes_applied := 0;
     escalated_to_human := false |}.

(** The state after the records were added one by one. *)
Definition recorded (records : list IterationRecord) : QALoopState :=
  fold_left add_iteration records initial_state.

(** The counts of a dictionary, added up. *)
Definition total_count (counts : list (string * nat)) : nat :=
  fold_right (fun tc sum => snd tc + sum) 0 counts.

(** Every entry counts at least as much as the entries after it. *)
Fixpoint descending (l : list (string * nat)) : bool :=
  match l with
  | [] => true
  | x :: rest => forallb (fun y => (snd y <=? snd x)%nat) rest && descending rest
  end.

(** The history in which the title "Same Issue" is found twice by the
    first review and once by the second. *)
Definition twice_then_once : QALoopState :=
  {| current_iteration := 2;
     current_phase := REVIEW;
     consecutive_errors := 0;
     history :=
       [ {| iteration := 1; phase := REVIEW; status := "rejected";
            issues_found := [[("title", "Same Issue"); ("location", "a.py:1")];
                             [("title", "Same Issue"); ("location", "a.py:7")]] |};
         {| iteration := 2; phase := REVIEW; status := "rejected";
            issues_found := [[("title", "Same Issue"); ("location", "a.py:1")]] |} ];
     is_approved := false;
     total_issues_found := 3;
     total_fixes_applied := 0;
     escalated_to_human := false |}.

(** The theorem at a history of three single-issue records. *)
Definition three_records : QALoopState :=
  {| current_iteration := 3;
     current_phase := REVIEW;
     consecutive_errors := 0;
     history :=
       map (fun n => {| iteration := n; phase := REVIEW; status := "rejected";
                        issues_found := [[("title", "Same Issue")]] |})
           [1; 2; 3];
     is_approved := false;
     total_issues_found := 3;
     total_fixes_applied := 0;
     escalated_to_human := false |}.

End Loop.

(** ** qa/fixer.py *)

Module Fixer.

Import Criteria.

Inductive FixStrategy : Type := REPLACE | INSERT | DELETE | REFACTOR | MANUAL.

Definition strategy_value (st : FixStrategy) : string :=
  match st with
  | REPLACE => "replace"
  | INSERT => "insert"
  | DELETE => "delete"
  | REFACTOR => "refactor"
  | MANUAL => "manual"
  end.

Definition is_manual (st : FixStrategy) : bool :=
  match st with MANUAL => true | _ => false end.

Definition is_delete (st : FixStrategy) : bool :=
  match st with DELETE => true | _ => false end.

(** Confidence values are two-decimal floats, kept as hundredths. *)
Record Fix : Type := {
  issue : QAIssue;
  strategy : FixStrategy;
  fix_description : string;
  file_path : option string;
  line_number : option nat;
  original_code : option string;
  fixed_code : option string;
  confidence : nat;
  applied : bool;
  error : option string;
}.

Record FixResult : Type := {
  success : bool;
  fixes_applied : list Fix;
  fixes_failed : list Fix;
  fixes_skipped : list Fix;
  ready_for_revalidation : bool;
  message : string;
}.

(** One entry of [FixGenerator._fix_patterns]. *)
Record FixPattern : Type := {
  p_strategy : FixStrategy;
  p_description : string;
  p_fix_template : option string;
}.

Definition _fix_patterns : list (string * FixPattern) :=
  [ ("hardcoded_secrets",
     {| p_strategy := REPLACE;
        p_description := "Move secret to environment variable";
        p_fix_template :=
          Some ("os.environ.get(" +:+ dquote +:+ "{var_name}" +:+ dquote
                +:+ ", " +:+ dquote +:+ dquote +:+ ")") |});
    ("debug_statements",
     {| p_strategy := DELETE;
        p_description := "Remove debug statement";
        p_fix_template := None |});
    ("empty_except",
     {| p_strategy := REPLACE;
        p_description := "Add proper exception handling";
        p_fix_template :=
          Some ("except {exception} as e:" +:+ LF
                +:+ "    logger.error(f'Error: {e}')") |});
    ("eval_usage",
     {| p_strategy := REFACTOR;
        p_description := "Replace eval with safer alternative";
        p_fix_template := None |});
    ("todo_comments",
     {| p_strategy := MANUAL;
        p_description := "Review and resolve TODO comment";
        p_fix_template := None |});
    ("any_type",
     {| p_strategy := REFACTOR;
        p_description := "Replace 'any' with proper type";
        p_fix_template := None |}) ].

Definition lookup_pattern (key : string) : option FixPattern :=
  option_map snd (find (fun kp => String.eqb (fst kp) key) _fix_patterns).

(** The files below the repository root, by relative path. Reads and writes
    of an existing text file are taken to succeed. *)
Abbreviation Files := (gmap string string).

Definition truthy (s : option string) : bool :=
  match s with
  | Some s => negb (String.eqb s "")
  | None => false
  end.

Definition truthy_line (n : option nat) : bool :=
  match n with
  | Some (S _) => true
  | _ => false
  end.

(** [FixGenerator._parse_location]. [int] is applied to what [isdigit]
    accepts, and raises where it does not read a number there. *)
Definition _parse_location (location : string)
  : Result (option string * option nat) :=
  if String.eqb location "" then Ok (None, None)
  else
    match rsplit1 ":"%char location with
    | Some (file, line) =>
        if isdigit line then
          let! line_num := int_of_text line in Ok (Some file, Some line_num)
        else Ok (Some file, None)
    | None => Ok (Some location, None)
    end.

(** [lines[line_number - 1]] when [0 < line_number <= len(lines)]. *)
Definition line_at (lines : list string) (line_number : nat) : option string :=
  match line_number with
  | O => None
  | S k => lines !! k
  end.

Definition _read_file_line (files : Files) (file : string) (line_number : nat) : option string :=
  match files !! file with
  | Some content => line_at (splitlines content) line_number
  | None => None
  end.

(** [re.search(r"(\w+)\s*=", text)]: the first run of word characters that
    blanks and an equals sign follow. *)
Definition assigned_at (s : string) : option string :=
  let '(w, rest) := word_run s in
  if String.eqb w "" then None
  else
    match skip_spaces rest with
    | String c _ => if Ascii.eqb c "="%char then Some w else None
    | EmptyString => None
    end.

Fixpoint assigned_name (s : string) : option string :=
  match assigned_at s with
  | Some w => Some w
  | None =>
      match s with
      | EmptyString => None
      | String _ s' => assigned_name s'
      end
  end.

(** [re.search(r"except\s+(\w+)", text)]. *)
Definition except_at (s : string) : option string :=
  if String.prefix "except" s then
    match drop_chars 6 s with
    | String c rest =>
        if is_space c then
          let '(w, _) := word_run (skip_spaces rest) in
          if String.eqb w "" then None else Some w
        else None
    | EmptyString => None
    end
  else None.

Fixpoint except_name (s : string) : option string :=
  match except_at s with
  | Some w => Some w
  | None =>
      match s with
      | EmptyString => None
      | String _ s' => except_name s'
      end
  end.

Definition _apply_fix_template (template original : string) (i : QAIssue) : string :=
  let result1 :=
    match assigned_name original with
    | Some v => replace "{var_name}" (upper v) template
    | None => template
    end in
  match except_name original with
  | Some e => replace "{exception}" e result1
  | None => replace "{exception}" "Exception" result1
  end.

Definition _calculate_confidence (i : QAIssue) (st : FixStrategy) : nat :=
  let base :=
    match st with
    | MANUAL => 30
    | REFACTOR => 50
    | _ => 80
    end in
  match severity i with
  | CRITICAL => base * 7 / 10
  | HIGH => base * 8 / 10
  | _ => base
  end.

Definition generate_fix (files : Files) (i : QAIssue) : Result Fix :=
  let issue_key := replace " " "_" (lower (title i)) in
  let pattern := lookup_pattern issue_key in
  let st := default MANUAL (option_map p_strategy pattern) in
  let descr := default ("Fix " +:+ title i) (option_map p_description pattern) in
  let! parsed := _parse_location (default "" (location i)) in
  let '(file, line) := parsed in
  let original :=
    if truthy file && truthy_line line
    then _read_file_line files (default "" file) (default 0 line)
    else None in
  let fixed :=
    match pattern with
    | Some p =>
        match p_fix_template p with
        | Some template =>
            if truthy (Some template) && truthy original
            then Some (_apply_fix_template template (default "" original) i)
            else None
        | None => None
        end
    | None => None
    end in
  Ok {| issue := i;
        strategy := st;
        fix_description := descr;
        file_path := file;
        line_number := line;
        original_code := original;
        fixed_code := fixed;
        confidence := _calculate_confidence i st;
        applied := false;
        error := None |}.

Definition set_error (f : Fix) (e : string) : Fix :=
  {| issue := issue f; strategy := strategy f;
     fix_description := fix_description f; file_path := file_path f;
     line_number := line_number f; original_code := original_code f;
     fixed_code := fixed_code f; confidence := confidence f;
     applied := applied f; error := Some e |}.

Definition set_applied (f : Fix) : Fix :=
  {| issue := issue f; strategy := strategy f;
     fix_description := fix_description f; file_path := file_path f;
     line_number := line_number f; original_code := original_code f;
     fixed_code := fixed_code f; confidence := confidence f;
     applied := true; error := error f |}.

(** [lines.insert(n, x)] for [0 <= n <= len(lines)]. *)
Definition list_insert_at {A : Type} (n : nat) (x : A) (l : list A) : list A :=
  take n l ++ x :: drop n l.

(** The edit of [_apply_fix] on the lines of the file. *)
Definition edit_lines (f : Fix) (lines : list string) : list string :=
  match strategy f, line_number f with
  | REPLACE, Some (S k) =>
      match lines !! k with
      | Some original =>
          let indent :=
            String.length original - String.length (lstrip original) in
          <[k := repeat_space indent +:+ lstrip (default "" (fixed_code f))]> lines
      | None => lines
      end
  | DELETE, Some (S k) =>
      match lines !! k with
      | Some _ => take k lines ++ drop (S k) lines
      | None => lines
      end
  | INSERT, Some (S k) =>
      if (S k <=? length lines)%nat
      then list_insert_at (S k) (default "" (fixed_code f)) lines
      else lines
  | _, _ => lines
  end.

(** [Fixer._apply_fix]: the verdict, the fix object after the call and the
    files after the call. *)
Definition _apply_fix (files : Files) (f : Fix) : bool * Fix * Files :=
  if negb (truthy (file_path f)) then (false, f, files)
  else if negb (is_delete (strategy f)) && negb (truthy (fixed_code f))
  then (false, f, files)
  else if is_manual (strategy f) then (false, f, files)
  else
    let path := default "" (file_path f) in
    match files !! path with
    | None => (false, set_error f ("File not found: " +:+ path), files)
    | Some content =>
        let lines := edit_lines f (splitlines content) in
        let joined := join LF lines in
        let new_content :=
          if endswith_char joined "010"%char then joined else joined +:+ LF in
        (true, set_applied f, <[path := new_content]> files)
    end.

(** A two-decimal float as Python prints it. *)
Definition str_hundredths (n : nat) : string :=
  let whole := n / 100 in
  let frac := n mod 100 in
  str_nat whole +:+ "." +:+
  (if (frac mod 10 =? 0)%nat then str_nat (frac / 10)
   else if (frac <? 10)%nat then "0" +:+ str_nat frac
   else str_nat frac).

Definition backtick : string := "`".

Fixpoint fix_request_sections (n : nat) (fixes : list Fix) : list string :=
  match fixes with
  | [] => []
  | f :: rest =>
      ["## Issue " +:+ str_nat n +:+ ": " +:+ title (issue f);
       "- **Severity**: " +:+ severity_value (severity (issue f));
       "- **Location**: " +:+
         (if truthy (location (issue f)) then default "" (location (issue f))
          else "N/A");
       "- **Description**: " +:+ description (issue f);
       "- **Fix Strategy**: " +:+ strategy_value (strategy f);
       "- **Suggested Fix**: " +:+ fix_description f]
      ++ (if truthy (original_code f)
          then ["- **Original Code**: " +:+ backtick +:+
                default "" (original_code f) +:+ backtick]
          else [])
      ++ (if truthy (fixed_code f)
          then ["- **Fixed Code**: " +:+ backtick +:+
                default "" (fixed_code f) +:+ backtick]
          else [])
      ++ (if truthy (error f)
          then ["- **Error**: " +:+ default "" (error f)]
          else [])
      ++ [""]
      ++ fix_request_sections (S n) rest
  end.

(** The text [_create_fix_request_file] writes to [QA_FIX_REQUEST.md]. *)
Definition fix_request_text (fixes : list Fix) : string :=
  join LF
    (["# QA Fix Request"; ""; "The following issues require attention:"; ""]
     ++ fix_request_sections 1 fixes
     ++ ["---";
         "After fixing these issues, the QA loop will re-run automatically."]).

Definition _create_fix_request_file (spec_dir : SpecDir) (fixes : list Fix) : SpecDir :=
  {| plan_file := plan_file spec_dir;
     fix_request := Some (fix_request_text fixes) |}.

(** [load_fix_request]: the text of [QA_FIX_REQUEST.md], if the file is
    there. *)
Definition load_fix_request (spec_dir : SpecDir) : option string :=
  fix_request spec_dir.

(** [clear_fix_request]. *)
Definition clear_fix_request (spec_dir : SpecDir) : bool * SpecDir :=
  (true, {| plan_file := plan_file spec_dir; fix_request := None |}).

(** The accumulators of the loop in [fix_issues]. *)
Record Progress : Type := {
  files_now : Files;
  applied_now : list Fix;
  failed_now : list Fix;
  skipped_now : list Fix;
}.

(** One turn of the loop in [fix_issues]. *)
Definition fix_step (auto_apply : bool) (min_confidence : nat)
    (acc : Progress) (f : Fix) : Progress :=
  if (confidence f <? min_confidence)%nat then
    let f' :=
      set_error f ("Confidence too low (" +:+ str_hundredths (confidence f)
                   +:+ " < " +:+ str_hundredths min_confidence +:+ ")") in
    {| files_now := files_now acc; applied_now := applied_now acc;
       failed_now := failed_now acc; skipped_now := skipped_now acc ++ [f'] |}
  else if is_manual (strategy f) then
    {| files_now := files_now acc; applied_now := applied_now acc;
       failed_now := failed_now acc; skipped_now := skipped_now acc ++ [f] |}
  else if auto_apply && truthy (fixed_code f) then
    let '(ok, f', files') := _apply_fix (files_now acc) f in
    if ok then
      {| files_now := files'; applied_now := applied_now acc ++ [f'];
         failed_now := failed_now acc; skipped_now := skipped_now acc |}
    else
      {| files_now := files'; applied_now := applied_now acc;
         failed_now := failed_now acc ++ [f']; skipped_now := skipped_now acc |}
  else
    {| files_now := files_now acc; applied_now := applied_now acc;
       failed_now := failed_now acc; skipped_now := skipped_now acc ++ [f] |}.

Definition is_critical (f : Fix) : bool :=
  severity_eqb (severity (issue f)) CRITICAL.

(** [[self.generator.generate_fix(issue) for issue in issues]]: the fixes
    in the order of the issues, or the first exception. *)
Fixpoint generate_fixes (files : Files) (issues : list QAIssue) : Result (list Fix) :=
  match issues with
  | [] => Ok []
  | i :: rest =>
      let! f := generate_fix files i in
      let! fs := generate_fixes files rest in
      Ok (f :: fs)
  end.

(** [Fixer.fix_issues]: the result, the files and the spec directory after
    the call. [spec_dir] is the fixer's optional field. All fixes are
    generated before the first is applied, so a call that raises has
    written nothing. *)
Definition fix_issues (auto_apply : bool) (min_confidence : nat)
    (files : Files) (spec_dir : option SpecDir) (issues : list QAIssue)
  : Result (FixResult * Files * option SpecDir) :=
  let! fixes := generate_fixes files issues in
  let acc :=
    fold_left (fix_step auto_apply min_confidence) fixes
      {| files_now := files; applied_now := []; failed_now := [];
         skipped_now := [] |} in
  let non_applied := failed_now acc ++ skipped_now acc in
  let spec_dir' :=
    match non_applied, spec_dir with
    | _ :: _, Some d => Some (_create_fix_request_file d non_applied)
    | _, _ => spec_dir
    end in
  let critical_failed := List.filter is_critical (failed_now acc) in
  let result :=
    match critical_failed with
    | _ :: _ =>
        {| success := false;
           fixes_applied := applied_now acc;
           fixes_failed := failed_now acc;
           fixes_skipped := skipped_now acc;
           ready_for_revalidation := false;
           message := "Failed to fix " +:+ str_nat (length critical_failed)
                      +:+ " critical issues" |}
    | [] =>
        {| success := true;
           fixes_applied := applied_now acc;
           fixes_failed := failed_now acc;
           fixes_skipped := skipped_now acc;
           ready_for_revalidation := true;
           message := "Applied " +:+ str_nat (length (applied_now acc))
                      +:+ " fixes, " +:+ str_nat (length (skipped_now acc))
                      +:+ " skipped, " +:+ str_nat (length (failed_now acc))
                      +:+ " failed" |}
    end in
  Ok (result, files_now acc, spec_dir').

(** The default of [Fixer.__init__] for [min_confidence], 0.7. *)
Definition default_min_confidence : nat := 70.

(** [run_qa_fixer]: the status, the result, the files and the spec directory
    after the call; [now] is the clock reading. The check of the sign-off
    stands before the [try]; the handler of the [try] answers "error" with
    the text of the exception. *)
Definition run_qa_fixer `{IsoParser} (now : datetime)
    (files : Files) (spec_dir : SpecDir) (fix_session : Z) (auto_apply : bool)
  : string * FixResult * Files * SpecDir :=
  let nothing :=
    ("error",
     {| success := false; fixes_applied := []; fixes_failed := [];
        fixes_skipped := []; ready_for_revalidation := false;
        message := "No issues found to fix" |},
     files, spec_dir) in
  match get_qa_signoff_status now spec_dir with
  | None => nothing
  | Some signoff =>
      match Criteria.issues_found signoff with
      | [] => nothing
      | found =>
          match fix_issues auto_apply default_min_confidence files
                  (Some spec_dir) found with
          | Ok (result, files', dir') =>
              let spec_dir' := default spec_dir dir' in
              if ready_for_revalidation result then
                let new_signoff :=
                  {| Criteria.status := FIXES_APPLIED;
                     Criteria.timestamp := now;
                     Criteria.qa_session := Criteria.qa_session signoff;
                     Criteria.issues_found := [];
                     Criteria.test_results := None;
                     Criteria.verified_by := "qa_agent";
                     Criteria.ready_for_revalidation := true |} in
                ("fixed", result, files',
                 save_qa_signoff_status spec_dir' new_signoff)
              else ("error", result, files', spec_dir')
          | Raise e =>
              ("error",
               {| success := false; fixes_applied := []; fixes_failed := [];
                  fixes_skipped := []; ready_for_revalidation := false;
                  message := exn_text e |},
               files, spec_dir)
          end
      end
  end.

(** *** Notions and sample data of the statements *)

Definition debug_line : string := "print(" +:+ dquote +:+ "x" +:+ dquote +:+ ")".

(** [src/bad.py]: three lines, the third a debug statement. *)
Definition bad_py : string :=
  "import os" +:+ LF +:+ "value = os.getcwd()" +:+ LF +:+ debug_line +:+ LF.

Definition scenario_files : gmap string string := {[ "src/bad.py" := bad_py ]}.

Definition debug_issue : QAIssue :=
  {| title := "Debug Statements";
     severity := LOW;
     description := "Check for debug statements left in code";
     location := Some "src/bad.py:3";
     fix_required := None;
     category := "style" |}.

Definition seeded_dir (found : list QAIssue) : SpecDir :=
  {| plan_file :=
       Some {| other_keys := [];
               qa_signoff :=
                 Some (to_dict {| status := REJECTED;
                                  timestamp := {| isoformat := "2024-05-01T10:00:00" |};
                                  qa_session := 1;
                                  issues_found := found;
                                  test_results := None;
                                  verified_by := "qa_agent";
                                  Criteria.ready_for_revalidation := false |}) |};
     fix_request := None |}.

Definition fixer_run (found : list QAIssue) (auto_apply : bool)
  : string * FixResult * gmap string string * SpecDir :=
  run_qa_fixer (H := example_parser) {| isoformat := "2024-05-01T10:05:00" |}
    scenario_files (seeded_dir found) 1 auto_apply.

Definition run_status (r : string * FixResult * gmap string string * SpecDir) : string :=
  fst (fst (fst r)).
Definition run_result (r : string * FixResult * gmap string string * SpecDir) : FixResult :=
  snd (fst (fst r)).
Definition run_files (r : string * FixResult * gmap string string * SpecDir)
  : gmap string string :=
  snd (fst r).
Definition run_dir (r : string * FixResult * gmap string string * SpecDir) : SpecDir :=
  snd r.

(** The sign-off dictionary a spec directory holds. *)
Definition stored_signoff (dir : SpecDir) : option SignoffDict :=
  match plan_file dir with
  | Some plan => qa_signoff plan
  | None => None
  end.

(** A sign-off without issues: the fixer has nothing to do. *)
Definition nothing_found : SpecDir := seeded_dir [].

(** The theorem at a sign-off whose only issue gets a MANUAL fix: nothing
    is applied, and the sign-off says fixes_applied all the same. *)
Definition todo_issue : QAIssue :=
  {| title := "Todo Comments";
     severity := LOW;
     description := "Check for TODO comments that should be resolved";
     location := Some "src/bad.py:1";
     fix_required := None;
     category := "style" |}.

(** [src/handler.py]: an empty except block on lines 3 and 4. *)
Definition handler_py : string :=
  "try:" +:+ LF +:+ "    run()" +:+ LF +:+ "except ValueError:" +:+ LF
  +:+ "    pass" +:+ LF.

Definition handler_files : gmap string string :=
  {[ "src/handler.py" := handler_py; "src/bad.py" := bad_py ]}.

Definition except_issue : QAIssue :=
  {| title := "Empty Except";
     severity := MEDIUM;
     description := "Check for empty except blocks";
     location := Some "src/handler.py:3";
     fix_required := None;
     category := "correctness" |}.

Definition secret_issue : QAIssue :=
  {| title := "Hardcoded Secrets";
     severity := CRITICAL;
     description := "Check for hardcoded secrets or API keys";
     location := Some "src/handler.py:2";
     fix_required := None;
     category := "security" |}.

(** The superscript two, which [str.isdigit] accepts and [int] refuses. *)
Definition superscript_two : string := String "178"%char EmptyString.

(** An issue whose location has the superscript two for a line number. *)
Definition superscript_issue : QAIssue :=
  {| title := "Debug Statements";
     severity := LOW;
     description := "Check for debug statements left in code";
     location := Some ("src/bad.py:" +:+ superscript_two);
     fix_required := None;
     category := "style" |}.

(** The key under which [generate_fix] looks an issue up. *)
Definition issue_key (i : QAIssue) : string :=
  replace " " "_" (lower (title i)).

(** A name without capitals and blanks, as the names of the checks are. *)
Fixpoint plain_name (s : string) : bool :=
  match s with
  | EmptyString => true
  | String c s' => negb (is_upper c) && negb (Ascii.eqb c " "%char) && plain_name s'
  end.

(** No character at which [str.splitlines] breaks a line. *)
Fixpoint unbroken (s : string) : bool :=
  match s with
  | EmptyString => true
  | String c s' =>
      negb (Ascii.eqb c "013"%char) && negb (is_linebreak c) && unbroken s'
  end.

(** The text of a file as [_apply_fix] writes it. *)
Definition written (lines : list string) : string :=
  let joined := join LF lines in
  if endswith_char joined "010"%char then joined else joined +:+ LF.

(** What one turn of the loop does: the fix is skipped, applied or failed. *)
Inductive Turn (auto_apply : bool) (min_confidence : nat) (acc : Progress) (f : Fix)
  : Progress -> Prop :=
| Skipped (f' : Fix) :
    issue f' = issue f ->
    Turn auto_apply min_confidence acc f
      {| files_now := files_now acc; applied_now := applied_now acc;
         failed_now := failed_now acc; skipped_now := skipped_now acc ++ [f'] |}
| Applied (path content : string) :
    auto_apply = true ->
    min_confidence <= confidence f ->
    is_manual (strategy f) = false ->
    truthy (fixed_code f) = true ->
    file_path f = Some path ->
    files_now acc !! path = Some content ->
    Turn auto_apply min_confidence acc f
      {| files_now :=
           <[path := written (edit_lines f (splitlines content))]> (files_now acc);
         applied_now := applied_now acc ++ [set_applied f];
         failed_now := failed_now acc; skipped_now := skipped_now acc |}
| Failed (f' : Fix) :
    issue f' = issue f ->
    auto_apply = true ->
    min_confidence <= confidence f ->
    Turn auto_apply min_confidence acc f
      {| files_now := files_now acc; applied_now := applied_now acc;
         failed_now := failed_now acc ++ [f']; skipped_now := skipped_now acc |}.

(** The last of the lines is there and is not empty. *)
Definition ends_with_text (lines : list string) : bool :=
  negb (String.eqb (List.last lines "") "").

(** The text up to the first line feed. *)
Fixpoint upto_LF (s : string) : string :=
  match s with
  | EmptyString => EmptyString
  | String c s' => if Ascii.eqb c "010"%char then EmptyString else String c (upto_LF s')
  end.

(** The line of [s] around the offset [start]: what lies between the last
    line feed before the offset and the first line feed at or after it.
    [acc] is the part of the line already passed. *)
Fixpoint line_around (acc s : string) (start : nat) : string :=
  match start, s with
  | S n, String c s' =>
      if Ascii.eqb c "010"%char then line_around "" s' n
      else line_around (snoc acc c) s' n
  | _, _ => acc +:+ upto_LF s
  end.

(** A file whose only line breaks are line feeds. *)
Fixpoint LF_only (s : string) : bool :=
  match s with
  | EmptyString => true
  | String c s' =>
      (Ascii.eqb c "010"%char
       || (negb (Ascii.eqb c "013"%char) && negb (is_linebreak c)))
      && LF_only s'
  end.

End Fixer.

(** ** core/worktree.py *)

Module Worktree.

Definition network_terms : list string :=
  ["connection"; "network"; "timeout"; "reset"; "refused"].

Definition _is_retryable_network_error (stderr : string) : bool :=
  any_in network_terms (lower stderr).

(** Does [http[s]?\s*5\d{2}] match at the start of [s]? *)
Definition http_5xx_at (s : string) : bool :=
  String.prefix "http" s &&
  (let rest := drop_chars 4 s in
   let rest :=
     match rest with
     | String c r => if Ascii.eqb c "s"%char then r else rest
     | EmptyString => rest
     end in
   match skip_spaces rest with
   | String c1 (String c2 (String c3 _)) =>
       Ascii.eqb c1 "5"%char && is_digit c2 && is_digit c3
   | _ => false
   end).

Fixpoint http_5xx_search (s : string) : bool :=
  http_5xx_at s ||
  match s with
  | EmptyString => false
  | String _ s' => http_5xx_search s'
  end.

Definition _is_retryable_http_error (stderr : string) : bool :=
  let stderr_lower := lower stderr in
  if http_5xx_search stderr_lower then true
  else if contains "http" stderr_lower && contains "timeout" stderr_lower then true
  else false.

(** What one call of the [operation] of [_with_retry] does: it returns the
    triple (success, result, error) or raises [subprocess.TimeoutExpired]. *)
Inductive Attempt (T : Type) : Type :=
| Returned (success : bool) (result : option T) (error : string)
| TimeoutExpired.
Arguments Returned {T} success result error.
Arguments TimeoutExpired {T}.

(** What happens between two attempts. *)
Inductive RetryEvent : Type :=
| OnRetry (attempt : nat) (error : string)
| Sleep (seconds : nat).

Record RetryRun (T : Type) : Type := {
  returned : option T * string;
  events : list RetryEvent;
  calls : nat;
}.
Arguments returned {T} r.
Arguments events {T} r.
Arguments calls {T} r.

Definition between_attempts (on_retry : bool) (attempt : nat) (error : string)
  : list RetryEvent :=
  (if on_retry then [OnRetry attempt error] else [])
  ++ [Sleep (2 ^ (attempt - 1))].

(** The [for attempt in range(1, max_retries + 1)] loop of [_with_retry],
    [remaining] turns before its end, at turn [attempt]. [operation k] is
    what the [k]-th call of the operation does. *)
Fixpoint retry_loop {T : Type} (operation : nat -> Attempt T) (max_retries : nat)
    (is_retryable : option (string -> bool)) (on_retry : bool)
    (remaining attempt : nat) (last_error : string) (log : list RetryEvent)
  : RetryRun T :=
  match remaining with
  | O => {| returned := (None, last_error); events := log; calls := attempt - 1 |}
  | S remaining' =>
      match operation attempt with
      | Returned true result _ =>
          {| returned := (result, ""); events := log; calls := attempt |}
      | Returned false _ error =>
          let retryable :=
            match is_retryable with
            | Some test => (attempt <? max_retries)%nat && test error
            | None => false
            end in
          if retryable then
            retry_loop operation max_retries is_retryable on_retry remaining'
              (S attempt) error (log ++ between_attempts on_retry attempt error)
          else {| returned := (None, error); events := log; calls := attempt |}
      | TimeoutExpired =>
          let error := "Operation timed out" in
          if (attempt <? max_retries)%nat then
            retry_loop operation max_retries is_retryable on_retry remaining'
              (S attempt) error (log ++ between_attempts on_retry attempt error)
          else {| returned := (None, error); events := log; calls := attempt |}
      end
  end.

Definition _with_retry {T : Type} (operation : nat -> Attempt T) (max_retries : nat)
    (is_retryable : option (string -> bool)) (on_retry : bool) : RetryRun T :=
  retry_loop operation max_retries is_retryable on_retry max_retries 1 "" [].

(** [PushBranchResult], a dictionary whose keys may be absent. *)
Record PushBranchResult : Type := {
  success : bool;
  branch : option string;
  remote : option string;
  error : option string;
}.

Record WorktreeInfo : Type := {
  path : string;
  info_branch : string;
  spec_name : string;
  info_base_branch : string;
  is_active : bool;
}.

(** What the [git push] subprocess of one attempt does. *)
Inductive PushProcess : Type :=
| Exited (returncode : Z) (stderr : string)
| PushTimedOut
| GitNotFound.

Definition push_args (info : WorktreeInfo) (force : bool) : list string :=
  if force then ["push"; "--force"; "-u"; "origin"; info_branch info]
  else ["push"; "-u"; "origin"; info_branch info].

(** The closure [do_push]; [TimeoutExpired] is not caught in it. *)
Definition do_push (info : WorktreeInfo) (process : PushProcess)
  : Attempt PushBranchResult :=
  match process with
  | Exited rc stderr =>
      if (rc =? 0)%Z then
        Returned true
          (Some {| success := true; branch := Some (info_branch info);
                   remote := Some "origin"; error := None |})
          ""
      else Returned false None stderr
  | PushTimedOut => TimeoutExpired
  | GitNotFound => Returned false None "git executable not found"
  end.

(** [WorktreeManager.push_branch]. [info] is what [get_worktree_info] has
    answered and [git argv k] what the [k]-th run of [git argv] does. The
    run of [_with_retry] is returned next to the record, for its events and
    its number of calls; without a worktree no attempt is made. *)
Definition push_branch (info : option WorktreeInfo) (spec : string) (force : bool)
    (git : list string -> nat -> PushProcess)
  : PushBranchResult * RetryRun PushBranchResult :=
  match info with
  | None =>
      ({| success := false; branch := None; remote := None;
          error := Some ("No worktree found for spec: " +:+ spec) |},
       {| returned := (None, ""); events := []; calls := 0 |})
  | Some info =>
      let max_retries := 3 in
      let run :=
        _with_retry (fun k => do_push info (git (push_args info force) k))
          max_retries (Some _is_retryable_network_error) false in
      let '(result, last_error) := returned run in
      match result with
      | Some r => (r, run)
      | None =>
          if String.eqb last_error "Operation timed out" then
            ({| success := false; branch := Some (info_branch info);
                remote := None;
                error := Some ("Push timed out after " +:+ str_nat max_retries
                               +:+ " attempts.") |},
             run)
          else
            ({| success := false; branch := Some (info_branch info);
                remote := None;
                error := Some ("Failed to push branch: " +:+ last_error) |},
             run)
      end
  end.

(** *** Worktree creation *)

Record CompletedProcess : Type := {
  returncode : Z;
  stdout : string;
  stderr : string;
}.

Record Manager : Type := {
  project_dir : string;
  base_branch : string;
}.

Definition get_branch_name (spec : string) : string :=
  "claude-god-code/" +:+ spec.

(** The text of the [WorktreeError] raised on a namespace conflict. *)
Definition conflict_message (conflicting_branch branch_name spec : string) : string :=
  "Branch '" +:+ conflicting_branch +:+ "' exists and blocks creating '"
  +:+ branch_name +:+ "'." +:+ LF
  +:+ LF
  +:+ "Git branch names work like file paths - a branch named 'claude-god-code' prevents"
  +:+ LF
  +:+ "creating branches under 'claude-god-code/' (like 'claude-god-code/"
  +:+ spec +:+ "')." +:+ LF
  +:+ LF
  +:+ "Fix: Rename the conflicting branch:" +:+ LF
  +:+ "  git branch -m " +:+ conflicting_branch +:+ " " +:+ conflicting_branch
  +:+ "-backup".

(** The last path component, [Path.name]. *)
Definition path_name (p : string) : string :=
  match rsplit1 "/"%char p with
  | Some (_, name) => name
  | None => p
  end.

Section Git.

(** The repository and the file system around it, and the two ways the
    manager reaches them: running [git argv] in a directory and
    [Path.exists]. *)
Variable World : Type.
Variable run_git : list string -> string -> World -> CompletedProcess * World.
Variable path_exists : string -> World -> bool.

(** A step of the manager: the world after it, the git commands issued and
    the lines printed so far. *)
Record Trace : Type := {
  world : World;
  commands : list (list string);
  printed : list string;
}.

Definition _run_git (mgr : Manager) (args : list string) (t : Trace)
  : CompletedProcess * Trace :=
  let '(cp, w) := run_git args (project_dir mgr) (world t) in
  (cp, {| world := w; commands := commands t ++ [args]; printed := printed t |}).

Definition print (line : string) (t : Trace) : Trace :=
  {| world := world t; commands := commands t; printed := printed t ++ [line] |}.

Definition worktrees_dir (mgr : Manager) : string :=
  project_dir mgr +:+ "/.claude-god-code/worktrees/specs".

Definition get_worktree_path (mgr : Manager) (spec : string) (w : World) : string :=
  let new_path := worktrees_dir mgr +:+ "/" +:+ spec in
  if path_exists new_path w then new_path
  else
    let legacy_path := project_dir mgr +:+ "/.worktrees/" +:+ spec in
    if path_exists legacy_path w then legacy_path else new_path.

Definition _check_branch_namespace_conflict (mgr : Manager) (t : Trace)
  : option string * Trace :=
  let '(result, t1) := _run_git mgr ["rev-parse"; "--verify"; "claude-god-code"] t in
  if (returncode result =? 0)%Z then (Some "claude-god-code", t1) else (None, t1).

Definition create_worktree (mgr : Manager) (spec : string) (w : World)
  : Result WorktreeInfo * Trace :=
  let t0 := {| world := w; commands := []; printed := [] |} in
  let worktree_path := get_worktree_path mgr spec w in
  let branch_name := get_branch_name spec in
  let '(conflicting_branch, t1) := _check_branch_namespace_conflict mgr t0 in
  match conflicting_branch with
  | Some conflicting =>
      (Raise (WorktreeError (conflict_message conflicting branch_name spec)), t1)
  | None =>
      let t2 :=
        if path_exists worktree_path (world t1)
        then snd (_run_git mgr ["worktree"; "remove"; "--force"; worktree_path] t1)
        else t1 in
      let t3 := snd (_run_git mgr ["branch"; "-D"; branch_name] t2) in
      let '(fetch_result, t4) := _run_git mgr ["fetch"; "origin"; base_branch mgr] t3 in
      let t5 :=
        if (returncode fetch_result =? 0)%Z then t4
        else
          print "Falling back to local branch..."
            (print ("Warning: Could not fetch " +:+ base_branch mgr
                    +:+ " from origin: " +:+ stderr fetch_result) t4) in
      let remote_ref := "origin/" +:+ base_branch mgr in
      let '(check_remote, t6) := _run_git mgr ["rev-parse"; "--verify"; remote_ref] t5 in
      let '(start_point, t7) :=
        if (returncode check_remote =? 0)%Z
        then (remote_ref, print ("Creating worktree from remote: " +:+ remote_ref) t6)
        else (base_branch mgr,
              print ("Remote ref " +:+ remote_ref
                     +:+ " not found, using local branch: " +:+ base_branch mgr) t6) in
      let '(result, t8) :=
        _run_git mgr ["worktree"; "add"; "-b"; branch_name; worktree_path; start_point] t7 in
      if negb (returncode result =? 0)%Z then
        (Raise (WorktreeError ("Failed to create worktree for " +:+ spec +:+ ": "
                               +:+ stderr result)), t8)
      else
        (Ok {| path := worktree_path; info_branch := branch_name;
               spec_name := spec; info_base_branch := base_branch mgr;
               is_active := true |},
         print ("Created worktree: " +:+ path_name worktree_path
                +:+ " on branch " +:+ branch_name) t8)
  end.

End Git.

Arguments world {World} t.
Arguments commands {World} t.
Arguments printed {World} t.

(** *** A small repository to run the manager on

    Local branches, remote-tracking refs, the directories of the registered
    worktrees, and whether the remote can be reached. *)
Record Repo : Type := {
  branches : list string;
  remote_refs : list string;
  worktree_dirs : list string;
  online : bool;
}.

Definition mem (x : string) (l : list string) : bool :=
  existsb (String.eqb x) l.

Definition without (x : string) (l : list string) : list string :=
  List.filter (fun y => negb (String.eqb x y)) l.

Definition exit_ok (r : Repo) : CompletedProcess * Repo :=
  ({| returncode := 0; stdout := ""; stderr := "" |}, r).

Definition exit_fatal (msg : string) (r : Repo) : CompletedProcess * Repo :=
  ({| returncode := 128; stdout := ""; stderr := "fatal: " +:+ msg |}, r).

(** The five git commands [create_worktree] issues. *)
Definition repo_git (args : list string) (cwd : string) (r : Repo)
  : CompletedProcess * Repo :=
  match args with
  | ["rev-parse"; "--verify"; ref] =>
      if mem ref (branches r) || mem ref (remote_refs r) then exit_ok r
      else exit_fatal "Needed a single revision" r
  | ["worktree"; "remove"; "--force"; dir] =>
      if mem dir (worktree_dirs r) then
        exit_ok {| branches := branches r; remote_refs := remote_refs r;
                worktree_dirs := without dir (worktree_dirs r);
                online := online r |}
      else exit_fatal "not a working tree" r
  | ["branch"; "-D"; name] =>
      if mem name (branches r) then
        exit_ok {| branches := without name (branches r);
                remote_refs := remote_refs r;
                worktree_dirs := worktree_dirs r; online := online r |}
      else exit_fatal "branch not found" r
  | ["fetch"; "origin"; name] =>
      if online r then
        exit_ok {| branches := branches r;
                remote_refs :=
                  if mem ("origin/" +:+ name) (remote_refs r) then remote_refs r
                  else remote_refs r ++ ["origin/" +:+ name];
                worktree_dirs := worktree_dirs r; online := online r |}
      else exit_fatal "unable to access origin" r
  | ["worktree"; "add"; "-b"; name; dir; start] =>
      if mem name (branches r) then exit_fatal "a branch of that name already exists" r
      else if existsb (fun b => String.prefix (b +:+ "/") name) (branches r)
      then exit_fatal "cannot lock ref" r
      else if mem dir (worktree_dirs r) then exit_fatal "directory already exists" r
      else if mem start (branches r) || mem start (remote_refs r) then
        exit_ok {| branches := branches r ++ [name]; remote_refs := remote_refs r;
                worktree_dirs := worktree_dirs r ++ [dir]; online := online r |}
      else exit_fatal "invalid reference" r
  | _ => exit_fatal "unknown command" r
  end.

Definition repo_path_exists (p : string) (r : Repo) : bool :=
  mem p (worktree_dirs r).

(** *** Notions and sample data of the statements *)

(** A failed attempt that the loop follows by another one when attempts are
    left. *)
Definition worth_retrying {T : Type} (test : string -> bool) (a : Attempt T) : bool :=
  match a with
  | Returned true _ _ => false
  | Returned false _ error => test error
  | TimeoutExpired => true
  end.

(** What the loop hands back when it stops at an attempt. *)
Definition final {T : Type} (a : Attempt T) : option T * string :=
  match a with
  | Returned true result _ => (result, "")
  | Returned false _ error => (None, error)
  | TimeoutExpired => (None, "Operation timed out")
  end.

Definition backoff (from count : nat) : list RetryEvent :=
  map (fun k => Sleep (2 ^ (k - 1))) (seq from count).

(** The error text the loop keeps for a failed attempt. *)
Definition error_of {T : Type} (a : Attempt T) : string :=
  match a with
  | Returned _ _ error => error
  | TimeoutExpired => "Operation timed out"
  end.

(** A failed attempt that the loop follows by another one when attempts are
    left, for a classifier that may be missing. *)
Definition retried {T : Type} (is_retryable : option (string -> bool)) (a : Attempt T)
  : bool :=
  match a with
  | Returned true _ _ => false
  | Returned false _ error =>
      match is_retryable with
      | Some test => test error
      | None => false
      end
  | TimeoutExpired => true
  end.

(** What is logged between the attempts [from], ..., [from + count - 1] and
    their successors. *)
Definition pauses {T : Type} (operation : nat -> Attempt T) (on_retry : bool)
    (from count : nat) : list RetryEvent :=
  flat_map (fun k => between_attempts on_retry k (error_of (operation k)))
    (seq from count).

(** The seconds slept over a run. *)
Definition total_sleep (events : list RetryEvent) : nat :=
  fold_right (fun e sum => match e with
                           | Sleep seconds => seconds + sum
                           | OnRetry _ _ => sum
                           end) 0 events.

(** A push attempt after which [push_branch] tries again when it has
    attempts left: the subprocess timed out, or it failed with a diagnostic
    that holds one of the network terms. *)
Definition retried_after (p : PushProcess) : bool :=
  match p with
  | PushTimedOut => true
  | Exited rc stderr => negb (rc =? 0)%Z && _is_retryable_network_error stderr
  | GitNotFound => false
  end.

Definition succeeded (p : PushProcess) : bool :=
  match p with
  | Exited rc _ => (rc =? 0)%Z
  | _ => false
  end.

Definition push_operation (info : WorktreeInfo) (force : bool)
    (git : list string -> nat -> PushProcess) (k : nat) : Attempt PushBranchResult :=
  do_push info (git (push_args info force) k).

(** The record [push_branch] builds from what [_with_retry] returns. *)
Definition push_record (info : WorktreeInfo)
    (returned : option PushBranchResult * string) : PushBranchResult :=
  match returned with
  | (Some r, _) => r
  | (None, last_error) =>
      if String.eqb last_error "Operation timed out" then
        {| success := false; branch := Some (info_branch info); remote := None;
           error := Some "Push timed out after 3 attempts." |}
      else
        {| success := false; branch := Some (info_branch info); remote := None;
           error := Some ("Failed to push branch: " +:+ last_error) |}
  end.

(** The theorem at a push that fails twice on the network and then goes
    through. *)
Definition sample_info : WorktreeInfo :=
  {| path := "/repo/.claude-god-code/worktrees/specs/001-login";
     info_branch := "claude-god-code/001-login";
     spec_name := "001-login";
     info_base_branch := "main";
     is_active := true |}.

Definition flaky_network (argv : list string) (k : nat) : PushProcess :=
  match k with
  | 1 => Exited 128 "fatal: unable to access origin: Connection reset by peer"
  | 2 => PushTimedOut
  | _ => Exited 0 ""
  end.

(** An HTTP 5xx diagnostic without a network term, and the diagnostic of a
    timed-out subprocess. *)
Definition http_503 : string :=
  "error: RPC failed; HTTP 503 curl 22 The requested URL returned error: 503".

(** The theorem on the sample repository, where the branch
    [claude-god-code] exists next to [main]. *)
Definition blocked_repo : Repo :=
  {| branches := ["main"; "claude-god-code"];
     remote_refs := ["origin/main"];
     worktree_dirs := [];
     online := true |}.

Definition sample_manager : Manager :=
  {| project_dir := "/repo"; base_branch := "main" |}.

End Worktree.

(** ** agents/session.py *)

Module Session.

Record ConversationMessage : Type := {
  role : value;
  content : value;
  timestamp : datetime;
  metadata : value;
}.

(** Fields that [from_dict] copies without a check hold any [value]. *)
Record SessionData : Type := {
  session_id : value;
  spec_id : value;
  task_description : value;
  created_at : datetime;
  started_at : option datetime;
  completed_at : option datetime;
  status : value;
  phase : value;
  result : value;
  messages : list ConversationMessage;
  metrics : value;
  artifacts : value;
  errors : value;
}.

Definition message_to_dict (m : ConversationMessage) : value :=
  VDict [ ("role", role m);
          ("content", content m);
          ("timestamp", VStr (isoformat (timestamp m)));
          ("metadata", metadata m) ].

Section Parsing.

Context {parser : IsoParser}.

(** [ConversationMessage.from_dict]. *)
Definition message_from_dict (data : value) : Result ConversationMessage :=
  match data with
  | VDict d =>
      let! r := dict_item d "role" in
      let! c := dict_item d "content" in
      let! t := dict_item d "timestamp" in
      let! ts := fromisoformat t in
      Ok {| role := r; content := c; timestamp := ts;
            metadata := dict_get d "metadata" (VDict []) |}
  | _ => Raise TypeError
  end.

Definition optional_time (t : option datetime) : value :=
  match t with
  | Some t => VStr (isoformat t)
  | None => VNone
  end.

(** [SessionData.to_dict]. *)
Definition to_dict (s : SessionData) : value :=
  VDict [ ("session_id", session_id s);
          ("spec_id", spec_id s);
          ("task_description", task_description s);
          ("created_at", VStr (isoformat (created_at s)));
          ("started_at", optional_time (started_at s));
          ("completed_at", optional_time (completed_at s));
          ("status", status s);
          ("phase", phase s);
          ("result", result s);
          ("messages", VList (map message_to_dict (messages s)));
          ("metrics", metrics s);
          ("artifacts", artifacts s);
          ("errors", errors s) ].

Fixpoint each_message (items : list value) : Result (list ConversationMessage) :=
  match items with
  | [] => Ok []
  | m :: rest =>
      let! m' := message_from_dict m in
      let! rest' := each_message rest in
      Ok (m' :: rest')
  end.

(** [session.x = fromisoformat(data[key])] under [if data.get(key):]. *)
Definition optional_parse (d : list (string * value)) (key : string)
  : Result (option datetime) :=
  let v := dict_get d key VNone in
  if truthy_value v then
    let! t := fromisoformat v in Ok (Some t)
  else Ok None.

(** [SessionData.from_dict]. *)
Definition from_dict (data : value) : Result SessionData :=
  match data with
  | VDict d =>
      let! sid := dict_item d "session_id" in
      let! created_text := dict_item d "created_at" in
      let! created := fromisoformat created_text in
      let! started := optional_parse d "started_at" in
      let! completed := optional_parse d "completed_at" in
      let! items := iterate (dict_get d "messages" (VList [])) in
      let! msgs := each_message items in
      Ok {| session_id := sid;
            spec_id := dict_get d "spec_id" VNone;
            task_description := dict_get d "task_description" (VStr "");
            created_at := created;
            started_at := started;
            completed_at := completed;
            status := dict_get d "status" (VStr "pending");
            phase := dict_get d "phase" (VStr "initializing");
            result := dict_get d "result" VNone;
            messages := msgs;
            metrics := dict_get d "metrics" (VDict []);
            artifacts := dict_get d "artifacts" (VDict []);
            errors := dict_get d "errors" (VList []) |}
  | _ => Raise TypeError
  end.

(** [SessionData.add_message]; [now] is the clock reading. *)
Definition add_message (now : datetime) (r c : string) (meta : option value)
    (s : SessionData) : SessionData :=
  let meta' :=
    match meta with
    | Some m => if truthy_value m then m else VDict []
    | None => VDict []
    end in
  {| session_id := session_id s; spec_id := spec_id s;
     task_description := task_description s; created_at := created_at s;
     started_at := started_at s; completed_at := completed_at s;
     status := status s; phase := phase s; result := result s;
     messages :=
       messages s ++ [{| role := VStr r; content := VStr c; timestamp := now;
                         metadata := meta' |}];
     metrics := metrics s; artifacts := artifacts s; errors := errors s |}.

(** *** The store and the orchestrator

    A file of the sessions directory holds bytes that are not UTF-8, text
    that is not JSON, or a JSON document. Session objects live in a heap:
    the store's cache and the orchestrator's table of active sessions hold
    references, so a change through one is seen through the other. *)
Inductive FileContent : Type :=
| NotUtf8
| NotJson (text : string)
| Json (document : value).

Record Orchestrator : Type := {
  disk : gmap string FileContent;
  heap : gmap nat SessionData;
  next_ref : nat;
  cache : gmap string nat;
  active : gmap string nat;
}.

Definition empty_orchestrator : Orchestrator :=
  {| disk := ∅; heap := ∅; next_ref := 0; cache := ∅; active := ∅ |}.

Definition with_disk (f : gmap string FileContent -> gmap string FileContent)
    (o : Orchestrator) : Orchestrator :=
  {| disk := f (disk o); heap := heap o; next_ref := next_ref o;
     cache := cache o; active := active o |}.

Definition with_heap (f : gmap nat SessionData -> gmap nat SessionData)
    (o : Orchestrator) : Orchestrator :=
  {| disk := disk o; heap := f (heap o); next_ref := next_ref o;
     cache := cache o; active := active o |}.

Definition with_cache (f : gmap string nat -> gmap string nat)
    (o : Orchestrator) : Orchestrator :=
  {| disk := disk o; heap := heap o; next_ref := next_ref o;
     cache := f (cache o); active := active o |}.

Definition with_active (f : gmap string nat -> gmap string nat)
    (o : Orchestrator) : Orchestrator :=
  {| disk := disk o; heap := heap o; next_ref := next_ref o;
     cache := cache o; active := f (active o) |}.

(** A new session object. *)
Definition allocate (s : SessionData) (o : Orchestrator) : nat * Orchestrator :=
  (next_ref o,
   {| disk := disk o; heap := <[next_ref o := s]> (heap o);
      next_ref := S (next_ref o); cache := cache o; active := active o |}).

(** [SessionStore.save] of the object behind [ref]: the file
    [<session_id>.json] is rewritten and the cache entry set. *)
Definition save (ref : nat) (o : Orchestrator) : Orchestrator :=
  match heap o !! ref with
  | Some s =>
      let key := format_value (session_id s) in
      with_cache (insert key ref) (with_disk (insert key (Json (to_dict s))) o)
  | None => o
  end.

(** [SessionStore.load]: a reference to the session, [None] for "not
    found", or the exception that escapes. The handler catches
    [JSONDecodeError] and [KeyError]: the error of decoding the bytes is
    neither. *)
Definition load (sid : string) (o : Orchestrator) : Result (option nat) * Orchestrator :=
  match cache o !! sid with
  | Some ref => (Ok (Some ref), o)
  | None =>
      match disk o !! sid with
      | None => (Ok None, o)
      | Some NotUtf8 => (Raise UnicodeDecodeError, o)
      | Some (NotJson _) => (Ok None, o)
      | Some (Json data) =>
          match from_dict data with
          | Ok s =>
              let '(ref, o1) := allocate s o in
              (Ok (Some ref), with_cache (insert sid ref) o1)
          | Raise (KeyError _) => (Ok None, o)
          | Raise JSONDecodeError => (Ok None, o)
          | Raise e => (Raise e, o)
          end
      end
  end.

(** [self._active_sessions.get(sid)], then [self.store.load(sid)]. *)
Definition fetch (sid : string) (o : Orchestrator) : Result (option nat) * Orchestrator :=
  match active o !! sid with
  | Some ref => (Ok (Some ref), o)
  | None => load sid o
  end.

(** Assignment to the fields of the object behind [ref]. *)
Definition mutate (ref : nat) (f : SessionData -> SessionData) (o : Orchestrator)
  : Orchestrator :=
  with_heap (alter f ref) o.

Definition set_status (st : string) (s : SessionData) : SessionData :=
  {| session_id := session_id s; spec_id := spec_id s;
     task_description := task_description s; created_at := created_at s;
     started_at := started_at s; completed_at := completed_at s;
     status := VStr st; phase := phase s; result := result s;
     messages := messages s; metrics := metrics s; artifacts := artifacts s;
     errors := errors s |}.

Definition set_phase (p : value) (s : SessionData) : SessionData :=
  {| session_id := session_id s; spec_id := spec_id s;
     task_description := task_description s; created_at := created_at s;
     started_at := started_at s; completed_at := completed_at s;
     status := status s; phase := p; result := result s;
     messages := messages s; metrics := metrics s; artifacts := artifacts s;
     errors := errors s |}.

Definition set_result (r : string) (s : SessionData) : SessionData :=
  {| session_id := session_id s; spec_id := spec_id s;
     task_description := task_description s; created_at := created_at s;
     started_at := started_at s; completed_at := completed_at s;
     status := status s; phase := phase s; result := VStr r;
     messages := messages s; metrics := metrics s; artifacts := artifacts s;
     errors := errors s |}.

Definition set_started_at (t : datetime) (s : SessionData) : SessionData :=
  {| session_id := session_id s; spec_id := spec_id s;
     task_description := task_description s; created_at := created_at s;
     started_at := Some t; completed_at := completed_at s;
     status := status s; phase := phase s; result := result s;
     messages := messages s; metrics := metrics s; artifacts := artifacts s;
     errors := errors s |}.

Definition set_completed_at (t : datetime) (s : SessionData) : SessionData :=
  {| session_id := session_id s; spec_id := spec_id s;
     task_description := task_description s; created_at := created_at s;
     started_at := started_at s; completed_at := Some t;
     status := status s; phase := phase s; result := result s;
     messages := messages s; metrics := metrics s; artifacts := artifacts s;
     errors := errors s |}.

Definition set_metrics (m : value) (s : SessionData) : SessionData :=
  {| session_id := session_id s; spec_id := spec_id s;
     task_description := task_description s; created_at := created_at s;
     started_at := started_at s; completed_at := completed_at s;
     status := status s; phase := phase s; result := result s;
     messages := messages s; metrics := m; artifacts := artifacts s;
     errors := errors s |}.

Definition set_artifacts (a : value) (s : SessionData) : SessionData :=
  {| session_id := session_id s; spec_id := spec_id s;
     task_description := task_description s; created_at := created_at s;
     started_at := started_at s; completed_at := completed_at s;
     status := status s; phase := phase s; result := result s;
     messages := messages s; metrics := metrics s; artifacts := a;
     errors := errors s |}.

Definition set_errors (e : value) (s : SessionData) : SessionData :=
  {| session_id := session_id s; spec_id := spec_id s;
     task_description := task_description s; created_at := created_at s;
     started_at := started_at s; completed_at := completed_at s;
     status := status s; phase := phase s; result := result s;
     messages := messages s; metrics := metrics s; artifacts := artifacts s;
     errors := e |}.

Definition not_found (sid : string) : Exn :=
  ValueError ("Session " +:+ sid +:+ " not found").

(** [create_session]; [uuid] is the text of the fresh [uuid.uuid4()]. *)
Definition create_session (uuid : string) (now : datetime)
    (task : string) (spec : option string) (o : Orchestrator) : nat * Orchestrator :=
  let session :=
    {| session_id := VStr uuid;
       spec_id := match spec with Some x => VStr x | None => VNone end;
       task_description := VStr task;
       created_at := now; started_at := None; completed_at := None;
       status := VStr "pending"; phase := VStr "initializing"; result := VNone;
       messages := []; metrics := VDict []; artifacts := VDict [];
       errors := VList [] |} in
  let session :=
    add_message now "system" ("Session initialized for task: " +:+ task) None
      session in
  let '(ref, o1) := allocate session o in
  (ref, save ref o1).

Definition status_in (s : SessionData) (allowed : list string) : bool :=
  match status s with
  | VStr st => existsb (String.eqb st) allowed
  | _ => false
  end.

Definition status_of (ref : nat) (o : Orchestrator) : string :=
  match heap o !! ref with
  | Some s => format_value (status s)
  | None => ""
  end.

(** [start_session]. *)
Definition start_session (sid : string) (now : datetime) (o : Orchestrator)
  : Result nat * Orchestrator :=
  match load sid o with
  | (Raise e, o1) => (Raise e, o1)
  | (Ok None, o1) => (Raise (not_found sid), o1)
  | (Ok (Some ref), o1) =>
      match heap o1 !! ref with
      | None => (Raise (not_found sid), o1)
      | Some s =>
          if negb (status_in s ["pending"; "paused"]) then
            (Raise (ValueError ("Session " +:+ sid +:+ " cannot be started (status: "
                                +:+ format_value (status s) +:+ ")")), o1)
          else
            let o2 :=
              mutate ref (fun s =>
                set_phase (VStr "initializing")
                  (set_status "running" (set_started_at now s))) o1 in
            let o3 := with_active (insert sid ref) o2 in
            let o4 :=
              mutate ref
                (add_message now "system" "Session started"
                   (Some (VDict [("started_at", VStr (isoformat now))]))) o3 in
            (Ok ref, save ref o4)
      end
  end.

(** [update_session_phase]. *)
Definition update_session_phase (sid : string) (new_phase : string)
    (message : option string) (now : datetime) (o : Orchestrator)
  : Result unit * Orchestrator :=
  match fetch sid o with
  | (Raise e, o1) => (Raise e, o1)
  | (Ok None, o1) => (Ok tt, o1)
  | (Ok (Some ref), o1) =>
      let o2 := mutate ref (set_phase (VStr new_phase)) o1 in
      let o3 :=
        match message with
        | Some text =>
            if String.eqb text "" then o2
            else
              mutate ref
                (add_message now "system" text
                   (Some (VDict [("phase", VStr new_phase)]))) o2
        | None => o2
        end in
      (Ok tt, save ref o3)
  end.

(** [add_agent_message] and [add_user_message] differ in the role only. *)
Definition add_role_message (r : string) (sid text : string) (meta : option value)
    (now : datetime) (o : Orchestrator) : Result unit * Orchestrator :=
  match fetch sid o with
  | (Raise e, o1) => (Raise e, o1)
  | (Ok None, o1) => (Ok tt, o1)
  | (Ok (Some ref), o1) =>
      (Ok tt, save ref (mutate ref (add_message now r text meta) o1))
  end.

Definition add_agent_message := add_role_message "assistant".
Definition add_user_message := add_role_message "user".

Inductive ErrorSeverity : Type := WARNING | RECOVERABLE | FATAL.

Definition error_severity_value (s : ErrorSeverity) : string :=
  match s with
  | WARNING => "warning"
  | RECOVERABLE => "recoverable"
  | FATAL => "fatal"
  end.

(** [AgentError] of [agents/base.py]; [error_phase] is the value of its
    phase. *)
Record AgentError : Type := {
  error_message : string;
  error_severity : ErrorSeverity;
  error_phase : string;
  error_timestamp : datetime;
  error_context : value;
}.

Definition error_to_dict (e : AgentError) : value :=
  VDict [ ("message", VStr (error_message e));
          ("severity", VStr (error_severity_value (error_severity e)));
          ("phase", VStr (error_phase e));
          ("timestamp", VStr (isoformat (error_timestamp e)));
          ("context", error_context e) ].

(** [record_error]; [session.errors.append] needs a list. *)
Definition record_error (sid : string) (e : AgentError) (now : datetime)
    (o : Orchestrator) : Result unit * Orchestrator :=
  match fetch sid o with
  | (Raise x, o1) => (Raise x, o1)
  | (Ok None, o1) => (Ok tt, o1)
  | (Ok (Some ref), o1) =>
      match option_map errors (heap o1 !! ref) with
      | Some (VList l) =>
          let o2 := mutate ref (set_errors (VList (l ++ [error_to_dict e]))) o1 in
          let o3 :=
            mutate ref
              (add_message now "system" ("Error: " +:+ error_message e)
                 (Some (VDict [("severity",
                                VStr (error_severity_value (error_severity e)))])))
              o2 in
          let o4 :=
            match error_severity e with
            | FATAL =>
                mutate ref (fun s => set_phase (VStr "failed") (set_status "failed" s)) o3
            | _ => o3
            end in
          (Ok tt, save ref o4)
      | _ => (Raise AttributeError, o1)
      end
  end.

(** [complete_session]; [new_metrics] is [metrics.to_dict()] when metrics
    are passed. *)
Definition complete_session (sid : string) (outcome : string)
    (new_metrics : option value) (new_artifacts : option value)
    (now : datetime) (o : Orchestrator) : Result nat * Orchestrator :=
  match fetch sid o with
  | (Raise e, o1) => (Raise e, o1)
  | (Ok None, o1) => (Raise (not_found sid), o1)
  | (Ok (Some ref), o1) =>
      let o2 :=
        mutate ref (fun s =>
          set_result outcome
            (set_phase (VStr "completed")
               (set_status "completed" (set_completed_at now s)))) o1 in
      let o3 :=
        match new_metrics with
        | Some m => mutate ref (set_metrics m) o2
        | None => o2
        end in
      let o4 :=
        match new_artifacts with
        | Some a => if truthy_value a then mutate ref (set_artifacts a) o3 else o3
        | None => o3
        end in
      let o5 :=
        mutate ref
          (add_message now "system" ("Session completed: " +:+ outcome)
             (Some (VDict [("completed_at", VStr (isoformat now))]))) o4 in
      let o6 := with_active (delete sid) o5 in
      (Ok ref, save ref o6)
  end.

(** [fail_session]. *)
Definition fail_session (sid : string) (reason : string)
    (new_metrics : option value) (now : datetime) (o : Orchestrator)
  : Result nat * Orchestrator :=
  match fetch sid o with
  | (Raise e, o1) => (Raise e, o1)
  | (Ok None, o1) => (Raise (not_found sid), o1)
  | (Ok (Some ref), o1) =>
      let o2 :=
        mutate ref (fun s =>
          set_result ("Failed: " +:+ reason)
            (set_phase (VStr "failed")
               (set_status "failed" (set_completed_at now s)))) o1 in
      let o3 :=
        match new_metrics with
        | Some m => mutate ref (set_metrics m) o2
        | None => o2
        end in
      let o4 :=
        mutate ref
          (add_message now "system" ("Session failed: " +:+ reason)
             (Some (VDict [("completed_at", VStr (isoformat now))]))) o3 in
      let o5 := with_active (delete sid) o4 in
      (Ok ref, save ref o5)
  end.

(** [pause_session]. *)
Definition pause_session (sid : string) (now : datetime) (o : Orchestrator)
  : Result nat * Orchestrator :=
  match fetch sid o with
  | (Raise e, o1) => (Raise e, o1)
  | (Ok None, o1) => (Raise (not_found sid), o1)
  | (Ok (Some ref), o1) =>
      let o2 := mutate ref (set_status "paused") o1 in
      let o3 := mutate ref (add_message now "system" "Session paused" None) o2 in
      (Ok ref, save ref o3)
  end.

(** [resume_session]. *)
Definition resume_session (sid : string) (now : datetime) (o : Orchestrator)
  : Result nat * Orchestrator :=
  match load sid o with
  | (Raise e, o1) => (Raise e, o1)
  | (Ok None, o1) => (Raise (not_found sid), o1)
  | (Ok (Some ref), o1) =>
      match heap o1 !! ref with
      | None => (Raise (not_found sid), o1)
      | Some s =>
          if negb (status_in s ["paused"]) then
            (Raise (ValueError ("Session " +:+ sid +:+ " is not paused (status: "
                                +:+ format_value (status s) +:+ ")")), o1)
          else
            let o2 := mutate ref (set_status "running") o1 in
            let o3 := mutate ref (add_message now "system" "Session resumed" None) o2 in
            let o4 := with_active (insert sid ref) o3 in
            (Ok ref, save ref o4)
      end
  end.

(** The terminal states. *)
Definition is_terminal (s : SessionData) : bool :=
  status_in s ["completed"; "failed"; "cancelled"].

(** [SessionStore.delete]: the file and the cache entry go, the answer is
    always [True]. The orchestrator's table of active sessions is not the
    store's and stays as it is. *)
Definition delete_session (sid : string) (o : Orchestrator) : bool * Orchestrator :=
  (true, with_cache (delete sid) (with_disk (delete sid) o)).

(** [SessionOrchestrator.get_session]. *)
Definition get_session (sid : string) (o : Orchestrator)
  : Result (option nat) * Orchestrator :=
  load sid o.

End Parsing.

(** *** Notions and sample data of the statements *)

(** The call returned normally and the file of [sid] now holds [after]. *)
Definition stores {A : Type} (out : Result A * Orchestrator) (sid : string)
    (after : SessionData) : Prop :=
  (exists a, fst out = Ok a)
  /\ disk (snd out) !! sid = Some (Json (to_dict after)).

(** The call raised a [ValueError] and no file changed. *)
Definition rejects {A : Type} (out : Result A * Orchestrator) (before : Orchestrator) : Prop :=
  (exists msg, fst out = Raise (ValueError msg))
  /\ disk (snd out) = disk before.

(** [after] has one message more than [before], a message of this role and
    text. *)
Definition appended (r text : string) (before after : SessionData) : Prop :=
  exists m, messages after = messages before ++ [m]
            /\ role m = VStr r /\ content m = VStr text.

Definition at_ten : datetime := {| isoformat := "2024-05-01T10:00:00" |}.
Definition at_eleven : datetime := {| isoformat := "2024-05-01T11:00:00" |}.
Definition at_noon : datetime := {| isoformat := "2024-05-01T12:00:00" |}.

Section Samples.

#[local] Existing Instance example_parser.

(** The orchestrator after a session was created, started and completed. *)
Definition after_completion : Orchestrator :=
  snd (complete_session "s1" "Task completed successfully" None None at_eleven
         (snd (start_session "s1" at_ten
                 (snd (create_session "s1" at_ten "Fix the login page" None
                         empty_orchestrator))))).

Definition completed_session : SessionData :=
  {| session_id := VStr "s1";
     spec_id := VNone;
     task_description := VStr "Fix the login page";
     created_at := at_ten;
     started_at := Some at_ten;
     completed_at := Some at_eleven;
     status := VStr "completed";
     phase := VStr "completed";
     result := VStr "Task completed successfully";
     messages :=
       [ {| role := VStr "system";
            content := VStr "Session initialized for task: Fix the login page";
            timestamp := at_ten; metadata := VDict [] |};
         {| role := VStr "system"; content := VStr "Session started";
            timestamp := at_ten;
            metadata := VDict [("started_at", VStr "2024-05-01T10:00:00")] |};
         {| role := VStr "system";
            content := VStr "Session completed: Task completed successfully";
            timestamp := at_eleven;
            metadata := VDict [("completed_at", VStr "2024-05-01T11:00:00")] |} ];
     metrics := VDict [];
     artifacts := VDict [];
     errors := VList [] |}.




(** The orchestrator after a session was created and started. *)
Definition after_start : Orchestrator :=
  snd (start_session "s1" at_ten
         (snd (create_session "s1" at_ten "Fix the login page" None
                 empty_orchestrator))).

End Samples.

(** Every timestamp of the session is read back from its text, and the
    text of a start or completion time is not empty (as no text is that
    [isoformat] gives). *)
Definition optional_read_back `{IsoParser} (t : option datetime) : Prop :=
  match t with
  | Some t => isoformat t <> "" /\ read_back t
  | None => True
  end.

Definition session_read_back `{IsoParser} (s : SessionData) : Prop :=
  read_back (created_at s)
  /\ optional_read_back (started_at s)
  /\ optional_read_back (completed_at s)
  /\ Forall (fun m => read_back (timestamp m)) (messages s).

(** A new orchestrator over the same sessions directory: the files stay,
    the objects, the cache and the table of active sessions are gone. *)
Definition restart (o : Orchestrator) : Orchestrator :=
  {| disk := disk o; heap := ∅; next_ref := 0; cache := ∅; active := ∅ |}.

(** The session object a reference of the call's answer points to. *)
Definition answered (out : Result (option nat) * Orchestrator) : option SessionData :=
  match fst out with
  | Ok (Some ref) => heap (snd out) !! ref
  | _ => None
  end.

End Session.

(** * Theorems *)

(** ** Complexity assessment of the scenario task *)

Section ComplexityScenario.

Import Complexity.

(** The keyword counts behind the assessment: one critical keyword
    ("schema"), one multi-service keyword ("service"). *)
Lemma scenario_signals :
  signal_int (signals scenario_assessment) "critical_keywords" = 1
  /\ signal_int (signals scenario_assessment) "multi_service_keywords" = 1
  /\ signal_int (signals scenario_assessment) "complex_keywords" = 5
  /\ estimated_files scenario_assessment = 5
  /\ estimated_services scenario_assessment = 1.
Proof. vm_compute. repeat split. Qed.

(** "authentication" is one word, so the word-bounded pattern for
    auth0, okta, oauth and jwt finds nothing in it. *)
Lemma scenario_auth_pattern :
  bounded_search_any ["auth0"; "okta"; "oauth"; "jwt"] (lower scenario_task) = false.
Proof. vm_compute. reflexivity. Qed.

(** C5, as stated: the expected assessment (critical, impact analysis,
    infrastructure changes, integrations holding database, container and
    auth) is not the one the analyzer returns for the scenario task. *)
Lemma C5_scenario_is_not_critical :
  ~ (level_value (complexity scenario_assessment) = "critical"
     /\ needs_impact_analysis scenario_assessment = true
     /\ infrastructure_changes scenario_assessment = true
     /\ In "database" (external_integrations scenario_assessment)
     /\ In "container" (external_integrations scenario_assessment)
     /\ In "auth" (external_integrations scenario_assessment)).
Proof. vm_compute. intros [H _]. discriminate H. Qed.

(** C5, amended: for the scenario task the analyzer returns complexity
    "complex", with impact analysis needed, infrastructure changes detected,
    and exactly the integrations database and container. *)
Theorem C5_scenario_is_complex :
  level_value (complexity scenario_assessment) = "complex"
  /\ needs_impact_analysis scenario_assessment = true
  /\ infrastructure_changes scenario_assessment = true
  /\ external_integrations scenario_assessment = ["database"; "container"]
  /\ ~ In "auth" (external_integrations scenario_assessment).
Proof.
  vm_compute. repeat split.
  intros [H | [H | []]]; discriminate H.
Qed.

End ComplexityScenario.

(** ** Monotonicity of the impact severity *)

Section SeverityMonotone.

Import Impact.

Ltac split_ltb :=
  repeat match goal with
         | |- context [(?a <? ?b)%nat] => destruct (Nat.ltb_spec a b)
         | |- context [(?a =? ?b)%nat] => destruct (Nat.eqb_spec a b)
         | |- context [(?a <=? ?b)%nat] => destruct (Nat.leb_spec a b)
         end.

Lemma files_score_mono (l l' : list string) :
  length l <= length l' -> files_score l <= files_score l'.
Proof. unfold files_score. intros H. split_ltb; lia. Qed.

Lemma any_migration_insert (l1 l2 : list BreakingChange) (bc : BreakingChange) :
  any_migration (l1 ++ l2) = true -> any_migration (l1 ++ bc :: l2) = true.
Proof.
  unfold any_migration. rewrite !existsb_app. simpl.
  destruct (existsb migration_required l1); simpl; [reflexivity |].
  intros ->. apply orb_true_r.
Qed.

Lemma breaking_score_bound (l : list BreakingChange) : breaking_score l <= 4.
Proof. unfold breaking_score. destruct (any_migration l); split_ltb; lia. Qed.

Lemma breaking_score_insert (l1 l2 : list BreakingChange) (bc : BreakingChange) :
  breaking_score (l1 ++ l2) <= breaking_score (l1 ++ bc :: l2).
Proof.
  pose proof (any_migration_insert l1 l2 bc) as Hany.
  pose proof (breaking_score_bound (l1 ++ l2)) as Hbound.
  unfold breaking_score in *.
  destruct (any_migration (l1 ++ l2)).
  - rewrite Hany by reflexivity. lia.
  - destruct (any_migration (l1 ++ bc :: l2)); [exact Hbound |].
    rewrite !length_app. simpl. split_ltb; lia.
Qed.

Lemma rollback_score_files (l1 l2 : list string) (f : string)
    (bcs : list BreakingChange) :
  rollback_score (_assess_rollback_complexity (l1 ++ l2) bcs)
  <= rollback_score (_assess_rollback_complexity (l1 ++ f :: l2) bcs).
Proof.
  unfold _assess_rollback_complexity. rewrite !length_app. simpl.
  destruct (any_migration bcs); [reflexivity |].
  split_ltb; unfold rollback_score; simpl; lia.
Qed.

Lemma rollback_score_breaking (files : list string)
    (l1 l2 : list BreakingChange) (bc : BreakingChange) :
  rollback_score (_assess_rollback_complexity files (l1 ++ l2))
  <= rollback_score (_assess_rollback_complexity files (l1 ++ bc :: l2)).
Proof.
  pose proof (any_migration_insert l1 l2 bc) as Hany.
  unfold _assess_rollback_complexity.
  destruct (any_migration (l1 ++ l2)).
  - rewrite Hany by reflexivity. reflexivity.
  - destruct (any_migration (l1 ++ bc :: l2)).
    + split_ltb; unfold rollback_score; simpl; lia.
    + rewrite !length_app. simpl.
      split_ltb; unfold rollback_score; simpl; lia.
Qed.

Lemma severity_of_score_mono (a b : nat) :
  a <= b -> rank (severity_of_score a) <= rank (severity_of_score b).
Proof. unfold severity_of_score. intros H. split_ltb; simpl; lia. Qed.

(** C6: one more affected file, or one more breaking change, anywhere in
    the list and with everything else unchanged, never lowers the score of
    [_calculate_severity] nor the level it maps to; the same holds when the
    rollback complexity is recomputed from the longer lists, as [analyze]
    does. The level is the score mapped by >=10 critical, >=7 high,
    >=4 medium, >=1 low, else none. *)
Theorem C6_severity_is_monotone :
  forall (files1 files2 services gaps : list string)
         (bcs1 bcs2 : list BreakingChange)
         (f : string) (bc : BreakingChange) (rollback : string),
    severity_score (files1 ++ files2) services (bcs1 ++ bcs2) gaps rollback
    <= severity_score (files1 ++ f :: files2) services (bcs1 ++ bcs2) gaps rollback
    /\ severity_score (files1 ++ files2) services (bcs1 ++ bcs2) gaps rollback
       <= severity_score (files1 ++ files2) services (bcs1 ++ bc :: bcs2) gaps rollback
    /\ rank (fst (_calculate_severity (files1 ++ files2) services (bcs1 ++ bcs2) gaps rollback))
       <= rank (fst (_calculate_severity (files1 ++ f :: files2) services (bcs1 ++ bcs2) gaps rollback))
    /\ rank (fst (_calculate_severity (files1 ++ files2) services (bcs1 ++ bcs2) gaps rollback))
       <= rank (fst (_calculate_severity (files1 ++ files2) services (bcs1 ++ bc :: bcs2) gaps rollback))
    /\ rank (fst (analyze_severity (files1 ++ files2) services (bcs1 ++ bcs2) gaps))
       <= rank (fst (analyze_severity (files1 ++ f :: files2) services (bcs1 ++ bcs2) gaps))
    /\ rank (fst (analyze_severity (files1 ++ files2) services (bcs1 ++ bcs2) gaps))
       <= rank (fst (analyze_severity (files1 ++ files2) services (bcs1 ++ bc :: bcs2) gaps))
    /\ (forall score,
          severity_of_score score =
          if (10 <=? score)%nat then CRITICAL
          else if (7 <=? score)%nat then HIGH
          else if (4 <=? score)%nat then MEDIUM
          else if (1 <=? score)%nat then LOW
          else NONE).
Proof.
  intros.
  assert (Hfiles : files_score (files1 ++ files2)
                   <= files_score (files1 ++ f :: files2)).
  { apply files_score_mono. rewrite !length_app. simpl. lia. }
  pose proof (breaking_score_insert bcs1 bcs2 bc) as Hbreak.
  pose proof (rollback_score_files files1 files2 f (bcs1 ++ bcs2)) as Hroll1.
  pose proof (rollback_score_breaking (files1 ++ files2) bcs1 bcs2 bc) as Hroll2.
  unfold analyze_severity, _calculate_severity. simpl fst.
  repeat split;
    try (apply severity_of_score_mono); unfold severity_score; lia.
Qed.

End SeverityMonotone.

(** ** The review verdict *)

Section ReviewVerdict.

Import Criteria Reviewer.

Lemma severity_eqb_eq (a b : IssueSeverity) : severity_eqb a b = true <-> a = b.
Proof. destruct a, b; vm_compute; split; congruence. Qed.

Lemma count_zero_iff (sev : IssueSeverity) (l : list QAIssue) :
  count_severity sev l = 0 <-> (forall i, In i l -> severity i <> sev).
Proof.
  unfold count_severity. induction l as [| x l IH]; simpl.
  - split; [intros _ i [] | reflexivity].
  - destruct (severity_eqb (severity x) sev) eqn:E; simpl.
    + split; [discriminate |].
      intros H. exfalso. apply (H x); [now left |].
      now apply severity_eqb_eq.
    + rewrite IH. split.
      * intros H i [<- | Hi]; [| now apply H].
        intros Heq. apply severity_eqb_eq in Heq. congruence.
      * intros H i Hi. apply H. now right.
Qed.

Lemma review_passed_iff (fi ai : list QAIssue) (bc : list string)
    (cf : option (list string)) (sc : option string) (td : string) :
  let r := review fi ai bc cf sc td in
  passed r = true
  <-> count_severity CRITICAL (issues r) = 0 /\ count_severity HIGH (issues r) < 3.
Proof.
  unfold review, count_severity. cbn [passed issues].
  set (all := if truthy_list cf && negb (String.eqb td "") then _ else _).
  destruct (List.filter (fun i => severity_eqb (severity i) CRITICAL) all).
  - destruct (Nat.leb_spec 3
                (length (List.filter (fun i => severity_eqb (severity i) HIGH) all)))
      as [Hge | Hlt].
    + split; [discriminate | intros [_ H']; lia].
    + split; [intros _; split; [reflexivity | lia] | reflexivity].
  - split; [discriminate | intros [H _]; discriminate H].
Qed.

Lemma review_issues (fi ai : list QAIssue) (bc : list string)
    (cf : option (list string)) (sc : option string) (td : string) :
  issues (review fi ai bc cf sc td) = found_issues fi ai bc cf sc td.
Proof.
  unfold review, found_issues. cbn [issues].
  destruct (truthy_str sc && truthy_list cf),
           (truthy_list cf && negb (String.eqb td ""));
    rewrite ?app_nil_r, <- ?app_assoc; reflexivity.
Qed.

(** C2: the verdict of a run whose review does not raise is decided by the
    issues the review collected and by the counts the test runner read from
    the test output: "error" when the test runner raises, else "approved"
    exactly when no collected issue is critical, fewer than three are high
    and the counts agree, else "rejected"; a run whose review raises is
    "error". The counts are not the outcome of the tests: a Jest run of
    which one test fails prints a summary that the pattern of the Jest
    branch does not match (the search of the pytest branch finds the
    failure in that very output), the counts stay 0 of 0, and the run is
    approved; so is a run whose tests do not end within the timeout, while
    a pytest run with a failed test is rejected. *)
Theorem C2_failed_jest_run_is_approved :
  (forall (dir : SpecDir) (now : datetime) (session : Z)
          (fi ai : list QAIssue) (bc : list string)
          (cf : option (list string)) (sc : option string) (td : string)
          (env : TestEnvironment),
      let found := found_issues fi ai bc cf sc td in
      let answer := verdict dir now session (Ok fi) ai bc cf sc td env in
      match run_tests env with
      | Ok counts =>
          (answer = "approved"
           <-> (forall i, In i found -> severity i <> CRITICAL)
               /\ count_severity HIGH found < 3
               /\ all_passed counts = true)
          /\ (answer <> "approved" -> answer = "rejected")
      | Raise _ => answer = "error"
      end)
  /\ (forall (dir : SpecDir) (now : datetime) (session : Z) (e : Exn)
             (ai : list QAIssue) (bc : list string)
             (cf : option (list string)) (sc : option string) (td : string)
             (env : TestEnvironment),
         verdict dir now session (Raise e) ai bc cf sc td env = "error")
  /\ search_tests_line jest_summary = None
  /\ search_counted " failed" jest_summary = Some "1"
  /\ run_tests jest_project = Ok no_tests
  /\ verdict new_spec_dir {| isoformat := "2024-05-01T10:00:00" |} 1
       (Ok []) [] [] None None "" jest_project = "approved"
  /\ verdict new_spec_dir {| isoformat := "2024-05-01T10:00:00" |} 1
       (Ok []) [] [] None None "" slow_project = "approved"
  /\ verdict new_spec_dir {| isoformat := "2024-05-01T10:00:00" |} 1
       (Ok []) [] [] None None "" (pytest_project 2 1) = "rejected".
Proof.
  split; [| split; [reflexivity | repeat split; vm_compute; reflexivity]].
  intros dir now session fi ai bc cf sc td env found answer.
  pose proof (review_passed_iff fi ai bc cf sc td) as Hpass.
  cbv zeta in Hpass. rewrite review_issues in Hpass. fold found in Hpass.
  rewrite count_zero_iff in Hpass.
  unfold answer, verdict, run_qa_review.
  destruct (run_tests env) as [counts | e]; [| reflexivity].
  destruct (passed (review fi ai bc cf sc td)) eqn:Ep,
           (all_passed counts) eqn:Et; simpl; (split; [| try reflexivity]).
  - split; [| reflexivity]. intros _. destruct Hpass as [[H1 H2] _]; auto.
  - intros H. now contradiction H.
  - split; [discriminate |]. intros (_ & _ & H). discriminate H.
  - split; [discriminate |]. intros (H1 & H2 & _).
    destruct Hpass as [_ Hp].
    assert (false = true) as Habs by (apply Hp; split; assumption).
    discriminate Habs.
  - split; [discriminate |]. intros (_ & _ & H). discriminate H.
Qed.

(** A run of the theorem: the tests pass and the review finds one critical
    issue, so the run is not approved, and therefore rejected. *)
Lemma C2_failed_jest_run_is_approved_witness :
  verdict new_spec_dir {| isoformat := "2024-05-01T10:00:00" |} 1
    (Ok [leaked_key]) [] [] (Some ["src/config.py"]) None "" (pytest_project 2 0)
  = "rejected".
Proof.
  destruct C2_failed_jest_run_is_approved as [Hgeneral _].
  specialize (Hgeneral new_spec_dir {| isoformat := "2024-05-01T10:00:00" |} 1%Z
                [leaked_key] [] [] (Some ["src/config.py"]) None ""
                (pytest_project 2 0)).
  cbv zeta in Hgeneral.
  change (run_tests (pytest_project 2 0))
    with (Ok (unit_results 2 2)) in Hgeneral.
  destruct Hgeneral as [Happroved Hrejected].
  apply Hrejected. intros Habs. apply Happroved in Habs.
  destruct Habs as [Hcritical _].
  apply (Hcritical leaked_key); [now left | reflexivity].
Defined.

End ReviewVerdict.

(** ** Recurring issues *)

Section Recurring.

Import Loop.

Lemma count_of_bump (t t' : string) (counts : list (string * nat)) :
  count_of t (bump t' counts)
  = count_of t counts + (if String.eqb t' t then 1 else 0).
Proof.
  unfold count_of. induction counts as [| [k c] rest IH]; simpl.
  - destruct (String.eqb t' t); reflexivity.
  - destruct (String.eqb_spec k t') as [-> | Hne]; simpl.
    + destruct (String.eqb t' t); lia.
    + destruct (String.eqb_spec k t) as [-> | Hne'].
      * destruct (String.eqb_spec t' t) as [-> | _]; [congruence | lia].
      * exact IH.
Qed.

Lemma count_of_fold (t : string) (titles : list string) :
  forall counts,
    count_of t (fold_left (fun acc x => bump x acc) titles counts)
    = count_of t counts + count_occ string_dec titles t.
Proof.
  induction titles as [| x titles IH]; intros counts; simpl.
  - lia.
  - rewrite IH, count_of_bump.
    destruct (String.eqb_spec x t), (string_dec x t); try congruence; lia.
Qed.

Lemma bump_keys (k t : string) (counts : list (string * nat)) :
  In k (map fst (bump t counts)) <-> k = t \/ In k (map fst counts).
Proof.
  induction counts as [| [k' c] rest IH]; simpl.
  - split; [intros [<- | []]; now left | intros [-> | []]; now left].
  - destruct (String.eqb_spec k' t) as [-> | Hne]; simpl.
    + split; [tauto | intros [-> | H]; tauto].
    + rewrite IH. tauto.
Qed.

Lemma bump_NoDup (t : string) (counts : list (string * nat)) :
  List.NoDup (map fst counts) -> List.NoDup (map fst (bump t counts)).
Proof.
  induction counts as [| [k c] rest IH]; simpl; intros Hnd.
  - constructor; [intros [] | constructor].
  - inversion Hnd as [| ? ? Hnotin Hrest]; subst.
    destruct (String.eqb_spec k t) as [-> | Hne]; simpl.
    + constructor; assumption.
    + constructor; [| now apply IH].
      rewrite bump_keys. intros [-> | Hin]; [congruence | contradiction].
Qed.

Lemma fold_bump_NoDup (titles : list string) :
  forall counts,
    List.NoDup (map fst counts) ->
    List.NoDup (map fst (fold_left (fun acc x => bump x acc) titles counts)).
Proof.
  induction titles as [| x titles IH]; intros counts Hnd; simpl.
  - exact Hnd.
  - apply IH, bump_NoDup, Hnd.
Qed.

Lemma count_of_unique (t : string) (c : nat) (counts : list (string * nat)) :
  List.NoDup (map fst counts) -> In (t, c) counts -> count_of t counts = c.
Proof.
  unfold count_of. induction counts as [| [k c'] rest IH]; simpl; intros Hnd Hin.
  - contradiction.
  - inversion Hnd as [| ? ? Hnotin Hrest]; subst.
    destruct Hin as [Heq | Hin].
    + inversion Heq; subst. now rewrite String.eqb_refl.
    + destruct (String.eqb_spec k t) as [-> | Hne].
      * exfalso. apply Hnotin. apply in_map_iff. now exists (t, c).
      * now apply IH.
Qed.

Lemma count_of_found (t : string) (counts : list (string * nat)) :
  0 < count_of t counts -> In (t, count_of t counts) counts.
Proof.
  unfold count_of.
  destruct (find (fun tc => String.eqb (fst tc) t) counts) as [[k c] |] eqn:E.
  - intros _. apply find_some in E as [Hin Hk]. simpl in Hk.
    apply String.eqb_eq in Hk. now subst.
  - lia.
Qed.

Lemma insert_desc_In (x y : string * nat) (l : list (string * nat)) :
  In x (insert_desc y l) <-> x = y \/ In x l.
Proof.
  induction l as [| z l IH]; simpl.
  - split; [intros [<- | []]; now left | intros [-> | []]; now left].
  - destruct (snd y <? snd z)%nat; simpl; [rewrite IH |]; intuition congruence.
Qed.

Lemma sort_desc_In (x : string * nat) (l : list (string * nat)) :
  In x (sort_desc l) <-> In x l.
Proof.
  unfold sort_desc. induction l as [| y l IH]; simpl.
  - tauto.
  - rewrite insert_desc_In, IH. intuition congruence.
Qed.

Lemma recurring_iff (st : QALoopState) (title : string) :
  In title (map fst (get_recurring_issues st))
  <-> 3 <= occurrences title (history st).
Proof.
  unfold get_recurring_issues, occurrences, issue_counts.
  set (counts := fold_left _ _ _).
  assert (Hnd : List.NoDup (map fst counts))
    by (apply fold_bump_NoDup; constructor).
  assert (Hcount : count_of title counts
                   = count_occ string_dec (visited_titles (history st)) title).
  { unfold counts. rewrite count_of_fold. reflexivity. }
  rewrite <- Hcount. split.
  - intros Hin. apply in_map_iff in Hin as [[t c] [Ht Hin]]. simpl in Ht. subst t.
    apply sort_desc_In, filter_In in Hin as [Hin Hc]. cbn [snd] in Hc.
    rewrite (count_of_unique title c counts Hnd Hin).
    apply Nat.leb_le in Hc. exact Hc.
  - intros Hge. apply in_map_iff. exists (title, count_of title counts).
    split; [reflexivity |].
    apply sort_desc_In, filter_In. split.
    + apply count_of_found. lia.
    + cbn [snd]. apply Nat.leb_le. exact Hge.
Qed.

Lemma distinct_count (t : string) (l : list string) :
  distinct l = true ->
  count_occ string_dec l t = if existsb (String.eqb t) l then 1 else 0.
Proof.
  induction l as [| x l IH]; simpl; intros Hd; [reflexivity |].
  apply andb_true_iff in Hd as [Hx Hl]. apply negb_true_iff in Hx.
  specialize (IH Hl).
  destruct (string_dec x t) as [-> | Hne].
  - rewrite String.eqb_refl. simpl. rewrite IH, Hx. reflexivity.
  - destruct (String.eqb_spec t x) as [-> | _]; [congruence |]. exact IH.
Qed.

Lemma occurrences_records (title : string) (hist : list IterationRecord) :
  no_repeats hist = true -> occurrences title hist = records_with title hist.
Proof.
  unfold occurrences, records_with, visited_titles, no_repeats.
  induction hist as [| r hist IH]; simpl; intros Hd; [reflexivity |].
  apply andb_true_iff in Hd as [Hr Hh].
  rewrite count_occ_app, (IH Hh), (distinct_count title _ Hr).
  destruct (existsb (String.eqb title) (record_titles r)); simpl; lia.
Qed.

(** C3, as stated: here a title that appears in exactly two iteration
    records is classified as recurring and triggers escalation. *)
Lemma C3_two_records_escalate :
  records_with "Same Issue" (history twice_then_once) = 2
  /\ get_recurring_issues twice_then_once = [("Same Issue", 3)]
  /\ _should_escalate twice_then_once MAX_CONSECUTIVE_ERRORS = true.
Proof. vm_compute. repeat split. Qed.

(** C3, amended: a title is recurring exactly when it was found at least
    three times over the whole history, every issue counting, also several
    of one record; the loop escalates exactly when some title is recurring
    or the consecutive errors reached their limit. When no record lists a
    title twice, the count is the number of records the title appears in,
    so a title of exactly two records is not recurring and one of three
    is. *)
Theorem C3_recurring_counts_occurrences :
  forall (st : QALoopState) (title : string) (limit : nat),
    (In title (map fst (get_recurring_issues st))
     <-> 3 <= occurrences title (history st))
    /\ (_should_escalate st limit = true
        <-> (exists t, 3 <= occurrences t (history st))
            \/ limit <= consecutive_errors st)
    /\ (no_repeats (history st) = true ->
        occurrences title (history st) = records_with title (history st)
        /\ (records_with title (history st) = 2 ->
            ~ In title (map fst (get_recurring_issues st)))
        /\ (records_with title (history st) = 3 ->
            In title (map fst (get_recurring_issues st)))).
Proof.
  intros st title limit. split; [apply recurring_iff | split].
  - unfold _should_escalate.
    destruct (get_recurring_issues st) as [| [t c] rest] eqn:E.
    + split.
      * intros H. right. now apply Nat.leb_le.
      * intros [[t Ht] | H]; [| now apply Nat.leb_le].
        apply recurring_iff in Ht. rewrite E in Ht. contradiction.
    + split; [| reflexivity]. intros _. left. exists t.
      apply recurring_iff. rewrite E. now left.
  - intros Hd. pose proof (occurrences_records title _ Hd) as Heq.
    split; [exact Heq | split]; intros Hn; rewrite recurring_iff, Heq, Hn; lia.
Qed.

Lemma C3_recurring_counts_occurrences_witness :
  no_repeats (history three_records) = true
  /\ occurrences "Same Issue" (history three_records) = 3
  /\ In "Same Issue" (map fst (get_recurring_issues three_records)).
Proof.
  assert (Hd : no_repeats (history three_records) = true) by reflexivity.
  destruct (C3_recurring_counts_occurrences three_records "Same Issue" 3)
    as (_ & _ & Hrec).
  destruct (Hrec Hd) as (Hocc & _ & Hthree).
  split; [exact Hd | split].
  - rewrite Hocc. reflexivity.
  - apply Hthree. reflexivity.
Defined.

End Recurring.

(** ** The fix phase *)

Section AutoApply.

Import Criteria Fixer.

(** C4, on the code: with auto_apply on and the default threshold 0.7 the
    fix generated for the debug statement is a DELETE fix of confidence 0.8
    without fixed code; [fix_issues] applies a fix only when its fixed code
    is non-empty, so the fix is skipped, line 3 stays in the file and no fix
    is applied; the sign-off is still rewritten to fixes_applied with
    ready_for_qa_revalidation. Handed to [_apply_fix] directly, the same fix
    does delete the line. *)
Theorem C4_debug_statement_is_not_deleted :
  exists generated : Fix,
    generate_fix scenario_files debug_issue = Ok generated
    /\ let run := fixer_run [debug_issue] true in
       strategy generated = DELETE
       /\ confidence generated = 80
       /\ fixed_code generated = None
       /\ run_status run = "fixed"
       /\ fixes_applied (run_result run) = []
       /\ fixes_skipped (run_result run) = [generated]
       /\ run_files run !! "src/bad.py" = Some bad_py
       /\ line_at (splitlines bad_py) 3 = Some debug_line
       /\ option_map d_status (stored_signoff (run_dir run))
          = Some (Some "fixes_applied")
       /\ option_map d_ready_for_qa_revalidation (stored_signoff (run_dir run))
          = Some (Some true)
       /\ fst (fst (_apply_fix scenario_files generated)) = true
       /\ snd (_apply_fix scenario_files generated) !! "src/bad.py"
          = Some ("import os" +:+ LF +:+ "value = os.getcwd()" +:+ LF).
Proof.
  eexists. split; [lazy; reflexivity |]. vm_compute. repeat split.
Qed.

End AutoApply.

(** *** Sign-off after the fix phase *)

Section FixPhase.

Import Criteria Fixer.

Context {parser : IsoParser}.

Lemma fix_issues_result (auto : bool) (threshold : nat) (files : gmap string string)
    (dir : option SpecDir) (found : list QAIssue)
    (result : FixResult) (files' : gmap string string) (dir' : option SpecDir) :
  fix_issues auto threshold files dir found = Ok (result, files', dir') ->
  List.filter is_critical (fixes_failed result) = [] ->
  success result = true /\ ready_for_revalidation result = true.
Proof.
  unfold fix_issues.
  destruct (generate_fixes files found) as [fixes | e]; [| discriminate].
  cbn [bind]. cbv zeta.
  set (acc := fold_left _ _ _).
  destruct (List.filter is_critical (failed_now acc)) as [| f rest] eqn:E;
    intros Hrun; injection Hrun as <- _ _;
    cbn [fixes_failed success ready_for_revalidation]; intros H.
  - split; reflexivity.
  - rewrite E in H. discriminate H.
Qed.

(** C10, amended. When there is no sign-off or its issue list is empty, the
    fix phase answers "error" with the message "No issues found to fix" and
    leaves the files and the sign-off as they were. For a sign-off with a
    non-empty issue list for which [fix_issues] returns a result where no
    critical fix failed to apply, the fix phase answers "fixed" with
    success and ready_for_revalidation, and overwrites the sign-off with
    status fixes_applied, ready_for_qa_revalidation and the same session
    number, whatever the number of fixes applied. *)
Theorem C10_signoff_after_fix_phase :
  forall (now : datetime) (files : gmap string string)
         (dir : SpecDir) (session : Z) (auto : bool),
    let run := run_qa_fixer now files dir session auto in
    (option_map issues_found (get_qa_signoff_status now dir) = None
     \/ option_map issues_found (get_qa_signoff_status now dir) = Some []
     -> run_status run = "error"
        /\ message (run_result run) = "No issues found to fix"
        /\ success (run_result run) = false
        /\ ready_for_revalidation (run_result run) = false
        /\ run_files run = files
        /\ run_dir run = dir)
    /\ (forall (signoff : QASignoff) (result : FixResult)
               (files' : gmap string string) (dir' : option SpecDir),
           get_qa_signoff_status now dir = Some signoff ->
           issues_found signoff <> [] ->
           fix_issues auto default_min_confidence files (Some dir)
             (issues_found signoff) = Ok (result, files', dir') ->
           List.filter is_critical (fixes_failed result) = [] ->
           run_status run = "fixed"
           /\ run_result run = result
           /\ success result = true
           /\ ready_for_revalidation result = true
           /\ run_files run = files'
           /\ (exists d,
                  stored_signoff (run_dir run) = Some d
                  /\ d_status d = Some "fixes_applied"
                  /\ d_ready_for_qa_revalidation d = Some true
                  /\ d_qa_session d = Some (qa_session signoff))).
Proof.
  intros now files dir session auto run. split.
  - unfold run, run_status, run_result, run_files, run_dir, run_qa_fixer.
    destruct (get_qa_signoff_status now dir) as [signoff |]; cbn [option_map].
    + intros [Hnone | Hempty]; [discriminate |].
      injection Hempty as ->. repeat split.
    + intros _. repeat split.
  - intros signoff result files' dir' Hload Hsome Hfix Hcrit.
    destruct (fix_issues_result _ _ _ _ _ _ _ _ Hfix Hcrit) as [Hok Hready].
    unfold run, run_status, run_result, run_files, run_dir, run_qa_fixer.
    rewrite Hload.
    destruct (issues_found signoff) as [| i rest] eqn:Efound; [congruence |].
    rewrite Hfix, Hready. cbn [fst snd].
    repeat split; try assumption.
    eexists. split; [reflexivity |]. repeat split.
Qed.

End FixPhase.

Section FixPhaseRuns.

Import Criteria Fixer.

#[local] Existing Instance example_parser.

(** C10, as stated: for the empty issue list no critical fix fails, yet the
    fix phase answers "error" without success and leaves the sign-off as it
    was. *)
Lemma C10_empty_issue_list :
  option_map issues_found
    (get_qa_signoff_status {| isoformat := "2024-05-01T10:05:00" |} nothing_found)
  = Some []
  /\ (exists (result : FixResult) (files' : gmap string string)
             (dir' : option SpecDir),
         fix_issues true default_min_confidence scenario_files
           (Some nothing_found) [] = Ok (result, files', dir')
         /\ List.filter is_critical (fixes_failed result) = [])
  /\ run_status (fixer_run [] true) = "error"
  /\ success (run_result (fixer_run [] true)) = false
  /\ ready_for_revalidation (run_result (fixer_run [] true)) = false
  /\ run_dir (fixer_run [] true) = nothing_found.
Proof.
  split; [vm_compute; reflexivity |].
  split; [do 3 eexists; split; [lazy; reflexivity | reflexivity] |].
  vm_compute. repeat split.
Qed.

(** The theorem at a sign-off whose only issue gets a MANUAL fix: nothing
    is applied, the fix phase answers "fixed" and the sign-off says
    fixes_applied. *)
Lemma C10_signoff_after_fix_phase_witness :
  fixes_applied (run_result (fixer_run [todo_issue] true)) = []
  /\ run_status (fixer_run [todo_issue] true) = "fixed"
  /\ success (run_result (fixer_run [todo_issue] true)) = true
  /\ option_map d_status (stored_signoff (run_dir (fixer_run [todo_issue] true)))
     = Some (Some "fixes_applied").
Proof.
  split; [vm_compute; reflexivity |].
  assert (Hload : get_qa_signoff_status {| isoformat := "2024-05-01T10:05:00" |}
                    (seeded_dir [todo_issue])
                  = Some {| status := REJECTED;
                            timestamp := {| isoformat := "2024-05-01T10:00:00" |};
                            qa_session := 1;
                            issues_found := [todo_issue];
                            test_results := None;
                            verified_by := "qa_agent";
                            Criteria.ready_for_revalidation := false |})
    by (vm_compute; reflexivity).
  destruct (fix_issues true default_min_confidence scenario_files
              (Some (seeded_dir [todo_issue])) [todo_issue])
    as [[[result files'] dir'] | e] eqn:Efix; [| vm_compute in Efix; discriminate].
  destruct (C10_signoff_after_fix_phase {| isoformat := "2024-05-01T10:05:00" |}
              scenario_files (seeded_dir [todo_issue]) 1 true) as [_ Hfixed].
  destruct (Hfixed _ result files' dir' Hload) as (Hstatus & _ & Hok & _ & _ & Hd).
  - discriminate.
  - exact Efix.
  - vm_compute in Efix. injection Efix as <- _ _. reflexivity.
  - split; [exact Hstatus |]. split.
    + vm_compute in Efix. injection Efix as <- _ _. reflexivity.
    + destruct Hd as (d & Hstored & Hst & _).
      unfold fixer_run. rewrite Hstored. cbn [option_map]. now rewrite Hst.
Defined.

End FixPhaseRuns.

(** ** Retrying a push *)

Section PushRetry.

Import Worktree.

(** *** The loop of [_with_retry] *)

Section RetryLoop.

Context {T : Type}.
Variable operation : nat -> Attempt T.
Variable max_retries : nat.
Variable test : string -> bool.

Lemma backoff_step (from count : nat) :
  [Sleep (2 ^ (from - 1))] ++ backoff (S from) count = backoff from (S count).
Proof. reflexivity. Qed.

Lemma retry_loop_spec :
  forall (remaining attempt : nat) (last_error : string) (log : list RetryEvent),
    attempt + remaining = S max_retries ->
    1 <= remaining ->
    let run :=
      retry_loop operation max_retries (Some test) false remaining attempt
        last_error log in
    attempt <= calls run <= max_retries
    /\ events run = log ++ backoff attempt (calls run - attempt)
    /\ (forall k, attempt <= k < calls run -> worth_retrying test (operation k) = true)
    /\ (calls run < max_retries -> worth_retrying test (operation (calls run)) = false)
    /\ returned run = final (operation (calls run)).
Proof.
  induction remaining as [| remaining IH]; intros attempt last_error log Hsum Hpos;
    [lia |].
  cbn [retry_loop].
  assert (Hstop :
    forall a, operation attempt = a ->
      (attempt < max_retries -> worth_retrying test a = false) ->
      let run := {| returned := final a; events := log; calls := attempt |} in
      attempt <= calls run <= max_retries
      /\ events run = log ++ backoff attempt (calls run - attempt)
      /\ (forall k, attempt <= k < calls run -> worth_retrying test (operation k) = true)
      /\ (calls run < max_retries -> worth_retrying test (operation (calls run)) = false)
      /\ returned run = final (operation (calls run))).
  { intros a Ha Hworth. cbn [calls events returned]. rewrite Ha.
    replace (attempt - attempt) with 0 by lia.
    repeat split; try lia; try assumption.
    unfold backoff. simpl. now rewrite app_nil_r. }
  assert (Hnext :
    forall error, worth_retrying test (operation attempt) = true ->
      attempt < max_retries ->
      let run :=
        retry_loop operation max_retries (Some test) false remaining (S attempt)
          error (log ++ between_attempts false attempt error) in
      attempt <= calls run <= max_retries
      /\ events run = log ++ backoff attempt (calls run - attempt)
      /\ (forall k, attempt <= k < calls run -> worth_retrying test (operation k) = true)
      /\ (calls run < max_retries -> worth_retrying test (operation (calls run)) = false)
      /\ returned run = final (operation (calls run))).
  { intros error Hworth Hlt.
    destruct (IH (S attempt) error (log ++ between_attempts false attempt error)
                ltac:(lia) ltac:(lia))
      as (Hcalls & Hevents & Hbefore & Hlast & Hret).
    cbv zeta. repeat split; try lia; try assumption.
    - rewrite Hevents. unfold between_attempts in *. cbn [app] in *.
      rewrite <- app_assoc, backoff_step. f_equal. f_equal. lia.
    - intros k Hk. destruct (Nat.eq_dec k attempt) as [-> | Hne];
        [assumption | apply Hbefore; lia]. }
  destruct (operation attempt) as [[|] result error |] eqn:Eop.
  - apply (Hstop _ eq_refl). reflexivity.
  - cbn [worth_retrying] in Hnext.
    destruct (Nat.ltb_spec attempt max_retries) as [Hlt | Hge]; cbn [andb].
    + destruct (test error) eqn:Etest.
      * apply Hnext; [reflexivity | assumption].
      * apply (Hstop _ eq_refl). intros _. exact Etest.
    + apply (Hstop _ eq_refl). lia.
  - destruct (Nat.ltb_spec attempt max_retries) as [Hlt | Hge].
    + apply Hnext; [reflexivity | assumption].
    + apply (Hstop _ eq_refl). lia.
Qed.

End RetryLoop.

(** *** The push *)

Lemma worth_retrying_push (info : WorktreeInfo) (p : PushProcess) :
  worth_retrying _is_retryable_network_error (do_push info p) = retried_after p.
Proof.
  destruct p as [rc stderr | |]; cbn [do_push retried_after worth_retrying].
  - destruct (rc =? 0)%Z; reflexivity.
  - reflexivity.
  - vm_compute. reflexivity.
Qed.

Lemma push_branch_run (info : WorktreeInfo) (spec : string) (force : bool)
    (git : list string -> nat -> PushProcess) :
  snd (push_branch (Some info) spec force git)
  = _with_retry (push_operation info force git) 3
      (Some _is_retryable_network_error) false.
Proof.
  unfold push_branch. fold (push_operation info force git).
  destruct (returned _) as [[r |] last_error]; [reflexivity |].
  destruct (String.eqb last_error "Operation timed out"); reflexivity.
Qed.

Lemma push_branch_record (info : WorktreeInfo) (spec : string) (force : bool)
    (git : list string -> nat -> PushProcess) :
  fst (push_branch (Some info) spec force git)
  = push_record info
      (returned (_with_retry (push_operation info force git) 3
                   (Some _is_retryable_network_error) false)).
Proof.
  unfold push_branch, push_record. fold (push_operation info force git).
  destruct (returned _) as [[r |] last_error]; [reflexivity |].
  destruct (String.eqb last_error "Operation timed out"); reflexivity.
Qed.

(** C7, amended: [push_branch] makes between one and three attempts; before
    each further attempt it sleeps 2^(attempt-1) seconds; a failed attempt is
    followed by another exactly when attempts are left and the push
    subprocess timed out or its diagnostic holds, in any letter case, one of
    connection, network, timeout, reset, refused (an HTTP 5xx status alone
    does not count); the call always returns a record, which on failure has
    success=false and an error message: "Push timed out after 3 attempts."
    when the last attempt timed out or left the very diagnostic "Operation
    timed out", "Failed to push branch: git executable not found" when git
    was not found, else "Failed to push branch: " followed by the
    diagnostic. *)
Theorem C7_push_retry_policy :
  forall (info : WorktreeInfo) (spec : string) (force : bool)
         (git : list string -> nat -> PushProcess),
    let attempt := git (push_args info force) in
    let outcome := fst (push_branch (Some info) spec force git) in
    let run := snd (push_branch (Some info) spec force git) in
    (1 <= calls run <= 3)
    /\ events run = map (fun k => Sleep (2 ^ (k - 1))) (seq 1 (calls run - 1))
    /\ (forall k, 1 <= k < calls run -> retried_after (attempt k) = true)
    /\ (calls run < 3 -> retried_after (attempt (calls run)) = false)
    /\ success outcome = succeeded (attempt (calls run))
    /\ (success outcome = false ->
        error outcome
        = Some match attempt (calls run) with
               | PushTimedOut => "Push timed out after 3 attempts."
               | Exited _ stderr =>
                   if String.eqb stderr "Operation timed out"
                   then "Push timed out after 3 attempts."
                   else "Failed to push branch: " +:+ stderr
               | GitNotFound => "Failed to push branch: git executable not found"
               end).
Proof.
  intros info spec force git attempt outcome run.
  assert (Hrun : run = _with_retry (push_operation info force git) 3
                         (Some _is_retryable_network_error) false)
    by apply push_branch_run.
  destruct (retry_loop_spec (push_operation info force git) 3
              _is_retryable_network_error 3 1 "" [] eq_refl ltac:(lia))
    as (Hcalls & Hevents & Hbefore & Hlast & Hret).
  fold (_with_retry (push_operation info force git) 3
          (Some _is_retryable_network_error) false) in Hcalls, Hevents, Hbefore, Hlast, Hret.
  rewrite <- Hrun in Hcalls, Hevents, Hbefore, Hlast, Hret.
  unfold push_operation in Hbefore, Hlast, Hret.
  fold attempt in Hbefore, Hlast, Hret.
  split; [exact Hcalls |]. split; [exact Hevents |].
  split; [intros k Hk; rewrite <- (worth_retrying_push info); now apply Hbefore |].
  split; [intros Hk; rewrite <- (worth_retrying_push info); now apply Hlast |].
  assert (Hout : outcome = push_record info (returned run)).
  { unfold outcome. rewrite push_branch_record, Hrun. reflexivity. }
  rewrite Hout, Hret. clear Hout Hret. unfold push_record.
  destruct (attempt (calls run)) as [rc stderr | |] eqn:Elast;
    cbn [do_push succeeded].
  - destruct (rc =? 0)%Z eqn:Erc; cbn [final].
    + split; [reflexivity | discriminate].
    + destruct (String.eqb stderr "Operation timed out");
        (split; [reflexivity |]); intros _; reflexivity.
  - cbn [final]. split; [reflexivity |]. intros _. reflexivity.
  - cbn [final]. split; [reflexivity |]. intros _. reflexivity.
Qed.

(** The theorem at two pushes: one that fails twice on the network and
    then goes through, and one that git ends at once with the diagnostic
    "Operation timed out", which is reported as a timeout after three
    attempts although it was the only one. *)
Lemma C7_push_retry_policy_witness :
  calls (snd (push_branch (Some sample_info) "001-login" false flaky_network)) = 3
  /\ retried_after (flaky_network (push_args sample_info false) 2) = true
  /\ calls (snd (push_branch (Some sample_info) "001-login" false
                   (fun _ _ => Exited 1 "Operation timed out"))) = 1
  /\ error (fst (push_branch (Some sample_info) "001-login" false
                   (fun _ _ => Exited 1 "Operation timed out")))
     = Some "Push timed out after 3 attempts.".
Proof.
  assert (Hcalls : calls (snd (push_branch (Some sample_info) "001-login" false
                                  flaky_network)) = 3)
    by (vm_compute; reflexivity).
  assert (Hone : calls (snd (push_branch (Some sample_info) "001-login" false
                               (fun _ _ => Exited 1 "Operation timed out"))) = 1)
    by (vm_compute; reflexivity).
  split; [exact Hcalls |].
  destruct (C7_push_retry_policy sample_info "001-login" false flaky_network)
    as (_ & _ & Hbefore & _).
  split; [apply Hbefore; rewrite Hcalls; lia |].
  split; [exact Hone |].
  destruct (C7_push_retry_policy sample_info "001-login" false
              (fun _ _ => Exited 1 "Operation timed out"))
    as (_ & _ & _ & _ & _ & Herror).
  rewrite Herror; [reflexivity |]. vm_compute. reflexivity.
Defined.

(** C7, as stated: a push failing with an HTTP 5xx diagnostic is not tried
    again, and a push whose subprocess timed out is tried again although its
    diagnostic, "Operation timed out", holds none of the five terms and no
    HTTP 5xx. *)
Lemma C7_retry_is_not_by_diagnostic :
  _is_retryable_http_error http_503 = true
  /\ calls (snd (push_branch (Some sample_info) "001-login" false
                   (fun _ _ => Exited 128 http_503))) = 1
  /\ events (snd (push_branch (Some sample_info) "001-login" false
                    (fun _ _ => Exited 128 http_503))) = []
  /\ _is_retryable_network_error "Operation timed out" = false
  /\ _is_retryable_http_error "Operation timed out" = false
  /\ calls (snd (push_branch (Some sample_info) "001-login" false
                   (fun _ _ => PushTimedOut))) = 3
  /\ events (snd (push_branch (Some sample_info) "001-login" false
                    (fun _ _ => PushTimedOut))) = [Sleep 1; Sleep 2].
Proof. vm_compute. repeat split. Qed.

End PushRetry.

(** ** Worktree creation under a namespace conflict *)

Section NamespaceConflict.

Import Worktree.

Lemma append_assoc (a b c : string) : (a +:+ b) +:+ c = a +:+ (b +:+ c).
Proof.
  induction a as [| x a IH]; [reflexivity |].
  change (String x ((a +:+ b) +:+ c) = String x (a +:+ (b +:+ c))).
  f_equal. exact IH.
Qed.

(** The message names the blocking branch first and ends with the command
    that renames it. *)
Lemma conflict_message_shape (spec : string) :
  String.prefix "Branch 'claude-god-code' exists"
    (conflict_message "claude-god-code" (get_branch_name spec) spec) = true
  /\ exists before,
       conflict_message "claude-god-code" (get_branch_name spec) spec
       = before +:+ "git branch -m claude-god-code claude-god-code-backup".
Proof.
  split; [reflexivity |].
  exists ("Branch 'claude-god-code' exists and blocks creating 'claude-god-code/"
          +:+ spec +:+ "'." +:+ LF +:+ LF
          +:+ "Git branch names work like file paths - a branch named 'claude-god-code' prevents"
          +:+ LF
          +:+ "creating branches under 'claude-god-code/' (like 'claude-god-code/"
          +:+ spec +:+ "')." +:+ LF +:+ LF
          +:+ "Fix: Rename the conflicting branch:" +:+ LF +:+ "  ").
  unfold conflict_message, get_branch_name.
  rewrite !append_assoc. reflexivity.
Qed.

(** C8: when [git rev-parse --verify claude-god-code] succeeds, that is, a
    plain branch named like the namespace prefix exists, [create_worktree]
    fails for every spec slug with a [WorktreeError] whose message names the
    branch and ends with the rename command; the only git command issued is
    that read-only [rev-parse], so the repository and the file system are as
    before and the worktree directory is not created. *)
Theorem C8_namespace_conflict :
  forall (World : Type)
         (run_git : list string -> string -> World -> CompletedProcess * World)
         (path_exists : string -> World -> bool)
         (mgr : Manager) (spec : string) (w : World),
    (forall ref cwd w0, snd (run_git ["rev-parse"; "--verify"; ref] cwd w0) = w0) ->
    returncode (fst (run_git ["rev-parse"; "--verify"; "claude-god-code"]
                       (project_dir mgr) w)) = 0%Z ->
    let out := create_worktree World run_git path_exists mgr spec w in
    let msg := conflict_message "claude-god-code" (get_branch_name spec) spec in
    fst out = Raise (WorktreeError msg)
    /\ world (snd out) = w
    /\ commands (snd out) = [["rev-parse"; "--verify"; "claude-god-code"]]
    /\ path_exists (get_worktree_path World path_exists mgr spec w) (world (snd out))
       = path_exists (get_worktree_path World path_exists mgr spec w) w
    /\ String.prefix "Branch 'claude-god-code' exists" msg = true
    /\ (exists before,
          msg = before +:+ "git branch -m claude-god-code claude-god-code-backup").
Proof.
  intros World run_git path_exists mgr spec w Hreadonly Hfound out msg.
  assert (Hout : out = (Raise (WorktreeError msg),
                        {| world := w;
                           commands := [["rev-parse"; "--verify"; "claude-god-code"]];
                           printed := [] |})).
  { unfold out, create_worktree, _check_branch_namespace_conflict, _run_git.
    cbn [world commands printed app].
    specialize (Hreadonly "claude-god-code" (project_dir mgr) w).
    destruct (run_git ["rev-parse"; "--verify"; "claude-god-code"]
                (project_dir mgr) w) as [cp w'].
    cbn [fst snd] in Hreadonly, Hfound. subst w'. rewrite Hfound.
    reflexivity. }
  rewrite Hout. cbn [fst snd world commands].
  destruct (conflict_message_shape spec) as [Hprefix Hsuffix].
  repeat split; assumption.
Qed.

Lemma repo_rev_parse_reads (ref cwd : string) (r : Repo) :
  snd (repo_git ["rev-parse"; "--verify"; ref] cwd r) = r.
Proof.
  unfold repo_git.
  destruct (mem ref (branches r) || mem ref (remote_refs r)); reflexivity.
Qed.

Lemma C8_namespace_conflict_witness :
  world (snd (create_worktree Repo repo_git repo_path_exists sample_manager
                "spec-x" blocked_repo)) = blocked_repo
  /\ repo_path_exists "/repo/.claude-god-code/worktrees/specs/spec-x"
       (world (snd (create_worktree Repo repo_git repo_path_exists sample_manager
                      "spec-x" blocked_repo))) = false.
Proof.
  destruct (C8_namespace_conflict Repo repo_git repo_path_exists sample_manager
              "spec-x" blocked_repo repo_rev_parse_reads eq_refl)
    as (_ & Hworld & _).
  split; [exact Hworld |]. rewrite Hworld. reflexivity.
Defined.

(** Without the blocking branch the same call creates branch and
    directory. *)
Lemma create_worktree_unblocked :
  let out :=
    create_worktree Repo repo_git repo_path_exists sample_manager "spec-x"
      {| branches := ["main"]; remote_refs := []; worktree_dirs := [];
         online := true |} in
  branches (world (snd out)) = ["main"; "claude-god-code/spec-x"]
  /\ worktree_dirs (world (snd out))
     = ["/repo/.claude-god-code/worktrees/specs/spec-x"].
Proof. vm_compute. split; reflexivity. Qed.

End NamespaceConflict.

(** ** Sessions in a terminal state *)

Section TerminalSessions.

Import Session.

Context {parser : IsoParser}.

(** *** The store under the operations *)

Lemma heap_mutate (ref : nat) (f : SessionData -> SessionData)
    (o : Orchestrator) (s : SessionData) :
  heap o !! ref = Some s -> heap (mutate ref f o) !! ref = Some (f s).
Proof.
  intros H. unfold mutate, with_heap. cbn [heap].
  rewrite lookup_alter_eq, H. reflexivity.
Qed.

Lemma disk_save (ref : nat) (o : Orchestrator) (s : SessionData) (sid : string) :
  heap o !! ref = Some s -> session_id s = VStr sid ->
  disk (save ref o) !! sid = Some (Json (to_dict s)).
Proof.
  intros H Hid. unfold save. rewrite H, Hid. cbn [format_value].
  unfold with_cache, with_disk. cbn [disk]. apply lookup_insert_eq.
Qed.

Lemma load_keeps_disk (sid : string) (o : Orchestrator) :
  disk (snd (load sid o)) = disk o.
Proof.
  unfold load.
  destruct (cache o !! sid); [reflexivity |].
  destruct (disk o !! sid) as [[| text | data] |]; try reflexivity.
  destruct (from_dict data) as [s | e]; [reflexivity |].
  destruct e; reflexivity.
Qed.

Lemma terminal_status (s : SessionData) :
  is_terminal s = true ->
  status s = VStr "completed" \/ status s = VStr "failed"
  \/ status s = VStr "cancelled".
Proof.
  unfold is_terminal, status_in. destruct (status s) as [| | | | st | |];
    try discriminate.
  cbn [existsb]. rewrite !orb_true_iff, !String.eqb_eq.
  intros [-> | [-> | [-> | Hno]]]; auto. discriminate Hno.
Qed.

Lemma terminal_not_startable (s : SessionData) :
  is_terminal s = true -> status_in s ["pending"; "paused"] = false.
Proof.
  intros H. unfold status_in.
  destruct (terminal_status s H) as [-> | [-> | ->]]; reflexivity.
Qed.

Lemma terminal_not_paused (s : SessionData) :
  is_terminal s = true -> status_in s ["paused"] = false.
Proof.
  intros H. unfold status_in.
  destruct (terminal_status s H) as [-> | [-> | ->]]; reflexivity.
Qed.

(** *** What an operation did to a session *)

Lemma appended_changes_record (r text : string) (before after : SessionData) :
  appended r text before after -> to_dict after <> to_dict before.
Proof.
  intros (m & Hm & _) Heq. unfold to_dict in Heq.
  assert (Hlen : length (map message_to_dict (messages after))
                 = length (map message_to_dict (messages before)))
    by (f_equal; congruence).
  rewrite !length_map, Hm, length_app in Hlen. simpl in Hlen. lia.
Qed.

Ltac run_operation Hfetch :=
  rewrite Hfetch;
  eexists; split;
  [ split;
    [ eexists; reflexivity
    | cbn [snd]; eapply disk_save;
      [ unfold with_active; cbn [heap]; repeat eapply heap_mutate; eassumption
      | assumption ] ]
  | ].

(** C1, amended: the only operations that refuse a session in a terminal
    state are start and resume, which raise a [ValueError] and leave every
    session file as it was. pause, complete, fail, update_phase,
    append_agent_message, append_user_message and record_error check no
    status: on a terminal session each returns normally and rewrites the
    session file with the operation's effect (pause sets status "paused",
    complete "completed", fail "failed", and each appends its message). *)
Theorem C1_terminal_sessions_are_rewritten :
  forall (o o1 : Orchestrator) (sid : string) (ref : nat) (s : SessionData)
         (now : datetime),
    fetch sid o = (Ok (Some ref), o1) ->
    load sid o = (Ok (Some ref), o1) ->
    heap o1 !! ref = Some s ->
    session_id s = VStr sid ->
    is_terminal s = true ->
    rejects (start_session sid now o) o
    /\ rejects (resume_session sid now o) o
    /\ (exists after,
          stores (pause_session sid now o) sid after
          /\ status after = VStr "paused"
          /\ appended "system" "Session paused" s after)
    /\ (forall outcome new_metrics new_artifacts,
          exists after,
            stores (complete_session sid outcome new_metrics new_artifacts now o)
              sid after
            /\ status after = VStr "completed"
            /\ result after = VStr outcome
            /\ appended "system" ("Session completed: " +:+ outcome) s after)
    /\ (forall reason new_metrics,
          exists after,
            stores (fail_session sid reason new_metrics now o) sid after
            /\ status after = VStr "failed"
            /\ appended "system" ("Session failed: " +:+ reason) s after)
    /\ (forall new_phase message,
          exists after,
            stores (update_session_phase sid new_phase message now o) sid after
            /\ phase after = VStr new_phase
            /\ status after = status s)
    /\ (forall text meta,
          exists after,
            stores (add_agent_message sid text meta now o) sid after
            /\ status after = status s
            /\ appended "assistant" text s after)
    /\ (forall text meta,
          exists after,
            stores (add_user_message sid text meta now o) sid after
            /\ status after = status s
            /\ appended "user" text s after)
    /\ (forall e recorded,
          errors s = VList recorded ->
          exists after,
            stores (record_error sid e now o) sid after
            /\ errors after = VList (recorded ++ [error_to_dict e])
            /\ appended "system" ("Error: " +:+ error_message e) s after).
Proof.
  intros o o1 sid ref s now Hfetch Hload Hheap Hid Hterminal.
  pose proof (load_keeps_disk sid o) as Hdisk. rewrite Hload in Hdisk.
  cbn [snd] in Hdisk.
  split; [| split; [| split; [| split; [| split; [| split; [| split; [| split]]]]]]].
  - unfold rejects, start_session. rewrite Hload, Hheap.
    rewrite (terminal_not_startable s Hterminal). cbn [negb fst snd].
    split; [eexists; reflexivity | exact Hdisk].
  - unfold rejects, resume_session. rewrite Hload, Hheap.
    rewrite (terminal_not_paused s Hterminal). cbn [negb fst snd].
    split; [eexists; reflexivity | exact Hdisk].
  - unfold stores, pause_session. run_operation Hfetch.
    split; [reflexivity |]. eexists. repeat split.
  - intros outcome new_metrics new_artifacts.
    unfold stores, complete_session.
    destruct new_metrics as [m |];
      (destruct new_artifacts as [a |]; [destruct (truthy_value a) |]);
      run_operation Hfetch;
      (split; [reflexivity |]); (split; [reflexivity |]);
      eexists; repeat split.
  - intros reason new_metrics. unfold stores, fail_session.
    destruct new_metrics as [m |]; run_operation Hfetch;
      (split; [reflexivity |]); eexists; repeat split.
  - intros new_phase message. unfold stores, update_session_phase.
    destruct message as [text |]; [destruct (String.eqb text "") |];
      run_operation Hfetch; split; reflexivity.
  - intros text meta. unfold stores, add_agent_message, add_role_message.
    run_operation Hfetch. split; [reflexivity |]. eexists. repeat split.
  - intros text meta. unfold stores, add_user_message, add_role_message.
    run_operation Hfetch. split; [reflexivity |]. eexists. repeat split.
  - intros e recorded Herrors. unfold stores, record_error.
    rewrite Hfetch, Hheap. cbn [option_map]. rewrite Herrors.
    destruct (error_severity e);
      (eexists; split;
       [ split;
         [ eexists; reflexivity
         | cbn [snd]; eapply disk_save;
           [ repeat eapply heap_mutate; eassumption | assumption ] ]
       | split; [reflexivity |]; eexists; repeat split ]).
Qed.

End TerminalSessions.

(** *** A completed session *)

Section CompletedSession.

Import Session.

#[local] Existing Instance example_parser.

Lemma after_completion_holds :
  heap after_completion !! 0 = Some completed_session
  /\ disk after_completion !! "s1" = Some (Json (to_dict completed_session))
  /\ cache after_completion !! "s1" = Some 0
  /\ active after_completion !! "s1" = None
  /\ is_terminal completed_session = true.
Proof. vm_compute. repeat split. Qed.

(** C1, as stated: pausing the completed session returns normally and
    rewrites its file, which then says "paused". *)
Lemma C1_completed_session_can_be_paused :
  is_terminal completed_session = true
  /\ disk after_completion !! "s1" = Some (Json (to_dict completed_session))
  /\ fst (pause_session "s1" at_noon after_completion) = Ok 0
  /\ disk (snd (pause_session "s1" at_noon after_completion)) !! "s1"
     <> disk after_completion !! "s1"
  /\ disk (snd (pause_session "s1" at_noon after_completion)) !! "s1"
     = Some (Json (to_dict
                     (add_message at_noon "system" "Session paused" None
                        (set_status "paused" completed_session)))).
Proof.
  vm_compute. repeat split. intros H. discriminate H.
Qed.

Lemma C1_terminal_sessions_are_rewritten_witness :
  rejects (start_session "s1" at_noon after_completion) after_completion
  /\ exists after,
       stores (pause_session "s1" at_noon after_completion) "s1" after
       /\ status after = VStr "paused".
Proof.
  destruct (C1_terminal_sessions_are_rewritten after_completion after_completion
              "s1" 0 completed_session at_noon)
    as (Hstart & _ & (after & Hstores & Hstatus & _) & _);
    try (vm_compute; reflexivity).
  split; [exact Hstart |]. exists after. split; assumption.
Defined.

End CompletedSession.

(** ** Loading a stored session *)

Section LoadingSessions.

Import Session.

Context {parser : IsoParser}.



End LoadingSessions.

Section StoredFiles.

Import Session.

#[local] Existing Instance example_parser.



End StoredFiles.

(** ** The history of the loop *)

Section History.

Import Loop.

Lemma total_count_bump (title : string) (counts : list (string * nat)) :
  total_count (bump title counts) = S (total_count counts).
Proof.
  induction counts as [|[t c] rest IH]; [reflexivity|].
  cbn [bump]. destruct (String.eqb t title); cbn [total_count fold_right snd] in *.
  - lia.
  - fold (total_count (bump title rest)). rewrite IH. fold (total_count rest). lia.
Qed.

Lemma total_count_fold (titles : list string) :
  forall counts,
    total_count (fold_left (fun acc x => bump x acc) titles counts)
    = total_count counts + length titles.
Proof.
  induction titles as [|t rest IH]; intros counts; cbn [fold_left length]; [lia|].
  rewrite IH, total_count_bump. lia.
Qed.

Lemma recorded_from (records : list IterationRecord) :
  forall st,
    history (fold_left add_iteration records st) = history st ++ records
    /\ total_issues_found (fold_left add_iteration records st)
       = total_issues_found st + length (flat_map issues_found records)
    /\ current_iteration (fold_left add_iteration records st) = current_iteration st
    /\ consecutive_errors (fold_left add_iteration records st) = consecutive_errors st
    /\ is_approved (fold_left add_iteration records st) = is_approved st
    /\ escalated_to_human (fold_left add_iteration records st) = escalated_to_human st.
Proof.
  induction records as [|r rest IH]; intros st; cbn [fold_left flat_map].
  - rewrite app_nil_r. cbn [length]. repeat split; lia.
  - destruct (IH (add_iteration st r)) as (Hh & Ht & Hc & He & Ha & Hx).
    rewrite Hh, Ht, Hc, He, Ha, Hx. cbn [add_iteration history total_issues_found
      current_iteration consecutive_errors is_approved escalated_to_human].
    rewrite <- app_assoc, length_app. repeat split; lia.
Qed.

Lemma visited_titles_length (records : list IterationRecord) :
  length (visited_titles records) = length (flat_map issues_found records).
Proof.
  unfold visited_titles, record_titles.
  induction records as [|r rest IH]; [reflexivity|].
  cbn [flat_map]. rewrite !length_app, length_map, IH. reflexivity.
Qed.

(** Book-keeping of the history. After any number of
    [add_iteration] calls on a new state, the history holds the records in
    the order they were added, [total_issues_found] is the number of issues
    over all records, and that is also what the occurrence counts behind
    [get_recurring_issues] add up to. *)
Theorem history_totals :
  forall records : list IterationRecord,
    history (recorded records) = records
    /\ total_issues_found (recorded records)
       = length (flat_map issues_found records)
    /\ total_count (issue_counts (history (recorded records)))
       = total_issues_found (recorded records).
Proof.
  intros records. unfold recorded.
  destruct (recorded_from records initial_state) as (Hh & Ht & _).
  cbn [history total_issues_found initial_state app Nat.add] in Hh, Ht.
  rewrite Hh, Ht. repeat split.
  unfold issue_counts. rewrite total_count_fold. cbn [total_count fold_right Nat.add].
  apply visited_titles_length.
Qed.

Lemma insert_desc_descending (x : string * nat) (l : list (string * nat)) :
  descending l = true -> descending (insert_desc x l) = true.
Proof.
  induction l as [|y rest IH]; intros Hl; [reflexivity|].
  cbn [descending] in Hl. apply andb_prop in Hl as [Hy Hrest].
  cbn [insert_desc]. destruct (Nat.ltb_spec (snd x) (snd y)) as [Hlt|Hge].
  - cbn [descending]. rewrite (IH Hrest), andb_true_r.
    apply forallb_forall. intros z Hz. apply insert_desc_In in Hz as [->|Hz].
    + apply Nat.leb_le. lia.
    + rewrite forallb_forall in Hy. exact (Hy z Hz).
  - cbn [descending]. rewrite Hy, Hrest, !andb_true_r.
    apply andb_true_intro. split; [apply Nat.leb_le; lia|].
    apply forallb_forall. intros z Hz. rewrite forallb_forall in Hy.
    specialize (Hy z Hz). apply Nat.leb_le in Hy. apply Nat.leb_le. lia.
Qed.

Lemma sort_desc_descending (l : list (string * nat)) :
  descending (sort_desc l) = true.
Proof.
  induction l as [|x rest IH]; [reflexivity|].
  cbn [sort_desc fold_right]. apply insert_desc_descending. exact IH.
Qed.

Lemma insert_desc_keys (x : string * nat) (l : list (string * nat)) :
  Permutation (map fst (insert_desc x l)) (fst x :: map fst l).
Proof.
  induction l as [|y rest IH]; [reflexivity|].
  cbn [insert_desc]. destruct (snd x <? snd y)%nat; [|reflexivity].
  cbn [map]. rewrite IH. apply perm_swap.
Qed.

Lemma sort_desc_keys (l : list (string * nat)) :
  Permutation (map fst (sort_desc l)) (map fst l).
Proof.
  induction l as [|x rest IH]; [reflexivity|].
  cbn [sort_desc fold_right map]. rewrite insert_desc_keys.
  apply perm_skip. exact IH.
Qed.

Lemma filter_keys_NoDup (p : string * nat -> bool) (l : list (string * nat)) :
  List.NoDup (map fst l) -> List.NoDup (map fst (List.filter p l)).
Proof.
  induction l as [|x rest IH]; intros Hl; [constructor|].
  cbn [map] in Hl. apply List.NoDup_cons_iff in Hl as [Hx Hrest].
  cbn [List.filter]. destruct (p x); [|exact (IH Hrest)].
  cbn [map]. constructor; [|exact (IH Hrest)].
  intros Hin. apply Hx. apply in_map_iff in Hin as (y & Hy & Hin).
  apply filter_In in Hin as [Hin _]. apply in_map_iff. exists y. split; assumption.
Qed.

(** The list of recurring issues. It is ordered by falling number of
    occurrences and names no title twice; an entry carries the number of
    times its title was found over the whole history, which is three or
    more. *)
Theorem recurring_issues_are_ranked :
  forall st : QALoopState,
    descending (get_recurring_issues st) = true
    /\ List.NoDup (map fst (get_recurring_issues st))
    /\ (forall title count,
          In (title, count) (get_recurring_issues st) ->
          count = occurrences title (history st) /\ 3 <= count).
Proof.
  intros st. unfold get_recurring_issues. split; [apply sort_desc_descending|].
  assert (Hunique : List.NoDup (map fst (issue_counts (history st)))).
  { unfold issue_counts. apply fold_bump_NoDup. constructor. }
  split.
  - eapply Permutation_NoDup; [symmetry; apply sort_desc_keys|].
    apply filter_keys_NoDup. exact Hunique.
  - intros title count Hin. apply (proj1 (sort_desc_In _ _)) in Hin.
    apply filter_In in Hin as [Hin Hthree]. cbn [snd] in Hthree.
    apply Nat.leb_le in Hthree. split; [|exact Hthree].
    rewrite <- (count_of_unique title count _ Hunique Hin).
    unfold issue_counts, occurrences. rewrite count_of_fold. reflexivity.
Qed.

Lemma recurring_issues_are_ranked_witness :
  In ("Same Issue", 3) (get_recurring_issues three_records)
  /\ 3 = occurrences "Same Issue" (history three_records).
Proof.
  split; [vm_compute; left; reflexivity|].
  destruct (recurring_issues_are_ranked three_records) as (_ & _ & Hcount).
  apply (Hcount "Same Issue" 3). vm_compute. left. reflexivity.
Defined.

Lemma occurrences_app (title : string) (hist more : list IterationRecord) :
  occurrences title hist <= occurrences title (hist ++ more).
Proof.
  unfold occurrences, visited_titles. rewrite flat_map_app, count_occ_app. lia.
Qed.

(** Escalation is never taken back by further records: once an issue
    recurs, it still recurs after any number of later iterations, so
    [_should_escalate] stays true. *)
Theorem escalation_is_stable :
  forall (st : QALoopState) (later : list IterationRecord) (limit limit' : nat),
    get_recurring_issues st <> [] ->
    _should_escalate st limit = true
    /\ _should_escalate (fold_left add_iteration later st) limit' = true
    /\ (forall title,
          In title (map fst (get_recurring_issues st)) ->
          In title (map fst (get_recurring_issues (fold_left add_iteration later st)))).
Proof.
  intros st later limit limit' Hrecurring.
  assert (Hkept : forall title,
             In title (map fst (get_recurring_issues st)) ->
             In title (map fst (get_recurring_issues (fold_left add_iteration later st)))).
  { intros title Hin. apply recurring_iff in Hin. apply recurring_iff.
    destruct (recorded_from later st) as [-> _].
    pose proof (occurrences_app title (history st) later). lia. }
  split; [|split; [|exact Hkept]].
  - unfold _should_escalate. destruct (get_recurring_issues st); [contradiction|reflexivity].
  - unfold _should_escalate.
    destruct (get_recurring_issues st) as [|[title count] rest] eqn:Hst; [contradiction|].
    specialize (Hkept title ltac:(left; reflexivity)).
    destruct (get_recurring_issues (fold_left add_iteration later st));
      [destruct Hkept|reflexivity].
Qed.

Lemma escalation_is_stable_witness :
  _should_escalate
    (add_iteration three_records
       {| iteration := 4; phase := REVIEW; status := "rejected";
          issues_found := [[("title", "Another Issue")]] |})
    MAX_CONSECUTIVE_ERRORS = true.
Proof.
  apply (escalation_is_stable three_records
           [{| iteration := 4; phase := REVIEW; status := "rejected";
               issues_found := [[("title", "Another Issue")]] |}]
           MAX_CONSECUTIVE_ERRORS MAX_CONSECUTIVE_ERRORS).
  vm_compute. discriminate.
Defined.

End History.

(** ** The retry loop in general *)

Section RetrySchedule.

Import Worktree.

Context {T : Type}.
Variable operation : nat -> Attempt T.
Variable max_retries : nat.
Variable is_retryable : option (string -> bool).
Variable on_retry : bool.

Lemma retry_loop_general :
  forall (remaining attempt : nat) (last_error : string) (log : list RetryEvent),
    attempt + remaining = S max_retries ->
    1 <= attempt ->
    let run :=
      retry_loop operation max_retries is_retryable on_retry remaining attempt
        last_error log in
    attempt - 1 <= calls run <= max_retries
    /\ (1 <= remaining -> attempt <= calls run)
    /\ events run = log ++ pauses operation on_retry attempt (calls run - attempt)
    /\ (forall k, attempt <= k < calls run -> retried is_retryable (operation k) = true)
    /\ (1 <= remaining -> calls run < max_retries ->
        retried is_retryable (operation (calls run)) = false)
    /\ (1 <= remaining -> returned run = final (operation (calls run))).
Proof.
  induction remaining as [|remaining IH]; intros attempt last_error log Hsum Hpositive.
  { cbn [retry_loop calls events returned]. replace (attempt - 1 - attempt) with 0 by lia.
    unfold pauses. cbn [seq flat_map]. rewrite app_nil_r.
    repeat split; try lia. }
  cbn [retry_loop].
  assert (Hstop : forall (result : option T * string),
             retried is_retryable (operation attempt) = false
             \/ (attempt <? max_retries)%nat = false ->
             result = final (operation attempt) ->
             let run := {| returned := result; events := log; calls := attempt |} in
             attempt - 1 <= calls run <= max_retries
             /\ (1 <= S remaining -> attempt <= calls run)
             /\ events run = log ++ pauses operation on_retry attempt (calls run - attempt)
             /\ (forall k, attempt <= k < calls run ->
                   retried is_retryable (operation k) = true)
             /\ (1 <= S remaining -> calls run < max_retries ->
                 retried is_retryable (operation (calls run)) = false)
             /\ (1 <= S remaining -> returned run = final (operation (calls run)))).
  { intros result Hwhy Hresult. cbn [calls events returned].
    replace (attempt - attempt) with 0 by lia. unfold pauses. cbn [seq flat_map].
    rewrite app_nil_r. repeat split; try lia; auto.
    intros _ Hleft. destruct Hwhy as [Hno|Hlast]; [exact Hno|].
    apply Nat.ltb_ge in Hlast. lia. }
  assert (Hnext : forall (error : string),
             retried is_retryable (operation attempt) = true ->
             error = error_of (operation attempt) ->
             (attempt <? max_retries)%nat = true ->
             let run :=
               retry_loop operation max_retries is_retryable on_retry remaining
                 (S attempt) error (log ++ between_attempts on_retry attempt error) in
             attempt - 1 <= calls run <= max_retries
             /\ (1 <= S remaining -> attempt <= calls run)
             /\ events run = log ++ pauses operation on_retry attempt (calls run - attempt)
             /\ (forall k, attempt <= k < calls run ->
                   retried is_retryable (operation k) = true)
             /\ (1 <= S remaining -> calls run < max_retries ->
                 retried is_retryable (operation (calls run)) = false)
             /\ (1 <= S remaining -> returned run = final (operation (calls run)))).
  { intros error Hretried Herror Hleft. apply Nat.ltb_lt in Hleft.
    destruct (IH (S attempt) error (log ++ between_attempts on_retry attempt error)
                ltac:(lia) ltac:(lia))
      as (Hcalls & Hreached & Hevents & Hbefore & Hafter & Hreturned).
    cbv zeta.
    set (run := retry_loop operation max_retries is_retryable on_retry remaining
                  (S attempt) error (log ++ between_attempts on_retry attempt error)) in *.
    assert (Hremaining : 1 <= remaining) by lia.
    specialize (Hreached Hremaining).
    repeat split; try lia.
    - rewrite Hevents, <- app_assoc. f_equal.
      replace (calls run - attempt) with (S (calls run - S attempt)) by lia.
      unfold pauses. cbn [seq flat_map]. rewrite Herror. reflexivity.
    - intros k Hk. destruct (Nat.eq_dec k attempt) as [->|Hother];
        [exact Hretried|apply Hbefore; lia].
    - intros _. apply Hafter. exact Hremaining.
    - intros _. apply Hreturned. exact Hremaining. }
  destruct (operation attempt) as [[|] result error|] eqn:Hattempt.
  - apply Hstop; [left|]; reflexivity.
  - destruct is_retryable as [test|] eqn:Htest.
    + destruct (attempt <? max_retries)%nat eqn:Hleft; cbn [andb].
      * destruct (test error) eqn:Hretry.
        -- apply Hnext; auto.
        -- apply Hstop; [left; exact Hretry|reflexivity].
      * apply Hstop; [right|]; reflexivity.
    + apply Hstop; [left|]; reflexivity.
  - destruct (attempt <? max_retries)%nat eqn:Hleft.
    + apply Hnext; auto.
    + apply Hstop; [right|]; reflexivity.
Qed.

Lemma retry_loop_on_retry :
  forall (remaining attempt : nat) (last_error : string) (log log' : list RetryEvent),
    calls (retry_loop operation max_retries is_retryable on_retry remaining attempt
             last_error log)
    = calls (retry_loop operation max_retries is_retryable false remaining attempt
               last_error log')
    /\ returned (retry_loop operation max_retries is_retryable on_retry remaining
                   attempt last_error log)
       = returned (retry_loop operation max_retries is_retryable false remaining
                     attempt last_error log').
Proof.
  induction remaining as [|remaining IH]; intros attempt last_error log log';
    cbn [retry_loop]; [split; reflexivity|].
  destruct (operation attempt) as [[|] result error|]; try (split; reflexivity).
  - destruct (match is_retryable with
              | Some test => (attempt <? max_retries)%nat && test error
              | None => false
              end); [apply IH|split; reflexivity].
  - destruct (attempt <? max_retries)%nat; [apply IH|split; reflexivity].
Qed.

Lemma total_sleep_app (l1 l2 : list RetryEvent) :
  total_sleep (l1 ++ l2) = total_sleep l1 + total_sleep l2.
Proof.
  induction l1 as [|e rest IH]; [reflexivity|].
  cbn [app total_sleep fold_right]. fold (total_sleep (rest ++ l2)).
  fold (total_sleep rest). rewrite IH. destruct e; lia.
Qed.

Lemma total_sleep_pauses (count : nat) :
  forall m,
    total_sleep (pauses operation on_retry (S m) count) + 2 ^ m = 2 ^ (m + count).
Proof.
  induction count as [|count IH]; intros m.
  - rewrite Nat.add_0_r. reflexivity.
  - unfold pauses. cbn [seq flat_map]. rewrite total_sleep_app.
    fold (pauses operation on_retry (S (S m)) count).
    specialize (IH (S m)).
    replace (total_sleep (between_attempts on_retry (S m) (error_of (operation (S m)))))
      with (2 ^ m).
    + replace (m + S count) with (S m + count) by lia.
      cbn [Nat.pow] in IH |- *. lia.
    + unfold between_attempts. rewrite total_sleep_app.
      replace (S m - 1) with m by lia.
      destruct on_retry; cbn [total_sleep fold_right]; lia.
Qed.

End RetrySchedule.

Section RetryRuns.

Import Worktree.

(** The schedule of [_with_retry], for any operation, any number of
    attempts, with or without a classifier and a callback. The operation is
    called at most [max_retries] times, and not at all when that is zero;
    the attempts before the last one failed in a way that is retried, which
    without a classifier means they timed out; the waits double from one
    second on, so that [c] calls sleep 2^(c-1) - 1 seconds in all; the
    callback changes neither the number of calls nor the result. *)
Theorem retry_schedule :
  forall (T : Type) (operation : nat -> Attempt T) (max_retries : nat)
         (is_retryable : option (string -> bool)) (on_retry : bool),
    let run := _with_retry operation max_retries is_retryable on_retry in
    calls run <= max_retries
    /\ (1 <= max_retries ->
        1 <= calls run /\ returned run = final (operation (calls run)))
    /\ (max_retries = 0 ->
        calls run = 0 /\ returned run = (None, "") /\ events run = [])
    /\ events run = pauses operation on_retry 1 (calls run - 1)
    /\ total_sleep (events run) = 2 ^ (calls run - 1) - 1
    /\ (forall k, 1 <= k < calls run -> retried is_retryable (operation k) = true)
    /\ (is_retryable = None ->
        forall k, 1 <= k < calls run -> operation k = TimeoutExpired)
    /\ calls run = calls (_with_retry operation max_retries is_retryable false)
    /\ returned run = returned (_with_retry operation max_retries is_retryable false).
Proof.
  intros T operation max_retries is_retryable on_retry run.
  destruct (retry_loop_general operation max_retries is_retryable on_retry
              max_retries 1 "" [] ltac:(lia) ltac:(lia))
    as (Hcalls & Hreached & Hevents & Hbefore & _ & Hreturned).
  fold (_with_retry operation max_retries is_retryable on_retry) in *.
  fold run in Hcalls, Hreached, Hevents, Hbefore, Hreturned.
  cbn [app] in Hevents.
  split; [lia|]. split; [intros Hsome; split; auto|].
  split.
  { intros ->. unfold run, _with_retry. cbn. repeat split. }
  split; [exact Hevents|]. split.
  { rewrite Hevents.
    pose proof (total_sleep_pauses operation on_retry (calls run - 1) 0) as Hsum.
    cbn [Nat.pow Nat.add] in Hsum. lia. }
  split; [exact Hbefore|]. split.
  { intros -> k Hk. specialize (Hbefore k Hk).
    destruct (operation k) as [[|] result error|]; [discriminate..|reflexivity]. }
  unfold run, _with_retry. apply retry_loop_on_retry.
Qed.

Lemma retry_schedule_witness :
  calls (_with_retry (fun k => push_operation sample_info false flaky_network k) 3
           None true) = 1
  /\ returned (_with_retry (fun k => push_operation sample_info false flaky_network k)
                 3 None true)
     = final (push_operation sample_info false flaky_network 1).
Proof.
  split; [vm_compute; reflexivity|].
  destruct (retry_schedule _ (fun k => push_operation sample_info false flaky_network k)
              3 None true) as (_ & Hsome & _).
  apply Hsome. lia.
Defined.

End RetryRuns.

(** ** What the complexity level implies *)

Section ComplexityLevels.

Import Complexity.

Ltac decide_level :=
  cbn [andb orb negb fst snd];
  try (repeat split; intros; try discriminate; try lia; auto; fail).

(** The decision of [_calculate_complexity], read backwards from the
    level. *)
Lemma calculate_complexity_level (sigs : list (string * Signal))
    (integrations : list string) (infra : bool) (files services critical : nat) :
  let level := fst (fst (_calculate_complexity sigs integrations infra files services
                           critical)) in
  let conf := snd (fst (_calculate_complexity sigs integrations infra files services
                          critical)) in
  conf = match level with SIMPLE => 90 | STANDARD => 75 | _ => 85 end
  /\ (infra = true \/ 3 <= services \/ 2 <= length integrations \/ 10 <= files
      \/ 2 <= critical ->
      level = COMPLEX \/ level = CRITICAL)
  /\ (level = SIMPLE ->
      files <= 2 /\ services = 1 /\ integrations = [] /\ infra = false
      /\ critical <= 1)
  /\ (level = CRITICAL ->
      2 <= critical \/ (infra = true /\ 3 <= services)
      \/ (3 <= length integrations /\ 15 <= files)).
Proof.
  cbv zeta. unfold _calculate_complexity.
  destruct (Nat.leb_spec 2 critical); decide_level.
  destruct infra; decide_level.
  all: destruct (Nat.leb_spec 3 services); decide_level.
  all: destruct (Nat.leb_spec 3 (length integrations)); decide_level.
  all: try (destruct (Nat.leb_spec 15 files); decide_level).
  all: try (destruct (Nat.leb_spec 2 (length integrations)); decide_level).
  all: try (destruct (Nat.leb_spec 10 files); decide_level).
  all: try (destruct (Nat.leb_spec 3 (signal_int sigs "complex_keywords"));
            decide_level).
  all: try (destruct (Nat.leb_spec files 2); decide_level).
  all: try (destruct (Nat.eqb_spec services 1); decide_level).
  all: try (destruct (Nat.eqb_spec (length integrations) 0); decide_level).
  all: try (destruct (Nat.ltb_spec 0 (signal_int sigs "simple_keywords"));
            decide_level).
  all: try (destruct (Nat.eqb_spec (signal_int sigs "complex_keywords") 0);
            decide_level).
  all: repeat split; intros; try discriminate; try lia; auto;
    destruct integrations; [reflexivity|cbn in *; lia].
Qed.

(** The assessment [analyze] hands back, in terms of its own fields. *)
Lemma analyze_decides (idx : option ProjectIndex) (task : string)
    (req : option Requirements) :
  let a := analyze idx task req in
  (complexity a, confidence a, reasoning a)
  = _calculate_complexity (signals a) (external_integrations a)
      (infrastructure_changes a) (estimated_files a) (estimated_services a)
      (count_in CRITICAL_KEYWORDS (lower task))
  /\ needs_self_critique a
     = match complexity a with COMPLEX | CRITICAL => true | _ => false end
  /\ needs_impact_analysis a
     = (5 <? estimated_files a)%nat || (1 <? estimated_services a)%nat
       || (0 <? length (external_integrations a))%nat || infrastructure_changes a
  /\ needs_research a = _needs_research (lower task) (external_integrations a)
  /\ estimated_files a = _estimate_files (lower task) req
  /\ estimated_services a
     = match req with
       | Some r => Nat.max (_estimate_services idx (lower task) req)
                     (length (services_involved r))
       | None => _estimate_services idx (lower task) req
       end.
Proof.
  unfold analyze. destruct req as [r|]; cbv zeta;
    destruct (_calculate_complexity _ _ _ _ _ _) as [[level conf] why] eqn:Hdecision;
    cbn [complexity confidence reasoning signals external_integrations
         infrastructure_changes estimated_files estimated_services
         needs_self_critique needs_impact_analysis needs_research];
    rewrite Hdecision; repeat split.
Qed.

Lemma estimates_are_positive (idx : option ProjectIndex) (task_lower : string)
    (req : option Requirements) :
  1 <= _estimate_files task_lower req /\ 1 <= _estimate_services idx task_lower req.
Proof.
  split.
  - unfold _estimate_files.
    repeat match goal with
           | |- context [if ?b then _ else _] => destruct b
           end; lia.
  - unfold _estimate_services.
    destruct idx as [i|]; [|lia].
    destruct (String.eqb (project_type i) "monorepo"); [|lia].
    destruct (services i) as [|svc rest]; [lia|].
    destruct (Nat.ltb_spec 0 (length (List.filter
               (fun svc0 => contains (lower svc0) task_lower) (svc :: rest)))); lia.
Qed.

(** What the level of an assessment implies, for every task, project
    index and requirements. A task that mentions infrastructure, names
    three services in its requirements, or needs three services or ten
    files by estimate is complex or critical; a simple task needs at most
    two files and one service, no integration and no infrastructure change,
    and gets neither an impact analysis nor a self-critique; self-critique
    goes with the levels complex and critical; integrations force research
    and impact analysis; the confidence is fixed by the level. *)
Theorem complexity_level_implications :
  forall (idx : option ProjectIndex) (task : string) (req : option Requirements),
    let a := analyze idx task req in
    (infrastructure_changes a = true \/ 3 <= estimated_services a
     \/ 10 <= estimated_files a \/ 2 <= length (external_integrations a) ->
     complexity a = COMPLEX \/ complexity a = CRITICAL)
    /\ (forall r, req = Some r -> 3 <= length (services_involved r) ->
        complexity a = COMPLEX \/ complexity a = CRITICAL)
    /\ (complexity a = SIMPLE ->
        estimated_files a <= 2 /\ estimated_services a = 1
        /\ external_integrations a = [] /\ infrastructure_changes a = false
        /\ needs_impact_analysis a = false /\ needs_self_critique a = false)
    /\ (needs_self_critique a = true <->
        complexity a = COMPLEX \/ complexity a = CRITICAL)
    /\ (external_integrations a <> [] ->
        needs_research a = true /\ needs_impact_analysis a = true)
    /\ 1 <= estimated_files a
    /\ 1 <= estimated_services a
    /\ confidence a
       = match complexity a with SIMPLE => 90 | STANDARD => 75 | _ => 85 end.
Proof.
  intros idx task req a.
  destruct (analyze_decides idx task req)
    as (Hdecision & Hcritique & Himpact & Hresearch & Hfiles & Hservices).
  fold a in Hdecision, Hcritique, Himpact, Hresearch, Hfiles, Hservices.
  pose proof (calculate_complexity_level (signals a) (external_integrations a)
                (infrastructure_changes a) (estimated_files a) (estimated_services a)
                (count_in CRITICAL_KEYWORDS (lower task))) as Hlevel.
  cbv zeta in Hlevel. rewrite <- Hdecision in Hlevel. cbn [fst snd] in Hlevel.
  destruct Hlevel as (Hconfidence & Hcomplex & Hsimple & _).
  destruct (estimates_are_positive idx (lower task) req) as [Hfiles1 Hservices1].
  assert (Hservices2 : 1 <= estimated_services a).
  { rewrite Hservices. destruct req; lia. }
  repeat split.
  - intros [Hinfra|[Hthree|[Hten|Htwo]]]; apply Hcomplex; auto.
  - intros r -> Hthree. apply Hcomplex. right. left. rewrite Hservices. lia.
  - apply (Hsimple H).
  - apply (Hsimple H).
  - apply (Hsimple H).
  - apply (Hsimple H).
  - rewrite Himpact. destruct (Hsimple H) as (Hf & Hs & Hi & Hn & _).
    rewrite Hi, Hn, Hs. cbn [length]. 
    destruct (Nat.ltb_spec 5 (estimated_files a)); [lia|reflexivity].
  - rewrite Hcritique, H. reflexivity.
  - rewrite Hcritique. destruct (complexity a); intros; auto; discriminate.
  - rewrite Hcritique. intros [->| ->]; reflexivity.
  - rewrite Hresearch. unfold _needs_research.
    destruct (any_in research_triggers (lower task)); [reflexivity|].
    destruct (external_integrations a); [contradiction|reflexivity].
  - rewrite Himpact. destruct (external_integrations a); [contradiction|].
    cbn [length Nat.ltb Nat.leb]. rewrite orb_true_r. reflexivity.
  - rewrite Hfiles. exact Hfiles1.
  - exact Hservices2.
  - exact Hconfidence.
Qed.

Lemma complexity_level_implications_witness :
  complexity (analyze None scenario_task None) = COMPLEX
  \/ complexity (analyze None scenario_task None) = CRITICAL.
Proof.
  destruct (complexity_level_implications None scenario_task None) as [Hcomplex _].
  apply Hcomplex. left. vm_compute. reflexivity.
Defined.

End ComplexityLevels.

(** ** The review verdict under more findings *)

Section ReviewOrder.

Import Criteria Reviewer.

Lemma count_severity_app (sev : IssueSeverity) (l1 l2 : list QAIssue) :
  count_severity sev (l1 ++ l2) = count_severity sev l1 + count_severity sev l2.
Proof. unfold count_severity. rewrite List.filter_app, length_app. reflexivity. Qed.

Lemma count_breaking (sev : IssueSeverity) (bc : list string) :
  count_severity sev (map breaking_issue bc)
  = if severity_eqb HIGH sev then length bc else 0.
Proof.
  unfold count_severity. induction bc as [|b rest IH]; [destruct sev; reflexivity|].
  cbn [map List.filter severity breaking_issue].
  destruct (severity_eqb HIGH sev) eqn:Hsev; cbn [length]; rewrite IH; reflexivity.
Qed.

(** More findings never turn a failed review into a passed one: a
    review that passes still passes when per-file issues or breaking changes
    are taken away. With changed files and a task description at hand,
    three breaking changes alone fail the review. *)
Theorem review_verdict_is_antitone :
  forall (fi extra ai : list QAIssue) (bc more : list string)
         (cf : option (list string)) (sc : option string) (td : string),
    (passed (review (fi ++ extra) ai (bc ++ more) cf sc td) = true ->
     passed (review fi ai bc cf sc td) = true)
    /\ (truthy_list cf = true -> td <> "" -> 3 <= length bc ->
        passed (review fi ai bc cf sc td) = false).
Proof.
  intros fi extra ai bc more cf sc td.
  pose proof (review_passed_iff (fi ++ extra) ai (bc ++ more) cf sc td) as Hbig.
  pose proof (review_passed_iff fi ai bc cf sc td) as Hsmall.
  cbv zeta in Hbig, Hsmall. rewrite review_issues in Hbig, Hsmall.
  unfold found_issues in Hbig, Hsmall.
  rewrite !count_severity_app in Hbig, Hsmall.
  split.
  - intros Hpassed. apply Hbig in Hpassed as [Hcritical Hhigh]. apply Hsmall.
    destruct (truthy_list cf && negb (String.eqb td ""));
      rewrite ?map_app, ?count_severity_app, ?count_breaking in *;
      cbn [severity_eqb severity_value String.eqb Ascii.eqb Bool.eqb] in *; lia.
  - intros Hfiles Htask Hthree.
    destruct (passed (review fi ai bc cf sc td)); [|reflexivity].
    destruct (proj1 Hsmall eq_refl) as [_ Hhigh].
    rewrite Hfiles in Hhigh. apply String.eqb_neq in Htask. rewrite Htask in Hhigh.
    cbn [andb negb] in Hhigh. rewrite count_breaking in Hhigh.
    cbn [severity_eqb severity_value String.eqb Ascii.eqb Bool.eqb] in Hhigh. lia.
Qed.

Lemma review_verdict_is_antitone_witness :
  passed (review [] [] ["a"; "b"; "c"] (Some ["src/a.py"]) None "change the api")
  = false.
Proof.
  apply (review_verdict_is_antitone [] [] [] ["a"; "b"; "c"] []
           (Some ["src/a.py"]) None "change the api").
  - reflexivity.
  - discriminate.
  - cbn. lia.
Defined.

End ReviewOrder.

(** ** Sessions: the stored form, restarts, unknown ids, the active table *)

Section SessionStorage.

Import Session.

Context {parser : IsoParser}.

Lemma read_back_parses (t : datetime) :
  read_back t -> fromisoformat (VStr (isoformat t)) = Ok t.
Proof. unfold read_back, fromisoformat. intros ->. reflexivity. Qed.

Lemma optional_round_trip (d : list (string * value)) (key : string)
    (t : option datetime) :
  dict_get d key VNone = optional_time t ->
  optional_read_back t ->
  optional_parse d key = Ok t.
Proof.
  unfold optional_parse. intros -> Hok. destruct t as [t |]; cbn [optional_time].
  - destruct Hok as [Hsome Hback]. cbn [truthy_value].
    apply String.eqb_neq in Hsome. rewrite Hsome. cbn [negb].
    rewrite (read_back_parses t Hback). reflexivity.
  - reflexivity.
Qed.

Lemma message_round_trip (m : ConversationMessage) :
  read_back (timestamp m) -> message_from_dict (message_to_dict m) = Ok m.
Proof.
  intros Hok. unfold message_from_dict, message_to_dict.
  cbn [dict_item lookup_key find fst snd option_map String.eqb Ascii.eqb Bool.eqb bind].
  rewrite (read_back_parses _ Hok). destruct m; reflexivity.
Qed.

Lemma messages_round_trip (l : list ConversationMessage) :
  Forall (fun m => read_back (timestamp m)) l ->
  each_message (map message_to_dict l) = Ok l.
Proof.
  induction 1 as [| m rest Hm Hrest IH]; [reflexivity |].
  cbn [map each_message]. rewrite (message_round_trip m Hm). cbn [bind].
  rewrite IH. reflexivity.
Qed.

Lemma from_dict_to_dict (s : SessionData) :
  session_read_back s -> from_dict (to_dict s) = Ok s.
Proof.
  intros (Hcreated & Hstarted & Hcompleted & Hmessages).
  unfold from_dict, to_dict.
  cbn [dict_item lookup_key find fst snd option_map String.eqb Ascii.eqb Bool.eqb bind].
  rewrite (read_back_parses _ Hcreated). cbn [bind].
  rewrite (optional_round_trip _ "started_at" (started_at s));
    [| reflexivity | exact Hstarted].
  rewrite (optional_round_trip _ "completed_at" (completed_at s));
    [| reflexivity | exact Hcompleted].
  cbn [bind dict_get lookup_key find fst snd option_map String.eqb Ascii.eqb Bool.eqb
       default iterate].
  unfold id. cbn [iterate bind].
  rewrite (messages_round_trip _ Hmessages). cbn [bind].
  destruct s; reflexivity.
Qed.

(** Reading back what [SessionData.to_dict] wrote gives the same session,
    whatever its unchecked fields hold, as long as every timestamp is read
    back from the text [isoformat] gives for it; the same holds for the
    messages alone. *)
Theorem session_dict_round_trip :
  forall s : SessionData,
    session_read_back s ->
    from_dict (to_dict s) = Ok s
    /\ each_message (map message_to_dict (messages s)) = Ok (messages s).
Proof.
  intros s Hok. split; [exact (from_dict_to_dict s Hok) |].
  apply messages_round_trip. apply Hok.
Qed.

(** A saved session is found again: by the same orchestrator as the very
    object that was saved, and by a new orchestrator over the same
    directory as an equal one. *)
Theorem saved_session_survives_restart :
  forall (o : Orchestrator) (ref : nat) (s : SessionData) (sid : string),
    heap o !! ref = Some s ->
    session_id s = VStr sid ->
    session_read_back s ->
    get_session sid (save ref o) = (Ok (Some ref), save ref o)
    /\ answered (get_session sid (save ref o)) = Some s
    /\ answered (get_session sid (restart (save ref o))) = Some s.
Proof.
  intros o ref s sid Hheap Hid Hok.
  assert (Hsave : save ref o
                  = with_cache (insert sid ref)
                      (with_disk (insert sid (Json (to_dict s))) o)).
  { unfold save. rewrite Hheap, Hid. reflexivity. }
  assert (Hcache : cache (save ref o) !! sid = Some ref).
  { rewrite Hsave. cbn. apply lookup_insert_eq. }
  assert (Hhit : get_session sid (save ref o) = (Ok (Some ref), save ref o)).
  { unfold get_session, load. rewrite Hcache. reflexivity. }
  split; [exact Hhit |]. split.
  - unfold answered. rewrite Hhit. cbn [fst snd]. rewrite Hsave. exact Hheap.
  - unfold answered, get_session, load, restart. cbn [cache disk].
    rewrite lookup_empty.
    rewrite (disk_save ref o s sid Hheap Hid).
    rewrite (from_dict_to_dict s Hok).
    cbn. apply lookup_insert_eq.
Qed.

End SessionStorage.

Section SessionStorageRuns.

Import Session.

#[local] Existing Instance example_parser.

Lemma completed_session_read_back : session_read_back completed_session.
Proof.
  repeat split; try discriminate.
  repeat constructor.
Qed.

Lemma session_dict_round_trip_witness :
  from_dict (to_dict completed_session) = Ok completed_session.
Proof.
  apply (session_dict_round_trip completed_session).
  exact completed_session_read_back.
Defined.

Lemma saved_session_survives_restart_witness :
  answered (get_session "s1" (restart (save 0 after_completion)))
  = Some completed_session.
Proof.
  apply (saved_session_survives_restart after_completion 0 completed_session "s1").
  - vm_compute. reflexivity.
  - reflexivity.
  - exact completed_session_read_back.
Defined.

End SessionStorageRuns.

Section SessionBookkeeping.

Import Session.

Context {parser : IsoParser}.

Lemma fetch_unknown (o : Orchestrator) (sid : string) :
  active o !! sid = None -> cache o !! sid = None -> disk o !! sid = None ->
  fetch sid o = (Ok None, o) /\ load sid o = (Ok None, o).
Proof.
  intros Hactive Hcache Hdisk. unfold fetch, load.
  rewrite Hactive, Hcache, Hdisk. split; reflexivity.
Qed.

(** An id that is neither active, cached nor on disk: the five
    operations that hand back a session raise "not found", the four that
    hand back nothing return silently, and none of them changes anything. *)
Theorem unknown_session_id :
  forall (o : Orchestrator) (sid : string) (now : datetime),
    active o !! sid = None -> cache o !! sid = None -> disk o !! sid = None ->
    start_session sid now o = (Raise (not_found sid), o)
    /\ resume_session sid now o = (Raise (not_found sid), o)
    /\ pause_session sid now o = (Raise (not_found sid), o)
    /\ (forall outcome new_metrics new_artifacts,
          complete_session sid outcome new_metrics new_artifacts now o
          = (Raise (not_found sid), o))
    /\ (forall reason new_metrics,
          fail_session sid reason new_metrics now o = (Raise (not_found sid), o))
    /\ (forall new_phase message,
          update_session_phase sid new_phase message now o = (Ok tt, o))
    /\ (forall text meta, add_agent_message sid text meta now o = (Ok tt, o))
    /\ (forall text meta, add_user_message sid text meta now o = (Ok tt, o))
    /\ (forall e, record_error sid e now o = (Ok tt, o))
    /\ get_session sid o = (Ok None, o).
Proof.
  intros o sid now Hactive Hcache Hdisk.
  destruct (fetch_unknown o sid Hactive Hcache Hdisk) as [Hfetch Hload].
  unfold start_session, resume_session, pause_session, complete_session,
    fail_session, update_session_phase, add_agent_message, add_user_message,
    add_role_message, record_error, get_session.
  rewrite Hfetch, Hload. repeat split.
Qed.



Lemma load_keeps_active (sid : string) (o : Orchestrator) :
  active (snd (load sid o)) = active o.
Proof.
  unfold load. destruct (cache o !! sid); [reflexivity|].
  destruct (disk o !! sid) as [[| text | data] |]; try reflexivity.
  destruct (from_dict data) as [s | []]; reflexivity.
Qed.

Lemma fetch_keeps_active (sid : string) (o : Orchestrator) :
  active (snd (fetch sid o)) = active o.
Proof.
  unfold fetch. destruct (active o !! sid); [reflexivity|apply load_keeps_active].
Qed.

Lemma save_keeps_active (ref : nat) (o : Orchestrator) :
  active (save ref o) = active o.
Proof. unfold save. destruct (heap o !! ref); reflexivity. Qed.

(** What an operation does to the table of active sessions, given what
    looking the session up did. *)
Ltac active_table lookup keeps sid o :=
  generalize (keeps sid o);
  destruct (lookup sid o) as [[[ref|]|raised] o1]; cbn [fst snd]; intros Hkept;
  try exact Hkept.

(** The table of active sessions. Starting and resuming register the
    session, completing and failing take it out, and nothing else touches
    the table: a paused session stays in it, and so does one that a fatal
    error has marked as failed. *)
Theorem active_sessions_table :
  forall (o : Orchestrator) (sid : string) (now : datetime),
    (active (snd (start_session sid now o))
     = match fst (start_session sid now o) with
       | Ok ref => <[sid := ref]> (active o)
       | Raise _ => active o
       end)
    /\ (active (snd (resume_session sid now o))
        = match fst (resume_session sid now o) with
          | Ok ref => <[sid := ref]> (active o)
          | Raise _ => active o
          end)
    /\ (forall outcome new_metrics new_artifacts,
          let out := complete_session sid outcome new_metrics new_artifacts now o in
          active (snd out)
          = match fst out with
            | Ok _ => delete sid (active o)
            | Raise _ => active o
            end)
    /\ (forall reason new_metrics,
          let out := fail_session sid reason new_metrics now o in
          active (snd out)
          = match fst out with
            | Ok _ => delete sid (active o)
            | Raise _ => active o
            end)
    /\ active (snd (pause_session sid now o)) = active o
    /\ (forall new_phase message,
          active (snd (update_session_phase sid new_phase message now o)) = active o)
    /\ (forall text meta,
          active (snd (add_agent_message sid text meta now o)) = active o)
    /\ (forall text meta,
          active (snd (add_user_message sid text meta now o)) = active o)
    /\ (forall e, active (snd (record_error sid e now o)) = active o).
Proof.
  intros o sid now. repeat split; cbv zeta; intros.
  - unfold start_session. active_table load load_keeps_active sid o.
    destruct (heap o1 !! ref) as [s|]; [|exact Hkept].
    destruct (negb (status_in s ["pending"; "paused"])); [exact Hkept|].
    cbn [fst snd]. rewrite save_keeps_active. cbn. rewrite Hkept. reflexivity.
  - unfold resume_session. active_table load load_keeps_active sid o.
    destruct (heap o1 !! ref) as [s|]; [|exact Hkept].
    destruct (negb (status_in s ["paused"])); [exact Hkept|].
    cbn [fst snd]. rewrite save_keeps_active. cbn. rewrite Hkept. reflexivity.
  - unfold complete_session. active_table fetch fetch_keeps_active sid o.
    rewrite save_keeps_active.
    destruct new_metrics, new_artifacts as [a|]; try destruct (truthy_value a);
      cbn; rewrite Hkept; reflexivity.
  - unfold fail_session. active_table fetch fetch_keeps_active sid o.
    rewrite save_keeps_active. destruct new_metrics; cbn; rewrite Hkept; reflexivity.
  - unfold pause_session. active_table fetch fetch_keeps_active sid o.
    rewrite save_keeps_active. exact Hkept.
  - unfold update_session_phase. active_table fetch fetch_keeps_active sid o.
    rewrite save_keeps_active.
    destruct message as [text|]; [destruct (String.eqb text "")|]; exact Hkept.
  - unfold add_agent_message, add_role_message.
    active_table fetch fetch_keeps_active sid o.
    rewrite save_keeps_active. exact Hkept.
  - unfold add_user_message, add_role_message.
    active_table fetch fetch_keeps_active sid o.
    rewrite save_keeps_active. exact Hkept.
  - unfold record_error. active_table fetch fetch_keeps_active sid o.
    destruct (option_map errors (heap o1 !! ref)) as [[]|]; cbn [fst snd];
      try exact Hkept.
    rewrite save_keeps_active. destruct (error_severity e); exact Hkept.
Qed.

(** A new session is pending, holds the one system message, is on disk
    and in the cache at once, and is not active before it is started. *)
Theorem created_session_is_stored :
  forall (uuid : string) (now : datetime) (task : string) (spec : option string)
         (o : Orchestrator),
    let out := create_session uuid now task spec o in
    exists s,
      heap (snd out) !! fst out = Some s
      /\ session_id s = VStr uuid
      /\ status s = VStr "pending"
      /\ phase s = VStr "initializing"
      /\ started_at s = None
      /\ messages s
         = [{| role := VStr "system";
               content := VStr ("Session initialized for task: " +:+ task);
               timestamp := now; metadata := VDict [] |}]
      /\ disk (snd out) !! uuid = Some (Json (to_dict s))
      /\ get_session uuid (snd out) = (Ok (Some (fst out)), snd out)
      /\ active (snd out) = active o.
Proof.
  intros uuid now task spec o. cbv zeta.
  unfold create_session, allocate. cbn [fst snd].
  match goal with
  | |- context [save _ {| disk := _; heap := <[_ := ?created]> _; next_ref := _;
                          cache := _; active := _ |}] => set (s := created)
  end.
  match goal with
  | |- context [save _ ?allocated] => set (o1 := allocated)
  end.
  assert (Hheap : heap o1 !! next_ref o = Some s) by apply lookup_insert_eq.
  assert (Hsave : save (next_ref o) o1
                  = with_cache (insert uuid (next_ref o))
                      (with_disk (insert uuid (Json (to_dict s))) o1)).
  { unfold save. rewrite Hheap. reflexivity. }
  rewrite Hsave. exists s. repeat split.
  - exact Hheap.
  - cbn. apply lookup_insert_eq.
  - unfold get_session, load. cbn [cache with_cache]. rewrite lookup_insert_eq.
    reflexivity.
Qed.

(** Deleting a session removes its file and its cache entry and nothing
    else: the store no longer finds it, other sessions are untouched, and
    the answer is always [true]. The table of active sessions is not
    cleared, so the next message to a deleted active session writes its
    file again. *)
Theorem deleted_session :
  forall (o : Orchestrator) (sid : string),
    let o' := snd (delete_session sid o) in
    fst (delete_session sid o) = true
    /\ get_session sid o' = (Ok None, o')
    /\ (forall other, other <> sid ->
          disk o' !! other = disk o !! other /\ cache o' !! other = cache o !! other)
    /\ heap o' = heap o
    /\ active o' = active o
    /\ (forall ref s text meta now,
          active o !! sid = Some ref ->
          heap o !! ref = Some s ->
          session_id s = VStr sid ->
          disk (snd (add_agent_message sid text meta now o')) !! sid
          = Some (Json (to_dict (add_message now "assistant" text meta s)))).
Proof.
  intros o sid. cbv zeta. unfold delete_session. cbn [fst snd].
  split; [reflexivity|]. split.
  { unfold get_session, load. cbn [cache disk with_cache with_disk].
    rewrite !lookup_delete_eq. reflexivity. }
  split.
  { intros other Hother. cbn [cache disk with_cache with_disk].
    rewrite !lookup_delete_ne by congruence. split; reflexivity. }
  split; [reflexivity|]. split; [reflexivity|].
  intros ref s text meta now Hactive Hheap Hid.
  unfold add_agent_message, add_role_message, fetch.
  cbn [active with_cache with_disk]. rewrite Hactive. cbn [snd].
  apply disk_save.
  - apply heap_mutate. exact Hheap.
  - exact Hid.
Qed.



End SessionBookkeeping.

Section SessionBookkeepingRuns.

Import Session.

#[local] Existing Instance example_parser.

Lemma unknown_session_id_witness :
  pause_session "nobody" at_noon after_completion
  = (Raise (not_found "nobody"), after_completion).
Proof.
  apply (unknown_session_id after_completion "nobody" at_noon);
    vm_compute; reflexivity.
Defined.

Lemma deleted_session_witness :
  exists s,
    heap after_start !! 0 = Some s
    /\ disk (snd (delete_session "s1" after_start)) !! "s1" = None
    /\ disk (snd (add_agent_message "s1" "Working on it" None at_noon
                    (snd (delete_session "s1" after_start)))) !! "s1"
       = Some (Json (to_dict (add_message at_noon "assistant" "Working on it" None s))).
Proof.
  eexists. split; [vm_compute; reflexivity|]. split; [vm_compute; reflexivity|].
  destruct (deleted_session after_start "s1") as (_ & _ & _ & _ & _ & Hwrites).
  apply (Hwrites 0); vm_compute; reflexivity.
Defined.

End SessionBookkeepingRuns.

(** ** The sign-off store and the status predicates *)

Section SignoffStore.

Import Criteria Reviewer.

Context {parser : IsoParser}.

Lemma status_round_trip (s : QAStatus) : status_of_value (status_value s) = Some s.
Proof. destruct s; reflexivity. Qed.

Lemma severity_round_trip (s : IssueSeverity) :
  severity_of_value (severity_value s) = Some s.
Proof. destruct s; reflexivity. Qed.

Lemma issue_round_trip (i : QAIssue) : issue_from_dict (issue_to_dict i) = i.
Proof.
  unfold issue_from_dict, issue_to_dict. cbn -[severity_of_value severity_value].
  rewrite severity_round_trip. destruct i; reflexivity.
Qed.

Lemma issues_round_trip (l : list QAIssue) :
  map issue_from_dict (map issue_to_dict l) = l.
Proof.
  induction l as [|i rest IH]; [reflexivity|].
  cbn [map]. rewrite issue_round_trip, IH. reflexivity.
Qed.

Lemma tests_round_trip (t : TestResults) : tests_from_dict (tests_to_dict t) = t.
Proof. destruct t; reflexivity. Qed.

(** What reading back a written sign-off gives, field by field; only the
    timestamp goes through a parser that can refuse it. *)
Lemma from_dict_to_dict_fields (now : datetime) (s : QASignoff) :
  let s' := from_dict now (to_dict s) in
  status s' = status s
  /\ qa_session s' = qa_session s
  /\ issues_found s' = issues_found s
  /\ test_results s' = test_results s
  /\ verified_by s' = verified_by s
  /\ ready_for_revalidation s' = ready_for_revalidation s
  /\ (isoformat (timestamp s) <> "" -> read_back (timestamp s) ->
      timestamp s' = timestamp s).
Proof.
  cbv zeta. unfold from_dict, to_dict.
  cbn -[status_of_value status_value fromisoformat].
  rewrite status_round_trip. repeat split.
  - destruct (issues_found s) as [|i rest]; [reflexivity|]. cbn [default from_option id].
    apply (issues_round_trip (i :: rest)).
  - destruct (test_results s) as [t|]; [|reflexivity]. cbn. destruct t; reflexivity.
  - destruct (ready_for_revalidation s); reflexivity.
  - intros Hsome Hback. apply String.eqb_neq in Hsome. rewrite Hsome.
    unfold fromisoformat. rewrite Hback. reflexivity.
Qed.

Lemma get_after_save (now : datetime) (dir : SpecDir) (s : QASignoff) :
  get_qa_signoff_status now (save_qa_signoff_status dir s)
  = Some (from_dict now (to_dict s)).
Proof.
  unfold get_qa_signoff_status, save_qa_signoff_status, load_implementation_plan,
    save_implementation_plan, plan_empty.
  cbn [plan_file other_keys qa_signoff].
  destruct (plan_file dir) as [plan|]; [destruct (other_keys plan)|]; reflexivity.
Qed.

(** A saved sign-off is read back unchanged when its timestamp is read
    back from its text, which is not empty; saving keeps the plan's other
    keys and the fix request file. *)
Theorem signoff_save_then_get :
  forall (now : datetime) (dir : SpecDir) (s : QASignoff),
    isoformat (timestamp s) <> "" ->
    read_back (timestamp s) ->
    get_qa_signoff_status now (save_qa_signoff_status dir s) = Some s
    /\ fix_request (save_qa_signoff_status dir s) = fix_request dir
    /\ option_map other_keys (plan_file (save_qa_signoff_status dir s))
       = Some (match plan_file dir with
               | Some plan => other_keys plan
               | None => []
               end).
Proof.
  intros now dir s Hsome Hback. split; [|split].
  - rewrite get_after_save. f_equal.
    destruct (from_dict_to_dict_fields now s)
      as (Hstatus & Hsession & Hissues & Htests & Hby & Hready & Hstamp).
    specialize (Hstamp Hsome Hback).
    destruct (from_dict now (to_dict s)), s. cbn in *. congruence.
  - reflexivity.
  - unfold save_qa_signoff_status, load_implementation_plan.
    destruct (plan_file dir); reflexivity.
Qed.



(** What the predicates read after a sign-off was saved. *)
Lemma predicates_after_save (later : datetime) (dir : SpecDir) (s : QASignoff) :
  is_qa_approved later (save_qa_signoff_status dir s) = status_eqb (status s) APPROVED
  /\ is_qa_rejected later (save_qa_signoff_status dir s)
     = status_eqb (status s) REJECTED
  /\ is_fixes_applied later (save_qa_signoff_status dir s)
     = status_eqb (status s) FIXES_APPLIED && ready_for_revalidation s
  /\ get_qa_iteration_count later (save_qa_signoff_status dir s) = qa_session s
  /\ option_map issues_found
       (get_qa_signoff_status later (save_qa_signoff_status dir s))
     = Some (issues_found s)
  /\ option_map test_results
       (get_qa_signoff_status later (save_qa_signoff_status dir s))
     = Some (test_results s).
Proof.
  unfold is_qa_approved, is_qa_rejected, is_fixes_applied, get_qa_iteration_count.
  rewrite get_after_save.
  destruct (from_dict_to_dict_fields later s)
    as (Hstatus & Hsession & Hissues & Htests & _ & Hready & _).
  cbn [option_map]. rewrite Hstatus, Hsession, Hissues, Htests, Hready.
  repeat split.
Qed.

(** What a review wrote is what the status predicates read: the build
    counts as approved exactly when the review passed and the counts of the
    test runner agree, otherwise as rejected with the review's issues; the
    iteration count is the session number of the review; fixes are due when
    rejected and the count is below the limit. An approved sign-off lists
    no issue, whatever the review found. A run that raised writes
    nothing. *)
Theorem review_outcome_is_read_back :
  forall (dir : SpecDir) (now later : datetime) (session : Z)
         (fi ai : list QAIssue) (bc : list string)
         (cf : option (list string)) (sc : option string) (td : string)
         (env : TestEnvironment) (tests : TestResults),
    run_tests env = Ok tests ->
    let result := review fi ai bc cf sc td in
    let out := run_qa_review dir now session (Ok fi) ai bc cf sc td env in
    let approved := passed result && all_passed tests in
    fst out = (if approved then "approved" else "rejected", result)
    /\ is_qa_approved later (snd out) = approved
    /\ is_qa_rejected later (snd out) = negb approved
    /\ is_fixes_applied later (snd out) = false
    /\ get_qa_iteration_count later (snd out) = session
    /\ (forall flag, should_run_qa later (snd out) flag = negb approved)
    /\ (forall limit,
          should_run_fixes later (snd out) limit = negb approved && (session <? limit)%Z)
    /\ option_map issues_found (get_qa_signoff_status later (snd out))
       = Some (if approved then [] else issues result)
    /\ option_map test_results (get_qa_signoff_status later (snd out))
       = Some (Some tests)
    /\ (forall e, snd (run_qa_review dir now session (Raise e) ai bc cf sc td env) = dir)
    /\ (forall env' e,
          run_tests env' = Raise e ->
          snd (run_qa_review dir now session (Ok fi) ai bc cf sc td env') = dir).
Proof.
  intros dir now later session fi ai bc cf sc td env tests Htests. cbv zeta.
  unfold run_qa_review, should_run_qa, should_run_fixes. rewrite Htests.
  destruct (passed (review fi ai bc cf sc td) && all_passed tests); cbn [fst snd];
    match goal with
    | |- context [save_qa_signoff_status dir ?s] =>
        destruct (predicates_after_save later dir s)
          as (Happroved & Hrejected & Hfixes & Hcount & Hissues & Hread)
    end;
    rewrite Happroved, Hrejected, Hfixes, Hcount, Hissues, Hread;
    cbn [status qa_session issues_found test_results ready_for_revalidation
         status_eqb status_value String.eqb Ascii.eqb Bool.eqb andb negb];
    repeat split; try reflexivity;
    try (intros env' e Hraised; rewrite Hraised; reflexivity).
  intros limit. rewrite Z.ltb_antisym. destruct (limit <=? session)%Z; reflexivity.
Qed.

Lemma filter_length_le {A : Type} (p q : A -> bool) (l : list A) :
  (forall x, p x = true -> q x = true) ->
  length (List.filter p l) <= length (List.filter q l).
Proof.
  intros Himp. induction l as [|x rest IH]; [apply le_n|].
  cbn [List.filter]. destruct (p x) eqn:Hp.
  - rewrite (Himp x Hp). cbn [length]. lia.
  - destruct (q x); cbn [length]; lia.
Qed.

(** Blocking issues and the review threshold. A review that fails has
    left a blocking (critical or high) issue, and one that found a critical
    issue fails; so a sign-off without blocking issues comes from a review
    that passed. *)
Theorem failed_review_has_blocking_issue :
  forall (fi ai : list QAIssue) (bc : list string)
         (cf : option (list string)) (sc : option string) (td : string)
         (s : QASignoff),
    let r := review fi ai bc cf sc td in
    issues_found s = issues r ->
    (passed r = false -> has_blocking_issues s = true)
    /\ (get_critical_issues s <> [] -> passed r = false)
    /\ (has_blocking_issues s = false ->
        get_critical_issues s = [] /\ passed r = true).
Proof.
  intros fi ai bc cf sc td s r Hissues.
  pose proof (review_passed_iff fi ai bc cf sc td) as Hpassed. cbv zeta in Hpassed.
  fold r in Hpassed.
  unfold has_blocking_issues, get_critical_issues. rewrite Hissues.
  unfold count_severity in Hpassed.
  set (blocking := List.filter _ (issues r)).
  assert (Hcritical :
            length (List.filter (fun i => severity_eqb (severity i) CRITICAL) (issues r))
            <= length blocking).
  { apply filter_length_le. intros x Hx. rewrite Hx. reflexivity. }
  assert (Hhigh :
            length (List.filter (fun i => severity_eqb (severity i) HIGH) (issues r))
            <= length blocking).
  { apply filter_length_le. intros x Hx. rewrite Hx. apply orb_true_r. }
  assert (Hfails : passed r = false -> (0 <? length blocking)%nat = true).
  { intros Hfailed. apply Nat.ltb_lt.
    destruct (Nat.eq_dec (length blocking) 0) as [Hnone|]; [|lia].
    assert (passed r = true) by (apply Hpassed; lia). congruence. }
  split; [exact Hfails|]. split.
  - intros Hsome. destruct (passed r) eqn:Hr; [|reflexivity].
    destruct (proj1 Hpassed eq_refl) as [Hzero _].
    destruct (List.filter _ (issues r)); [contradiction|discriminate Hzero].
  - intros Hnone. apply Nat.ltb_ge in Hnone.
    split.
    + destruct (List.filter (fun i => severity_eqb (severity i) CRITICAL) (issues r));
        [reflexivity|cbn [length] in Hcritical; lia].
    + apply Hpassed. lia.
Qed.



End SignoffStore.

Section SignoffStoreRuns.

Import Criteria Reviewer.

#[local] Existing Instance example_parser.

Lemma signoff_save_then_get_witness :
  get_qa_signoff_status Session.at_noon
    (save_qa_signoff_status Fixer.nothing_found
       {| status := REJECTED; timestamp := Session.at_ten; qa_session := 2;
          issues_found := [Fixer.debug_issue]; test_results := Some no_tests;
          verified_by := "qa_agent"; ready_for_revalidation := false |})
  = Some {| status := REJECTED; timestamp := Session.at_ten; qa_session := 2;
            issues_found := [Fixer.debug_issue]; test_results := Some no_tests;
            verified_by := "qa_agent"; ready_for_revalidation := false |}.
Proof.
  apply (signoff_save_then_get Session.at_noon Fixer.nothing_found).
  - discriminate.
  - reflexivity.
Defined.

Lemma review_outcome_is_read_back_witness :
  is_qa_rejected Session.at_noon
    (snd (run_qa_review new_spec_dir Session.at_ten 1 (Ok [leaked_key]) [] []
            (Some ["src/config.py"]) None "" (pytest_project 2 0)))
  = true.
Proof.
  destruct (review_outcome_is_read_back new_spec_dir Session.at_ten
              Session.at_noon 1 [leaked_key] [] [] (Some ["src/config.py"]) None ""
              (pytest_project 2 0) (unit_results 2 2))
    as (_ & _ & Hrejected & _); [vm_compute; reflexivity |].
  rewrite Hrejected. vm_compute. reflexivity.
Defined.

Lemma failed_review_has_blocking_issue_witness :
  has_blocking_issues
    {| status := REJECTED; timestamp := Session.at_ten; qa_session := 1;
       issues_found :=
         issues (review [Fixer.debug_issue] [] ["a"; "b"; "c"] (Some ["src/a.py"])
                   None "change the api");
       test_results := None; verified_by := "qa_agent";
       ready_for_revalidation := false |} = true.
Proof.
  apply (failed_review_has_blocking_issue [Fixer.debug_issue] [] ["a"; "b"; "c"]
           (Some ["src/a.py"]) None "change the api");
    vm_compute; reflexivity.
Defined.

End SignoffStoreRuns.

(** ** The loop of [fix_issues] *)

Section FixLoop.

Import Criteria Fixer.

Lemma pattern_with_template (key : string) (p : FixPattern) (t : string) :
  lookup_pattern key = Some p -> p_fix_template p = Some t ->
  p_strategy p = REPLACE /\ (key = "hardcoded_secrets" \/ key = "empty_except").
Proof.
  unfold lookup_pattern, _fix_patterns. cbn [find fst snd].
  repeat match goal with
         | |- context [String.eqb ?a key] => destruct (String.eqb_spec a key)
         end;
    cbn [option_map snd]; intros Hp Ht; inversion Hp; subst p;
    cbn [p_fix_template p_strategy] in *; try discriminate; auto.
Qed.

Lemma generate_fix_facts (files : gmap string string) (i : QAIssue)
    (generated : Fix) :
  generate_fix files i = Ok generated ->
  issue generated = i
  /\ applied generated = false
  /\ confidence generated = _calculate_confidence i (strategy generated)
  /\ (truthy (fixed_code generated) = true ->
      strategy generated = REPLACE
      /\ (issue_key i = "hardcoded_secrets" \/ issue_key i = "empty_except")).
Proof.
  unfold generate_fix. fold (issue_key i).
  destruct (_parse_location (default "" (location i))) as [[file line] | e];
    [| discriminate].
  cbn [bind]. intros Hgenerated. injection Hgenerated as <-.
  cbn [issue applied confidence strategy fixed_code].
  repeat split.
  - destruct (lookup_pattern (issue_key i)) as [p|] eqn:Hp; [|discriminate].
    destruct (p_fix_template p) as [t|] eqn:Ht; [|discriminate].
    destruct (pattern_with_template _ _ _ Hp Ht) as [Hreplace _].
    cbn [option_map default from_option id]. exact Hreplace.
  - destruct (lookup_pattern (issue_key i)) as [p|] eqn:Hp; [|discriminate].
    destruct (p_fix_template p) as [t|] eqn:Ht; [|discriminate].
    destruct (pattern_with_template _ _ _ Hp Ht) as [_ Hkey]. exact Hkey.
Qed.

Lemma confidence_bound (i : QAIssue) (st : FixStrategy) :
  _calculate_confidence i st <= 80
  /\ (severity i = CRITICAL -> _calculate_confidence i st <= 56)
  /\ (severity i = HIGH -> _calculate_confidence i st <= 64).
Proof.
  unfold _calculate_confidence.
  destruct st, (severity i); vm_compute; repeat split; intros; try discriminate; lia.
Qed.

(** [_apply_fix] either rewrites the one file or changes no file. *)
Lemma apply_fix_cases (files : gmap string string) (f : Fix) :
  (exists path content,
      file_path f = Some path
      /\ truthy (file_path f) = true
      /\ is_manual (strategy f) = false
      /\ files !! path = Some content
      /\ _apply_fix files f
         = (true, set_applied f,
            <[path := written (edit_lines f (splitlines content))]> files))
  \/ (exists f', _apply_fix files f = (false, f', files) /\ issue f' = issue f).
Proof.
  unfold _apply_fix.
  destruct (truthy (file_path f)) eqn:Hpath; cbn [negb];
    [|right; exists f; split; reflexivity].
  destruct (negb (is_delete (strategy f)) && negb (truthy (fixed_code f)));
    [right; exists f; split; reflexivity|].
  destruct (is_manual (strategy f)) eqn:Hmanual;
    [right; exists f; split; reflexivity|].
  destruct (file_path f) as [path|] eqn:Hfile; [|discriminate Hpath].
  cbn [default from_option id].
  destruct (files !! path) as [content|] eqn:Hcontent.
  - left. exists path, content. repeat split; assumption.
  - right. eexists. split; reflexivity.
Qed.

Lemma fix_step_turn (auto_apply : bool) (min_confidence : nat) (acc : Progress)
    (f : Fix) :
  Turn auto_apply min_confidence acc f (fix_step auto_apply min_confidence acc f).
Proof.
  unfold fix_step.
  destruct (Nat.ltb_spec (confidence f) min_confidence) as [Hlow|Henough];
    [apply Skipped; reflexivity|].
  destruct (is_manual (strategy f)) eqn:Hmanual; [apply Skipped; reflexivity|].
  destruct auto_apply; cbn [andb]; [|apply Skipped; reflexivity].
  destruct (truthy (fixed_code f)) eqn:Hcode; [|apply Skipped; reflexivity].
  destruct (apply_fix_cases (files_now acc) f)
    as [(path & content & Hfile & _ & _ & Hcontent & ->)|(f' & -> & Hissue)].
  - eapply Applied; eauto.
  - apply Failed; auto.
Qed.

Lemma perm_insert (x : QAIssue) (l1 l2 l : list QAIssue) :
  Permutation (l1 ++ l2) l -> Permutation (l1 ++ x :: l2) (x :: l).
Proof.
  intros Hperm. symmetry. apply Permutation_cons_app. symmetry. exact Hperm.
Qed.

(** The loop of [fix_issues] from any point on: what it adds to the three
    lists, and which files it leaves alone. *)
Lemma fix_loop (auto_apply : bool) (min_confidence : nat) (fixes : list Fix) :
  forall acc,
    let acc' := fold_left (fix_step auto_apply min_confidence) fixes acc in
    exists new_applied new_failed new_skipped,
      applied_now acc' = applied_now acc ++ new_applied
      /\ failed_now acc' = failed_now acc ++ new_failed
      /\ skipped_now acc' = skipped_now acc ++ new_skipped
      /\ Permutation (map issue (new_applied ++ new_failed ++ new_skipped))
           (map issue fixes)
      /\ Forall (fun g => exists f,
                   In f fixes /\ g = set_applied f /\ auto_apply = true
                   /\ min_confidence <= confidence f
                   /\ truthy (fixed_code f) = true) new_applied
      /\ Forall (fun g => exists f,
                   In f fixes /\ issue g = issue f /\ auto_apply = true
                   /\ min_confidence <= confidence f) new_failed
      /\ (forall path,
            (forall g, In g new_applied -> file_path g <> Some path) ->
            files_now acc' !! path = files_now acc !! path).
Proof.
  induction fixes as [|f rest IH]; intros acc; cbn [fold_left].
  { exists [], [], []. rewrite !app_nil_r. repeat split; constructor. }
  generalize (fix_step_turn auto_apply min_confidence acc f).
  generalize (IH (fix_step auto_apply min_confidence acc f)).
  generalize (fix_step auto_apply min_confidence acc f) as acc1.
  intros acc1 (na & nf & ns & Ha & Hf & Hs & Hperm & HA & HF & Hframe) Hturn.
  cbv zeta.
  assert (Hwider : forall (P : Fix -> Fix -> Prop) (l : list Fix),
             Forall (fun g => exists f0, In f0 rest /\ P g f0) l ->
             Forall (fun g => exists f0, In f0 (f :: rest) /\ P g f0) l).
  { intros P l. apply List.Forall_impl. intros g (f0 & Hin & HP).
    exists f0. split; [right; exact Hin|exact HP]. }
  destruct Hturn as [f' Hissue|path content Hauto Henough Hmanual Hcode Hfile Hcontent
                    |f' Hissue Hauto Henough];
    cbn [files_now applied_now failed_now skipped_now] in *.
  - exists na, nf, (f' :: ns). rewrite Ha, Hf, Hs, <- app_assoc.
    repeat split; auto.
    rewrite !map_app in *. cbn [map]. rewrite app_assoc, Hissue.
    apply perm_insert. rewrite <- app_assoc. exact Hperm.
  - exists (set_applied f :: na), nf, ns. rewrite Ha, Hf, Hs, <- app_assoc.
    repeat split; auto.
    + cbn [app map]. apply perm_skip. exact Hperm.
    + constructor; [|auto].
      exists f. repeat split; auto. left; reflexivity.
    + intros other Hother. rewrite Hframe.
      * apply lookup_insert_ne. intros ->.
        apply (Hother (set_applied f)); [left; reflexivity|exact Hfile].
      * intros g Hg. apply Hother. right. exact Hg.
  - exists na, (f' :: nf), ns. rewrite Ha, Hf, Hs, <- app_assoc.
    repeat split; auto.
    + rewrite !map_app in *. cbn [map]. rewrite Hissue.
      apply perm_insert. exact Hperm.
    + constructor; [|auto].
      exists f. repeat split; auto. left; reflexivity.
Qed.

(** The fixes of a list comprehension that did not raise: one for each
    issue, in their order. *)
Lemma generated_fixes (files : gmap string string) (found : list QAIssue) :
  forall fixes,
    generate_fixes files found = Ok fixes ->
    map issue fixes = found
    /\ Forall (fun f => exists i, In i found /\ generate_fix files i = Ok f) fixes.
Proof.
  induction found as [| i rest IH]; intros fixes; cbn [generate_fixes].
  - intros Hfixes. injection Hfixes as <-. split; constructor.
  - destruct (generate_fix files i) as [f | e] eqn:Hf; [| discriminate].
    cbn [bind].
    destruct (generate_fixes files rest) as [fs | e]; [| discriminate].
    cbn [bind]. intros Hfixes. injection Hfixes as <-.
    destruct (IH fs eq_refl) as [Hissues Hall].
    destruct (generate_fix_facts files i f Hf) as [Hissue _].
    split; [cbn [map]; rewrite Hissue, Hissues; reflexivity |].
    constructor.
    + exists i. split; [left; reflexivity | exact Hf].
    + eapply List.Forall_impl; [| exact Hall].
      intros g (j & Hj & Hg). exists j. split; [right; exact Hj | exact Hg].
Qed.

(** The lists and the files [fix_issues] hands back are those of the loop
    over the generated fixes. *)
Lemma fix_issues_loop (auto_apply : bool) (min_confidence : nat)
    (files : gmap string string) (dir : option SpecDir) (found : list QAIssue)
    (result : FixResult) (files' : gmap string string) (dir' : option SpecDir) :
  fix_issues auto_apply min_confidence files dir found = Ok (result, files', dir') ->
  exists fixes,
    generate_fixes files found = Ok fixes
    /\ let acc :=
         fold_left (fix_step auto_apply min_confidence) fixes
           {| files_now := files; applied_now := []; failed_now := [];
              skipped_now := [] |} in
       fixes_applied result = applied_now acc
       /\ fixes_failed result = failed_now acc
       /\ fixes_skipped result = skipped_now acc
       /\ files' = files_now acc.
Proof.
  unfold fix_issues.
  destruct (generate_fixes files found) as [fixes | e]; [| discriminate].
  cbn [bind]. cbv zeta. intros Hout. exists fixes. split; [reflexivity |].
  destruct (List.filter is_critical _); injection Hout as <- <- _; repeat split.
Qed.

(** Every issue handed to [fix_issues] ends up in exactly one of the three
    lists of the result (applied, failed, skipped), once. *)
Theorem fix_issues_sorts_every_issue :
  forall (auto_apply : bool) (min_confidence : nat) (files : gmap string string)
         (dir : option SpecDir) (found : list QAIssue)
         (result : FixResult) (files' : gmap string string) (dir' : option SpecDir),
    fix_issues auto_apply min_confidence files dir found = Ok (result, files', dir') ->
    Permutation
      (map issue (fixes_applied result ++ fixes_failed result ++ fixes_skipped result))
      found
    /\ length (fixes_applied result) + length (fixes_failed result)
       + length (fixes_skipped result) = length found.
Proof.
  intros auto_apply min_confidence files dir found result files' dir' Hout.
  destruct (fix_issues_loop _ _ _ _ _ _ _ _ Hout)
    as (fixes & Hfixes & Happlied & Hfailed & Hskipped & _).
  destruct (generated_fixes files found fixes Hfixes) as [Hissues _].
  destruct (fix_loop auto_apply min_confidence fixes
              {| files_now := files; applied_now := []; failed_now := [];
                 skipped_now := [] |})
    as (na & nf & ns & Ha & Hf & Hs & Hperm & _).
  cbn [applied_now failed_now skipped_now app] in Ha, Hf, Hs.
  rewrite Happlied, Hfailed, Hskipped, Ha, Hf, Hs.
  rewrite Hissues in Hperm.
  split; [exact Hperm |].
  apply Permutation_length in Hperm.
  rewrite length_map, !length_app in Hperm. lia.
Qed.

(** With a threshold of 0.65 or more, the fixes that get as far as
    [_apply_fix] are for issues below high severity. *)
Lemma attempted_fixes_severity (auto_apply : bool) (min_confidence : nat)
    (files : gmap string string) (dir : option SpecDir) (found : list QAIssue)
    (result : FixResult) (files' : gmap string string) (dir' : option SpecDir) :
  fix_issues auto_apply min_confidence files dir found = Ok (result, files', dir') ->
  65 <= min_confidence ->
  Forall (fun f => severity (issue f) <> CRITICAL /\ severity (issue f) <> HIGH)
    (fixes_applied result ++ fixes_failed result).
Proof.
  intros Hout Hthreshold.
  destruct (fix_issues_loop _ _ _ _ _ _ _ _ Hout)
    as (fixes & Hfixes & Happlied & Hfailed & _).
  destruct (generated_fixes files found fixes Hfixes) as [_ Hgenerated].
  rewrite List.Forall_forall in Hgenerated.
  destruct (fix_loop auto_apply min_confidence fixes
              {| files_now := files; applied_now := []; failed_now := [];
                 skipped_now := [] |})
    as (na & nf & ns & Ha & Hf & _ & _ & HA & HF & _).
  cbn [applied_now failed_now app] in Ha, Hf.
  rewrite Happlied, Hfailed, Ha, Hf.
  apply Forall_app. split.
  - eapply List.Forall_impl; [| exact HA].
    intros g (f & Hin & -> & _ & Henough & _).
    destruct (Hgenerated f Hin) as (i & Hi & Hf0).
    destruct (generate_fix_facts files i f Hf0) as (Hissue & _ & Hconfidence & _).
    cbn [issue set_applied]. rewrite Hissue. rewrite Hconfidence in Henough.
    destruct (confidence_bound i (strategy f)) as (_ & Hcritical & Hhigh).
    split; intros Hseverity; [specialize (Hcritical Hseverity)
                             | specialize (Hhigh Hseverity)]; lia.
  - eapply List.Forall_impl; [| exact HF].
    intros g (f & Hin & Hg & _ & Henough).
    destruct (Hgenerated f Hin) as (i & Hi & Hf0).
    destruct (generate_fix_facts files i f Hf0) as (Hissue & _ & Hconfidence & _).
    rewrite Hg, Hissue. rewrite Hconfidence in Henough.
    destruct (confidence_bound i (strategy f)) as (_ & Hcritical & Hhigh).
    split; intros Hseverity; [specialize (Hcritical Hseverity)
                             | specialize (Hhigh Hseverity)]; lia.
Qed.

(** What [fix_issues] applies. An applied fix is a REPLACE whose text came
    from a template, so it is a fix for a hardcoded secret or an empty
    except block, with a confidence at or above the threshold; fixes of the
    other strategies (INSERT, DELETE, REFACTOR, MANUAL) are never applied.
    With a threshold of 0.65 or more, no fix for a critical or high issue is
    applied or even attempted. *)
Theorem only_templated_replacements_are_applied :
  forall (auto_apply : bool) (min_confidence : nat) (files : gmap string string)
         (dir : option SpecDir) (found : list QAIssue)
         (result : FixResult) (files' : gmap string string) (dir' : option SpecDir),
    fix_issues auto_apply min_confidence files dir found = Ok (result, files', dir') ->
    Forall (fun f =>
              auto_apply = true
              /\ applied f = true
              /\ strategy f = REPLACE
              /\ min_confidence <= confidence f
              /\ truthy (fixed_code f) = true
              /\ In (issue f) found
              /\ (issue_key (issue f) = "hardcoded_secrets"
                  \/ issue_key (issue f) = "empty_except"))
      (fixes_applied result)
    /\ (65 <= min_confidence ->
        Forall (fun f => severity (issue f) <> CRITICAL /\ severity (issue f) <> HIGH)
          (fixes_applied result ++ fixes_failed result)).
Proof.
  intros auto_apply min_confidence files dir found result files' dir' Hout.
  split; [| exact (attempted_fixes_severity _ _ _ _ _ _ _ _ Hout)].
  destruct (fix_issues_loop _ _ _ _ _ _ _ _ Hout)
    as (fixes & Hfixes & Happlied & _).
  destruct (generated_fixes files found fixes Hfixes) as [_ Hgenerated].
  rewrite List.Forall_forall in Hgenerated.
  destruct (fix_loop auto_apply min_confidence fixes
              {| files_now := files; applied_now := []; failed_now := [];
                 skipped_now := [] |})
    as (na & nf & ns & Ha & _ & _ & _ & HA & _).
  cbn [applied_now app] in Ha. rewrite Happlied, Ha.
  eapply List.Forall_impl; [| exact HA].
  intros g (f & Hin & -> & Hauto & Henough & Hcode).
  destruct (Hgenerated f Hin) as (i & Hi & Hf0).
  destruct (generate_fix_facts files i f Hf0) as (Hissue & _ & _ & Htemplate).
  destruct (Htemplate Hcode) as [Hreplace Hkey].
  cbn [applied strategy confidence fixed_code issue set_applied].
  rewrite Hissue. repeat split; auto.
Qed.

(** [fix_issues] changes no file but those of the fixes it reports as
    applied. Without [auto_apply] it is a dry run: no file changes, nothing
    is applied and nothing fails. *)
Theorem fix_issues_touches_applied_files_only :
  forall (auto_apply : bool) (min_confidence : nat) (files : gmap string string)
         (dir : option SpecDir) (found : list QAIssue)
         (result : FixResult) (files' : gmap string string) (dir' : option SpecDir),
    fix_issues auto_apply min_confidence files dir found = Ok (result, files', dir') ->
    (forall path,
        (forall f, In f (fixes_applied result) -> file_path f <> Some path) ->
        files' !! path = files !! path)
    /\ (auto_apply = false ->
        files' = files
        /\ fixes_applied result = []
        /\ fixes_failed result = []
        /\ success result = true).
Proof.
  intros auto_apply min_confidence files dir found result files' dir' Hout.
  destruct (fix_issues_loop _ _ _ _ _ _ _ _ Hout)
    as (fixes & Hfixes & Happlied & Hfailed & _ & Hfiles).
  destruct (fix_loop auto_apply min_confidence fixes
              {| files_now := files; applied_now := []; failed_now := [];
                 skipped_now := [] |})
    as (na & nf & ns & Ha & Hf & _ & _ & HA & HF & Hframe).
  cbn [applied_now failed_now files_now app] in Ha, Hf, Hframe.
  rewrite Happlied, Hfailed, Hfiles, Ha, Hf.
  split; [exact Hframe |].
  intros Hdry.
  assert (Hna : na = []).
  { destruct na as [| g rest]; [reflexivity |].
    apply Forall_inv in HA. destruct HA as (f & _ & _ & Hauto & _). congruence. }
  assert (Hnf : nf = []).
  { destruct nf as [| g rest]; [reflexivity |].
    apply Forall_inv in HF. destruct HF as (f & _ & _ & Hauto & _). congruence. }
  clear HA HF. rewrite Hna in *. rewrite Hnf in *. clear Hna Hnf. repeat split.
  - apply map_eq. intros path. apply Hframe. intros g Hg. destruct Hg.
  - apply (fix_issues_result _ _ _ _ _ _ _ _ Hout).
    rewrite Hfailed, Hf. reflexivity.
Qed.

End FixLoop.

Section FixLoopRuns.

Import Criteria Fixer.

(** The three issues of the sample run: the fix for the empty except block
    is applied, the one for the secret is skipped for its confidence and
    the one for the debug statement for its missing text. *)
Lemma sample_fix_run :
  exists (result : FixResult) (files' : gmap string string) (dir' : option SpecDir),
    fix_issues true default_min_confidence handler_files None
      [except_issue; secret_issue; debug_issue] = Ok (result, files', dir')
    /\ map (fun f => title (issue f)) (fixes_applied result) = ["Empty Except"]
    /\ fixes_failed result = []
    /\ map (fun f => title (issue f)) (fixes_skipped result)
       = ["Hardcoded Secrets"; "Debug Statements"]
    /\ files' !! "src/bad.py" = handler_files !! "src/bad.py".
Proof.
  destruct (fix_issues true default_min_confidence handler_files None
              [except_issue; secret_issue; debug_issue])
    as [[[result files'] dir'] | e] eqn:Hrun; [| vm_compute in Hrun; discriminate].
  exists result, files', dir'. split; [reflexivity |].
  vm_compute in Hrun. injection Hrun as <- <- _. vm_compute. repeat split.
Qed.

Lemma fix_issues_sorts_every_issue_witness :
  exists (result : FixResult) (files' : gmap string string) (dir' : option SpecDir),
    fix_issues true default_min_confidence handler_files None
      [except_issue; secret_issue; debug_issue] = Ok (result, files', dir')
    /\ length (fixes_applied result) + length (fixes_failed result)
       + length (fixes_skipped result) = 3.
Proof.
  destruct sample_fix_run as (result & files' & dir' & Hrun & _).
  exists result, files', dir'. split; [exact Hrun |].
  apply (fix_issues_sorts_every_issue _ _ _ _ _ _ _ _ Hrun).
Defined.

Lemma only_templated_replacements_are_applied_witness :
  exists (result : FixResult) (files' : gmap string string) (dir' : option SpecDir),
    fix_issues true default_min_confidence handler_files None
      [except_issue; secret_issue; debug_issue] = Ok (result, files', dir')
    /\ Forall (fun f => strategy f = REPLACE) (fixes_applied result).
Proof.
  destruct sample_fix_run as (result & files' & dir' & Hrun & _).
  exists result, files', dir'. split; [exact Hrun |].
  destruct (only_templated_replacements_are_applied _ _ _ _ _ _ _ _ Hrun)
    as [Happlied _].
  eapply List.Forall_impl; [| exact Happlied].
  intros f (_ & _ & Hreplace & _). exact Hreplace.
Defined.

Lemma fix_issues_touches_applied_files_only_witness :
  exists (result : FixResult) (files' : gmap string string) (dir' : option SpecDir),
    fix_issues true default_min_confidence handler_files None
      [except_issue; secret_issue; debug_issue] = Ok (result, files', dir')
    /\ files' !! "src/bad.py" = handler_files !! "src/bad.py".
Proof.
  destruct sample_fix_run as (result & files' & dir' & Hrun & _).
  exists result, files', dir'. split; [exact Hrun |].
  destruct (fix_issues_touches_applied_files_only _ _ _ _ _ _ _ _ Hrun)
    as [Hframe _].
  apply Hframe. intros f Hin.
  vm_compute in Hrun. injection Hrun as <- _ _.
  vm_compute in Hin. destruct Hin as [<- | []]. discriminate.
Defined.

End FixLoopRuns.

(** ** The answers of the fix phase *)

Section FixPhaseAnswers.

Import Criteria Fixer.

Context {parser : IsoParser}.

(** The fix phase under the default threshold. Whenever the sign-off lists
    an issue, [run_qa_fixer] answers "fixed", unless generating the fixes
    raises: a critical issue can never count as a failed fix, because its
    fix is skipped for low confidence before it is tried. The sign-off then
    says fixes_applied under the same session number and lists no issue,
    so the build counts neither as rejected nor as approved. When
    generating the fixes raises, the answer is "error" with the text of
    the exception, and neither a file nor the spec directory has
    changed. *)
Theorem fix_phase_answers :
  forall (now later : datetime) (files : gmap string string) (dir : SpecDir)
         (session : Z) (auto_apply : bool) (signoff : QASignoff),
    get_qa_signoff_status now dir = Some signoff ->
    issues_found signoff <> [] ->
    let run := run_qa_fixer now files dir session auto_apply in
    match fix_issues auto_apply default_min_confidence files (Some dir)
            (issues_found signoff) with
    | Ok (result, files', dir') =>
        run_status run = "fixed"
        /\ run_result run = result
        /\ run_files run = files'
        /\ success result = true
        /\ List.filter is_critical (fixes_failed result) = []
        /\ is_fixes_applied later (run_dir run) = true
        /\ is_qa_rejected later (run_dir run) = false
        /\ is_qa_approved later (run_dir run) = false
        /\ (forall limit, should_run_fixes later (run_dir run) limit = false)
        /\ (forall flag, should_run_qa later (run_dir run) flag = true)
        /\ get_qa_iteration_count later (run_dir run) = qa_session signoff
        /\ option_map issues_found (get_qa_signoff_status later (run_dir run))
           = Some []
    | Raise e =>
        run_status run = "error"
        /\ message (run_result run) = exn_text e
        /\ success (run_result run) = false
        /\ run_files run = files
        /\ run_dir run = dir
    end.
Proof.
  intros now later files dir session auto_apply signoff Hget Hissues run.
  unfold run, run_qa_fixer. rewrite Hget.
  destruct (issues_found signoff) as [| i rest] eqn:Hfound; [contradiction |].
  destruct (fix_issues auto_apply default_min_confidence files (Some dir) (i :: rest))
    as [[[result files'] dir'] | e] eqn:Hout; [| repeat split].
  assert (Hnone : List.filter is_critical (fixes_failed result) = []).
  { pose proof (attempted_fixes_severity _ _ _ _ _ _ _ _ Hout) as Hattempted.
    apply Forall_app in Hattempted as [_ Hfailed];
      [| unfold default_min_confidence; lia].
    induction Hfailed as [| f more [Hf _] _ IH]; [reflexivity |].
    cbn [List.filter]. unfold is_critical at 1.
    destruct (severity_eqb (severity (issue f)) CRITICAL) eqn:Hcritical;
      [apply severity_eqb_eq in Hcritical; contradiction | exact IH]. }
  destruct (fix_issues_result _ _ _ _ _ _ _ _ Hout Hnone) as [Hsuccess Hready].
  rewrite Hready.
  unfold run_status, run_result, run_files, run_dir. cbn [fst snd].
  match goal with
  | |- context [save_qa_signoff_status ?d ?s] =>
      destruct (predicates_after_save later d s)
        as (Happroved & Hrejected & Hfixes & Hcount & Hstored & _)
  end.
  unfold should_run_fixes, should_run_qa.
  rewrite Happroved, Hrejected, Hfixes, Hcount, Hstored.
  repeat split; auto.
Qed.

End FixPhaseAnswers.

Section FixPhaseAnswersRuns.

Import Criteria Fixer.

#[local] Existing Instance example_parser.

(** The theorem at a sign-off whose issue has a superscript two for a line
    number: [isdigit] accepts it, [int] raises, and the fix phase answers
    "error" with the message of the [ValueError]. *)
Lemma fix_phase_answers_witness :
  run_status (fixer_run [superscript_issue] true) = "error"
  /\ message (run_result (fixer_run [superscript_issue] true))
     = "invalid literal for int() with base 10: '" +:+ superscript_two +:+ "'"
  /\ run_dir (fixer_run [superscript_issue] true) = seeded_dir [superscript_issue].
Proof.
  pose proof (fix_phase_answers
                {| isoformat := "2024-05-01T10:05:00" |}
                {| isoformat := "2024-05-01T10:05:00" |} scenario_files
                (seeded_dir [superscript_issue]) 1 true
                {| status := REJECTED;
                   timestamp := {| isoformat := "2024-05-01T10:00:00" |};
                   qa_session := 1; issues_found := [superscript_issue];
                   test_results := None; verified_by := "qa_agent";
                   Criteria.ready_for_revalidation := false |}) as Hanswer.
  cbv zeta in Hanswer.
  change (fix_issues true default_min_confidence scenario_files
            (Some (seeded_dir [superscript_issue]))
            (issues_found
               {| status := REJECTED;
                  timestamp := {| isoformat := "2024-05-01T10:00:00" |};
                  qa_session := 1; issues_found := [superscript_issue];
                  test_results := None; verified_by := "qa_agent";
                  Criteria.ready_for_revalidation := false |}))
    with (@Raise (FixResult * gmap string string * option SpecDir)
            (ValueError ("invalid literal for int() with base 10: '"
                         +:+ superscript_two +:+ "'"))) in Hanswer.
  destruct Hanswer as (Hstatus & Hmessage & _ & _ & Hdir).
  - vm_compute. reflexivity.
  - discriminate.
  - split; [exact Hstatus |]. split; [exact Hmessage | exact Hdir].
Defined.

End FixPhaseAnswersRuns.

(** ** Locations: from the reviewer's text back to file and line *)

Section Locations.

Import Criteria Reviewer Fixer.

Lemma int_from_uint (d : Decimal.uint) :
  forall acc, int_from acc (NilEmpty.string_of_uint d) = Nat.of_uint_acc d acc.
Proof.
  induction d as [|d IH|d IH|d IH|d IH|d IH|d IH|d IH|d IH|d IH|d IH];
    intros acc; cbn [NilEmpty.string_of_uint int_from Nat.of_uint_acc];
    try reflexivity; rewrite IH; f_equal; rewrite Nat.tail_mul_spec;
    vm_compute nat_of_ascii; lia.
Qed.

Lemma all_digits_uint (d : Decimal.uint) :
  all_digits (NilEmpty.string_of_uint d) = true.
Proof.
  induction d as [|d IH|d IH|d IH|d IH|d IH|d IH|d IH|d IH|d IH|d IH];
    cbn [NilEmpty.string_of_uint all_digits]; auto.
Qed.

Lemma rsplit1_uint (d : Decimal.uint) :
  rsplit1 ":"%char (NilEmpty.string_of_uint d) = None.
Proof.
  induction d as [|d IH|d IH|d IH|d IH|d IH|d IH|d IH|d IH|d IH|d IH];
    cbn [NilEmpty.string_of_uint rsplit1]; try reflexivity;
    rewrite IH; reflexivity.
Qed.

(** The decimal text of a number is never the empty one. *)
Lemma str_nat_digits (n : nat) :
  str_nat n = NilEmpty.string_of_uint (Nat.to_uint n) /\ str_nat n <> "".
Proof.
  unfold str_nat, NilZero.string_of_uint.
  assert (Hnonnil : Nat.to_uint n <> Decimal.Nil).
  { rewrite <- (DecimalNat.Unsigned.of_to n) at 1.
    rewrite DecimalNat.Unsigned.to_of. apply DecimalFacts.unorm_nonnil. }
  destruct (Nat.to_uint n); try contradiction; split; try reflexivity;
    discriminate.
Qed.

Lemma int_of_str_nat (n : nat) : int_of_digits (str_nat n) = n.
Proof.
  destruct (str_nat_digits n) as [-> _].
  unfold int_of_digits. rewrite int_from_uint.
  exact (DecimalNat.Unsigned.of_to n).
Qed.

Lemma all_digits_isdigit (s : string) : all_digits s = true -> all_isdigit s = true.
Proof.
  induction s as [| c rest IH]; [reflexivity |].
  cbn [all_digits all_isdigit]. intros H. apply andb_prop in H as [Hc Hrest].
  rewrite Hc, (IH Hrest). reflexivity.
Qed.

Lemma all_digits_run (s : string) : all_digits s = true -> digit_run s = (s, "").
Proof.
  induction s as [| c rest IH]; [reflexivity |].
  cbn [all_digits digit_run]. intros H. apply andb_prop in H as [Hc Hrest].
  rewrite Hc, (IH Hrest). reflexivity.
Qed.

Lemma all_digits_str_nat (n : nat) : all_digits (str_nat n) = true.
Proof. destruct (str_nat_digits n) as [-> _]. apply all_digits_uint. Qed.

Lemma isdigit_str_nat (n : nat) : isdigit (str_nat n) = true.
Proof.
  unfold isdigit. destruct (str_nat_digits n) as [_ Hnonempty].
  apply String.eqb_neq in Hnonempty. rewrite Hnonempty.
  apply all_digits_isdigit, all_digits_str_nat.
Qed.

(** [int] reads back the decimal text of a number, unless the text is
    longer than the limit. *)
Lemma int_of_text_str_nat (n : nat) :
  String.length (str_nat n) <= INT_MAX_STR_DIGITS ->
  int_of_text (str_nat n) = Ok n.
Proof.
  intros Hshort. unfold int_of_text.
  rewrite (all_digits_run _ (all_digits_str_nat n)).
  destruct (Nat.ltb_spec INT_MAX_STR_DIGITS (String.length (str_nat n))); [lia |].
  destruct (str_nat_digits n) as [_ Hnonempty].
  apply String.eqb_neq in Hnonempty. rewrite Hnonempty.
  cbn [String.eqb andb negb]. rewrite int_of_str_nat. reflexivity.
Qed.

Lemma rsplit1_str_nat (n : nat) : rsplit1 ":"%char (str_nat n) = None.
Proof. destruct (str_nat_digits n) as [-> _]. apply rsplit1_uint. Qed.

Lemma rsplit1_last (sep : ascii) (before after : string) :
  rsplit1 sep after = None ->
  rsplit1 sep (before +:+ String sep after) = Some (before, after).
Proof.
  intros Hnone. induction before as [|c rest IH].
  - change (rsplit1 sep (String sep after) = Some ("", after)).
    cbn [rsplit1]. rewrite Hnone, Ascii.eqb_refl. reflexivity.
  - change (rsplit1 sep (String c (rest +:+ String sep after))
            = Some (String c rest, after)).
    cbn [rsplit1]. rewrite IH. reflexivity.
Qed.

Lemma parse_location_of_line (file : string) (n : nat) :
  String.length (str_nat n) <= INT_MAX_STR_DIGITS ->
  _parse_location (file +:+ ":" +:+ str_nat n) = Ok (Some file, Some n).
Proof.
  intros Hshort. unfold _parse_location.
  change (file +:+ ":" +:+ str_nat n) with (file +:+ String ":"%char (str_nat n)).
  rewrite (rsplit1_last ":"%char file (str_nat n) (rsplit1_str_nat n)).
  rewrite isdigit_str_nat, (int_of_text_str_nat n Hshort). cbn [bind].
  destruct (String.eqb (file +:+ String ":"%char (str_nat n)) "") eqn:Hempty;
    [| reflexivity].
  apply String.eqb_eq in Hempty. destruct file; discriminate Hempty.
Qed.

(** [str.replace] of one character by another works character by
    character. *)
Lemma replace_char (a b c : ascii) (s : string) :
  replace_from 0 (String a "") (String b "") (String c s)
  = String (if Ascii.eqb c a then b else c)
      (replace_from 0 (String a "") (String b "") s).
Proof.
  cbn [replace_from String.prefix String.length Nat.sub].
  destruct (Ascii.eqb_spec c a) as [->|Hne].
  - destruct (ascii_dec a a); [destruct s; reflexivity|contradiction].
  - destruct (ascii_dec a c); [congruence|reflexivity].
Qed.

(** One character of a plain name through [replace], [title], [lower] and
    [replace] again. *)
Lemma key_char (c : ascii) (previous_is_cased : bool) :
  is_upper c = false -> Ascii.eqb c " "%char = false ->
  let c1 := if Ascii.eqb c "_"%char then " "%char else c in
  let t :=
    if is_lower c1 then (if previous_is_cased then c1 else upper_char c1)
    else if is_upper c1 then (if previous_is_cased then lower_char c1 else c1)
    else c1 in
  (if Ascii.eqb (lower_char t) " "%char then "_"%char else lower_char t) = c.
Proof.
  destruct c as [[] [] [] [] [] [] [] []], previous_is_cased;
    vm_compute; intros; congruence.
Qed.

Lemma key_of_plain_name (name : string) :
  plain_name name = true ->
  forall previous_is_cased,
    replace " " "_" (lower (title_from previous_is_cased (replace "_" " " name)))
    = name.
Proof.
  unfold replace. induction name as [|c rest IH]; intros Hplain previous; [reflexivity|].
  cbn [plain_name] in Hplain.
  apply andb_prop in Hplain as [Hc Hrest]. apply andb_prop in Hc as [Hupper Hblank].
  apply negb_true_iff in Hupper, Hblank.
  rewrite replace_char.
  pose proof (key_char c previous Hupper Hblank) as Hchar. cbv zeta in Hchar.
  set (c1 := if Ascii.eqb c "_"%char then " "%char else c) in *.
  cbn [title_from].
  destruct (is_lower c1); [|destruct (is_upper c1)];
    cbn [lower]; rewrite replace_char, (IH Hrest); f_equal; exact Hchar.
Qed.

(** The fixer recovers from an issue of the reviewer what the reviewer put
    into it: the name of the check from the title, and file and line from
    the location, whatever the file path looks like, as long as the line
    number has no more digits than [int] converts. *)
Theorem reviewer_issue_is_read_by_fixer :
  forall (check : ReviewCheck) (file : string) (line : nat) (matched : string)
         (files : gmap string string),
    plain_name (check_name check) = true ->
    String.length (str_nat line) <= INT_MAX_STR_DIGITS ->
    let i := match_issue check file line matched in
    issue_key i = check_name check
    /\ _parse_location (default "" (location i)) = Ok (Some file, Some line)
    /\ exists generated,
         generate_fix files i = Ok generated
         /\ file_path generated = Some file
         /\ line_number generated = Some line
         /\ strategy generated
            = default MANUAL
                (option_map p_strategy (lookup_pattern (check_name check)))
         /\ original_code generated
            = (if negb (String.eqb file "") && (0 <? line)%nat
               then _read_file_line files file line else None).
Proof.
  intros check file line matched files Hplain Hshort i.
  assert (Hkey : issue_key i = check_name check).
  { unfold issue_key, i, match_issue, title_case. cbn [title].
    apply key_of_plain_name. exact Hplain. }
  assert (Hparse : _parse_location (default "" (location i))
                   = Ok (Some file, Some line)).
  { unfold i, match_issue. cbn [location default from_option id].
    apply parse_location_of_line. exact Hshort. }
  split; [exact Hkey |]. split; [exact Hparse |].
  unfold generate_fix. fold (issue_key i). rewrite Hkey, Hparse. cbn [bind].
  eexists. split; [reflexivity |].
  cbn [file_path line_number strategy original_code truthy truthy_line default
       from_option id].
  repeat split.
Qed.

Lemma reviewer_issue_is_read_by_fixer_witness :
  issue_key (match_issue {| check_name := "debug_statements";
                            check_category := "style";
                            check_description :=
                              "Check for debug statements left in code";
                            check_severity := LOW |}
               "src/bad.py" 3 debug_line)
  = "debug_statements"
  /\ _parse_location "src/bad.py:3" = Ok (Some "src/bad.py", Some 3).
Proof.
  destruct (reviewer_issue_is_read_by_fixer
              {| check_name := "debug_statements"; check_category := "style";
                 check_description := "Check for debug statements left in code";
                 check_severity := LOW |}
              "src/bad.py" 3 debug_line scenario_files eq_refl)
    as (Hkey & Hparse & _).
  - vm_compute. lia.
  - split; [exact Hkey | exact Hparse].
Defined.

End Locations.

(** ** Lines: what [_apply_fix] writes and [splitlines] reads *)

Section Lines.

Import Criteria Fixer.

Lemma append_cons (c : ascii) (a b : string) :
  String c a +:+ b = String c (a +:+ b).
Proof. reflexivity. Qed.

Lemma append_empty_r (a : string) : a +:+ "" = a.
Proof.
  induction a as [|c rest IH]; [reflexivity|]. rewrite append_cons, IH. reflexivity.
Qed.

(** An unbroken text is read into the line being collected. *)
Lemma splitlines_unbroken (l : string) :
  unbroken l = true ->
  forall acc rest, splitlines_from acc (l +:+ rest) = splitlines_from (acc +:+ l) rest.
Proof.
  induction l as [|c l' IH]; intros Hl acc rest.
  - rewrite append_empty_r. reflexivity.
  - cbn [unbroken] in Hl. apply andb_prop in Hl as [Hc Hl'].
    apply andb_prop in Hc as [Hcr Hbreak]. apply negb_true_iff in Hcr, Hbreak.
    rewrite append_cons. cbn [splitlines_from]. rewrite Hcr, Hbreak.
    rewrite (IH Hl'). unfold snoc. rewrite append_assoc. reflexivity.
Qed.

Lemma splitlines_LF (acc rest : string) :
  splitlines_from acc (String "010"%char rest) = acc :: splitlines_from "" rest.
Proof. reflexivity. Qed.

Lemma splitlines_join (lines : list string) :
  Forall (fun l => unbroken l = true) lines -> lines <> [] ->
  splitlines (join LF lines +:+ LF) = lines.
Proof.
  unfold splitlines. induction lines as [|p rest IH]; intros Hlines Hsome;
    [contradiction|].
  apply Forall_cons in Hlines as [Hp Hrest].
  destruct rest as [|q rest'].
  - cbn [join]. rewrite (splitlines_unbroken p Hp). unfold LF.
    rewrite splitlines_LF. reflexivity.
  - change (join LF (p :: q :: rest')) with (p +:+ LF +:+ join LF (q :: rest')).
    rewrite !append_assoc. rewrite (splitlines_unbroken p Hp).
    unfold LF at 1. rewrite append_cons, splitlines_LF.
    change ("" +:+ p) with p. f_equal.
    change ("" +:+ (join LF (q :: rest') +:+ LF)) with (join LF (q :: rest') +:+ LF).
    apply IH; [exact Hrest|discriminate].
Qed.

Lemma endswith_append (a b : string) (c : ascii) :
  b <> "" -> endswith_char (a +:+ b) c = endswith_char b c.
Proof.
  intros Hb. induction a as [|x a' IH]; [reflexivity|].
  rewrite append_cons. cbn [endswith_char].
  destruct (a' +:+ b) eqn:Hrest; [|exact IH].
  destruct a'; [|discriminate Hrest]. contradiction.
Qed.

Lemma endswith_unbroken (l : string) :
  unbroken l = true -> endswith_char l "010"%char = false.
Proof.
  induction l as [|c rest IH]; intros Hl; [reflexivity|].
  cbn [unbroken] in Hl. apply andb_prop in Hl as [Hc Hrest].
  apply andb_prop in Hc as [_ Hbreak]. apply negb_true_iff in Hbreak.
  cbn [endswith_char]. destruct rest as [|c' rest']; [|exact (IH Hrest)].
  destruct (Ascii.eqb_spec c "010"%char) as [->|]; [discriminate Hbreak|reflexivity].
Qed.

Lemma join_ends_with_text (lines : list string) :
  Forall (fun l => unbroken l = true) lines ->
  ends_with_text lines = true ->
  join LF lines <> "" /\ endswith_char (join LF lines) "010"%char = false.
Proof.
  unfold ends_with_text. induction lines as [|p rest IH]; intros Hlines Hlast;
    [discriminate Hlast|].
  apply Forall_cons in Hlines as [Hp Hrest].
  destruct rest as [|q rest'].
  - cbn [List.last join] in *. apply negb_true_iff, String.eqb_neq in Hlast.
    split; [exact Hlast|apply endswith_unbroken; exact Hp].
  - change (List.last (p :: q :: rest') "") with (List.last (q :: rest') "") in Hlast.
    destruct (IH Hrest Hlast) as [Hsome Hend].
    change (join LF (p :: q :: rest')) with (p +:+ LF +:+ join LF (q :: rest')).
    split.
    + destruct p; discriminate.
    + set (tail := join LF (q :: rest')) in *.
      rewrite endswith_append by (unfold LF; discriminate).
      change (LF +:+ tail) with (String "010"%char tail). cbn [endswith_char].
      destruct tail; [contradiction|exact Hend].
Qed.

(** What was written is read back line by line. *)
Lemma splitlines_written (lines : list string) :
  Forall (fun l => unbroken l = true) lines ->
  ends_with_text lines = true ->
  splitlines (written lines) = lines.
Proof.
  intros Hlines Hlast. unfold written.
  destruct (join_ends_with_text lines Hlines Hlast) as [_ ->].
  apply splitlines_join; [exact Hlines|].
  intros ->. discriminate Hlast.
Qed.

Lemma unbroken_snoc (acc : string) (c : ascii) :
  unbroken acc = true -> Ascii.eqb c "013"%char = false -> is_linebreak c = false ->
  unbroken (snoc acc c) = true.
Proof.
  intros Hacc Hcr Hbreak. unfold snoc. induction acc as [|x rest IH].
  - change (unbroken (String c "") = true). cbn [unbroken]. rewrite Hcr, Hbreak.
    reflexivity.
  - rewrite append_cons. cbn [unbroken] in *.
    apply andb_prop in Hacc as [Hx Hrest]. rewrite Hx, (IH Hrest). reflexivity.
Qed.

(** [str.splitlines] hands back lines without line breaks. *)
Lemma splitlines_lines_unbroken (s : string) :
  Forall (fun l => unbroken l = true) (splitlines s).
Proof.
  unfold splitlines.
  assert (Hgeneral : forall n s acc,
             String.length s <= n -> unbroken acc = true ->
             Forall (fun l => unbroken l = true) (splitlines_from acc s)).
  { clear s. induction n as [|n IH]; intros s acc Hlength Hacc.
    - destruct s; [|cbn in Hlength; lia]. cbn [splitlines_from].
      destruct (String.eqb acc ""); constructor; [exact Hacc|constructor].
    - destruct s as [|c s']; cbn [splitlines_from].
      { destruct (String.eqb acc ""); constructor; [exact Hacc|constructor]. }
      cbn [String.length] in Hlength.
      destruct (Ascii.eqb c "013"%char) eqn:Hcr.
      + destruct s' as [|c' s''].
        * constructor; [exact Hacc|]. apply IH; [cbn; lia|reflexivity].
        * cbn [String.length] in Hlength.
          destruct (Ascii.eqb c' "010"%char); constructor; try exact Hacc;
            apply IH; cbn [String.length]; try lia; reflexivity.
      + destruct (is_linebreak c) eqn:Hbreak.
        * constructor; [exact Hacc|]. apply IH; [lia|reflexivity].
        * apply IH; [lia|]. apply unbroken_snoc; assumption. }
  apply (Hgeneral (String.length s)); [apply le_n|reflexivity].
Qed.

(** Deleting a line. [_apply_fix] with a DELETE fix writes the file
    without the addressed line and with every other line in place; read
    again, the file has exactly the remaining lines. A line number past the
    end (or none at all) removes nothing, and the fix still counts as
    applied. No other file changes. *)
Theorem delete_removes_the_addressed_line :
  forall (files : gmap string string) (f : Fix) (path content : string),
    strategy f = DELETE ->
    file_path f = Some path ->
    path <> "" ->
    files !! path = Some content ->
    let out := _apply_fix files f in
    let lines := splitlines content in
    let remaining :=
      match line_number f with
      | Some (S k) => if (k <? length lines)%nat
                      then take k lines ++ drop (S k) lines else lines
      | _ => lines
      end in
    fst (fst out) = true
    /\ applied (snd (fst out)) = true
    /\ snd out !! path = Some (written remaining)
    /\ (forall other, other <> path -> snd out !! other = files !! other)
    /\ (ends_with_text remaining = true ->
        option_map splitlines (snd out !! path) = Some remaining)
    /\ (forall k, line_number f = Some (S k) -> k < length lines ->
        S (length remaining) = length lines).
Proof.
  intros files f path content Hdelete Hfile Hpath Hcontent out lines remaining.
  assert (Hedit : edit_lines f lines = remaining).
  { unfold edit_lines, remaining. rewrite Hdelete.
    destruct (line_number f) as [[|k]|]; try reflexivity.
    destruct (Nat.ltb_spec k (length lines)) as [Hin|Hout].
    - destruct (lookup_lt_is_Some_2 lines k Hin) as [l ->]. reflexivity.
    - rewrite (lookup_ge_None_2 lines k Hout). reflexivity. }
  assert (Hout : out = (true, set_applied f, <[path := written remaining]> files)).
  { unfold out, _apply_fix. rewrite Hfile, Hdelete. cbn [truthy is_delete is_manual negb andb].
    apply String.eqb_neq in Hpath. rewrite Hpath. cbn [negb default from_option id].
    rewrite Hcontent. fold lines. rewrite Hedit. reflexivity. }
  assert (Hunbroken : Forall (fun l => unbroken l = true) remaining).
  { pose proof (splitlines_lines_unbroken content) as Hlines. fold lines in Hlines.
    unfold remaining. destruct (line_number f) as [[|k]|]; try exact Hlines.
    destruct (k <? length lines)%nat; [|exact Hlines].
    apply Forall_app. split; [apply Forall_take|apply Forall_drop]; exact Hlines. }
  rewrite Hout. cbn [fst snd applied set_applied]. repeat split.
  - apply lookup_insert_eq.
  - intros other Hother. apply lookup_insert_ne. congruence.
  - intros Hlast. rewrite lookup_insert_eq. cbn [option_map].
    rewrite (splitlines_written remaining Hunbroken Hlast). reflexivity.
  - intros k Hline Hin. unfold remaining. rewrite Hline.
    apply Nat.ltb_lt in Hin as Hltb. rewrite Hltb.
    rewrite length_app, length_take, length_drop. lia.
Qed.

Lemma delete_removes_the_addressed_line_witness :
  exists generated : Fix,
    generate_fix scenario_files debug_issue = Ok generated
    /\ option_map splitlines
         (snd (_apply_fix scenario_files generated) !! "src/bad.py")
       = Some ["import os"; "value = os.getcwd()"].
Proof.
  destruct (generate_fix scenario_files debug_issue) as [generated | e] eqn:Hgenerated;
    [| vm_compute in Hgenerated; discriminate].
  exists generated. split; [reflexivity |].
  vm_compute in Hgenerated. injection Hgenerated as <-.
  match goal with
  | |- context [_apply_fix scenario_files ?f] =>
      destruct (delete_removes_the_addressed_line scenario_files f
                  "src/bad.py" bad_py) as (_ & _ & _ & _ & Hread & _)
  end.
  - reflexivity.
  - reflexivity.
  - discriminate.
  - vm_compute. reflexivity.
  - rewrite Hread; [vm_compute; reflexivity |]. vm_compute. reflexivity.
Defined.

End Lines.

Section ReportedLines.

Import Criteria Reviewer Fixer.

Lemma snoc_not_empty (acc : string) (c : ascii) : String.eqb (snoc acc c) "" = false.
Proof. destruct acc; reflexivity. Qed.

(** The first line [str.splitlines] yields of a text that holds a
    character. *)
Lemma splitlines_first (s : string) :
  LF_only s = true -> s <> "" ->
  forall acc, splitlines_from acc s !! 0 = Some (acc +:+ upto_LF s).
Proof.
  induction s as [|c s' IH]; intros Hs Hsome acc; [contradiction|].
  cbn [LF_only] in Hs. apply andb_prop in Hs as [Hc Hs'].
  cbn [upto_LF]. destruct (Ascii.eqb_spec c "010"%char) as [->|Hother].
  - rewrite splitlines_LF, append_empty_r. reflexivity.
  - cbn [orb] in Hc. apply andb_prop in Hc as [Hcr Hbreak].
    apply negb_true_iff in Hcr, Hbreak.
    cbn [splitlines_from]. rewrite Hcr, Hbreak.
    destruct s' as [|c' s''].
    + cbn [splitlines_from upto_LF]. rewrite snoc_not_empty. reflexivity.
    + rewrite (IH Hs'); [|discriminate]. unfold snoc. rewrite append_assoc.
      reflexivity.
Qed.

Lemma reported_line (start : nat) :
  forall (s acc : string),
    LF_only s = true -> start < String.length s ->
    line_at (splitlines_from acc s) (count_LF (String.substring 0 start s) + 1)
    = Some (line_around acc s start).
Proof.
  induction start as [|n IH]; intros s acc Hs Hstart.
  - assert (Hsome : s <> "") by (destruct s; [cbn in Hstart; lia|discriminate]).
    replace (String.substring 0 0 s) with "" by (destruct s; reflexivity).
    cbn [count_LF Nat.add line_at]. rewrite (splitlines_first s Hs Hsome).
    destruct s; reflexivity.
  - destruct s as [|c s']; [cbn in Hstart; lia|].
    cbn [String.length] in Hstart. cbn [LF_only] in Hs.
    apply andb_prop in Hs as [Hc Hs'].
    cbn [String.substring count_LF line_around].
    destruct (Ascii.eqb_spec c "010"%char) as [->|Hother].
    + rewrite splitlines_LF.
      rewrite <- (IH s' "" Hs' ltac:(lia)).
      replace (1 + count_LF (String.substring 0 n s') + 1)
        with (S (count_LF (String.substring 0 n s') + 1)) by lia.
      rewrite Nat.add_1_r. reflexivity.
    + cbn [orb] in Hc. apply andb_prop in Hc as [Hcr Hbreak].
      apply negb_true_iff in Hcr, Hbreak.
      cbn [splitlines_from]. rewrite Hcr, Hbreak. cbn [Nat.add].
      apply IH; [exact Hs'|lia].
Qed.

(** The line the reviewer reports is the line the fixer reads. For a file
    whose only line breaks are line feeds, the line number [_run_check]
    computes for a match at an offset is the number of the line around that
    offset in [str.splitlines], so the fix generated for the issue has that
    line as its original code (the line number having no more digits than
    [int] converts). *)
Theorem reported_line_is_the_line_read :
  forall (files : gmap string string) (check : ReviewCheck)
         (file content matched : string) (start : nat),
    files !! file = Some content ->
    file <> "" ->
    LF_only content = true ->
    start < String.length content ->
    let line := line_of content start in
    String.length (str_nat line) <= INT_MAX_STR_DIGITS ->
    _read_file_line files file line = Some (line_around "" content start)
    /\ 1 <= line <= length (splitlines content)
    /\ exists generated,
         generate_fix files (match_issue check file line matched) = Ok generated
         /\ original_code generated = Some (line_around "" content start)
         /\ line_number generated = Some line.
Proof.
  intros files check file content matched start Hfile Hname Hcontent Hstart line
    Hshort.
  assert (Hread : _read_file_line files file line = Some (line_around "" content start)).
  { unfold _read_file_line, line, line_of, splitlines. rewrite Hfile.
    apply reported_line; assumption. }
  assert (Hpositive : exists k, line = S k).
  { exists (count_LF (String.substring 0 start content)). unfold line, line_of. lia. }
  destruct Hpositive as [k Hk].
  split; [exact Hread |]. split.
  { unfold _read_file_line in Hread. rewrite Hfile in Hread. rewrite Hk in Hread |- *.
    cbn [line_at] in Hread. apply lookup_lt_Some in Hread. lia. }
  unfold generate_fix.
  replace (_parse_location (default "" (location (match_issue check file line matched))))
    with (Ok (Some file, Some line))
    by (symmetry; apply parse_location_of_line; exact Hshort).
  cbn [bind]. eexists. split; [reflexivity |].
  cbn [original_code line_number truthy truthy_line default from_option id].
  apply String.eqb_neq in Hname. rewrite Hname. cbn [negb andb].
  rewrite Hk. rewrite <- Hk. split; [exact Hread | reflexivity].
Qed.

Lemma reported_line_is_the_line_read_witness :
  line_of bad_py 30 = 3
  /\ _read_file_line scenario_files "src/bad.py" (line_of bad_py 30) = Some debug_line.
Proof.
  split; [vm_compute; reflexivity |].
  destruct (reported_line_is_the_line_read scenario_files
              {| check_name := "debug_statements"; check_category := "style";
                 check_description := "Check for debug statements left in code";
                 check_severity := LOW |}
              "src/bad.py" bad_py debug_line 30) as [Hread _].
  - reflexivity.
  - discriminate.
  - vm_compute. reflexivity.
  - vm_compute. lia.
  - vm_compute. lia.
  - rewrite Hread. vm_compute. reflexivity.
Defined.

End ReportedLines.
